(** * Scoring and ranking engine of the stock contest backend

    A shallow embedding of the settlement, user statistics and leaderboard
    code of [models/User.js], [models/Recommend.js], [models/Ranking.js]
    and of the controller and job functions that call them.

    Conventions of the model
    - INTEGER columns and JavaScript integers are [Z]: exact, where the
      program's are doubles, exact up to 2^53.
    - A DECIMAL column is the rational ([Q]) its decimal text denotes.
      The program reads such a column as a text: it is truthy whatever
      its value, and arithmetic converts it to the nearest double.
    - A JavaScript number is a double, kept as the rational it is
      exactly.  The arithmetic of [settle], of [updateCurrentReturn], of
      the price refresh and of [toJSON]'s progress rounds after every
      operation as the program does ([JS.double]: 53 significant bits,
      to nearest, ties to even).  The exponent range is not modelled:
      there is no overflow to [Infinity] and no underflow, and a division
      by zero, which gives [Infinity] or [NaN] in the program, is a
      division of [Q].  The win rates and averages of [User.toJSON] and
      of the leaderboard rows are exact quotients.  Numeric equality of
      two rationals is [Qeq] ([==]).
    - A nullable column, or a value that may be [null]/[undefined], is an
      [option]; a price taken from a request body is a [JS.value].
    - DATE columns and [new Date()] are instants in milliseconds ([Z]);
      a store that keeps whole seconds holds multiples of 1000.
    - Tables are lists of rows in table order; a value written to a
      DECIMAL column is kept as it is, not rounded to the column's scale.
    - Errors are the ones the code throws itself; a failure of the store
      is not modelled. *)

From Stdlib Require Import ZArith QArith Qabs Qround Qpower Lqa Lia.
From Stdlib Require Import Bool List String Ascii.
From Stdlib Require Import Decimal DecimalString DecimalPos DecimalZ.
From stdpp Require Import base option list sorting gmap strings.
Import ListNotations.

Local Open Scope Z_scope.

(** ** models/User.js *)

Module User.

(** [status] ENUM of the [users] table. *)
Inductive Status := active | inactive | banned.

Record t := mk {
  id : Z;
  nickname : string;
  level : Z;
  total_score : Z;
  current_score : Z;
  total_recommends : Z;
  success_recommends : Z;
  failed_recommends : Z;
  current_streak : Z;
  max_streak : Z;
  status : Status
}.

Definition is_active (u : t) : bool :=
  match status u with active => true | _ => false end.

(** The points earned by a success that brings the streak to [streak]:
    [let scoreGain = 10; if (streak >= 3) += 20; if (streak >= 5) += 50]. *)
Definition scoreGain (streak : Z) : Z :=
  10 + (if 3 <=? streak then 20 else 0) + (if 5 <=? streak then 50 else 0).

(** The level check at the end of [updateStats]. *)
Definition checkLevel (u : t) : t :=
  let newLevel := total_score u / 1000 + 1 in
  if level u <? newLevel
  then mk (id u) (nickname u) newLevel (total_score u) (current_score u)
          (total_recommends u) (success_recommends u) (failed_recommends u)
          (current_streak u) (max_streak u) (status u)
  else u.

(** [User.prototype.updateStats(isSuccess)]. *)
Definition updateStats (isSuccess : bool) (u : t) : t :=
  let u1 :=
    if isSuccess then
      let streak := current_streak u + 1 in
      let gain := scoreGain streak in
      mk (id u) (nickname u) (level u)
         (total_score u + gain) (current_score u + gain)
         (total_recommends u) (success_recommends u + 1) (failed_recommends u)
         streak (Z.max (max_streak u) streak) (status u)
    else
      mk (id u) (nickname u) (level u)
         (total_score u) (Z.max 0 (current_score u - 5))
         (total_recommends u) (success_recommends u) (failed_recommends u + 1)
         0 (max_streak u) (status u) in
  let u2 :=
    mk (id u1) (nickname u1) (level u1) (total_score u1) (current_score u1)
       (total_recommends u1 + 1) (success_recommends u1) (failed_recommends u1)
       (current_streak u1) (max_streak u1) (status u1) in
  checkLevel u2.

(** The [winRate] that [User.prototype.toJSON] adds to the values. *)
Definition winRate (u : t) : Q :=
  if 0 <? total_recommends u
  then (inject_Z (success_recommends u) / inject_Z (total_recommends u))%Q
  else 0%Q.

End User.

(** ** JavaScript values used by the models *)

Module JS.

(** Errors thrown by the modelled code: [new ApiError(message, code)] of
    the controllers and [new Error(message)] of the models. *)
Inductive error :=
| ApiError (message : string) (code : Z)
| Error (message : string).

Inductive result (A : Type) :=
| Ok (a : A)
| Throw (e : error).
Arguments Ok {A} a.
Arguments Throw {A} e.

Definition is_throw {A} (m : result A) : bool :=
  match m with Ok _ => false | Throw _ => true end.

(** *** Numbers

    A number is an IEEE 754 double, kept as the rational it is.
    [double x] is the double nearest to the real [x], with 53 significant
    bits, a tie going to the neighbour whose last bit is even: what the
    numeral of [x] denotes as a number literal or as a text converted to
    a number, and what an arithmetic operation returns for the exact
    result [x].  The exponent is not bounded: the program agrees for
    magnitudes from [2^-1022] to below [2^1024], beyond which it
    underflows or gives [Infinity]. *)

Definition pow2 (e : Z) : Q := Qpower 2 e.

(** The [e] with [2^e <= |x| < 2^(e+1)], for [x] other than 0. *)
Definition exponent (x : Q) : Z :=
  let k := Z.log2 (Z.abs (Qnum x)) - Z.log2 (Zpos (Qden x)) in
  if Qle_bool (pow2 k) (Qabs x) then k else k - 1.

(** The nearest integer, a tie going to the even one. *)
Definition roundHalfEven (x : Q) : Z :=
  let f := Qfloor x in
  match (x - inject_Z f ?= 1 # 2)%Q with
  | Lt => f
  | Gt => f + 1
  | Eq => if Z.even f then f else f + 1
  end.

(** The unit in the last place of the double nearest to [x]. *)
Definition ulp (x : Q) : Q := pow2 (exponent x - 52).

Definition double (x : Q) : Q :=
  if Qeq_bool x 0 then 0%Q
  else Qred (inject_Z (roundHalfEven (x / ulp x)) * ulp x).
Arguments double : simpl never.

(** [a - b], [a * b] and [a / b] on numbers. *)
Definition sub (a b : Q) : Q := double (a - b).
Definition mul (a b : Q) : Q := double (a * b).
Definition div (a b : Q) : Q := double (a / b).

(** *** Prices as a request or a row carries them

    [Null] is [null] or [undefined]; [Number x] is the number whose
    numeral denotes [x]; [Text x] is a text that holds a numeral of [x],
    as a DECIMAL column read from the database or a JSON string such as
    ["0"].  Other values (booleans, texts that are no numerals, arrays
    and objects) are left out. *)
Inductive value :=
| Null
| Number (x : Q)
| Text (x : Q).

(** A DECIMAL column as the program reads it. *)
Definition column (c : option Q) : value :=
  match c with
  | Some q => Text q
  | None => Null
  end.

(** Truthiness: [null], [undefined] and the number [0] are falsy; a text
    that holds a numeral is not empty, hence truthy. *)
Definition truthy (v : value) : bool :=
  match v with
  | Null => false
  | Number x => negb (Qeq_bool (double x) 0)
  | Text _ => true
  end.

(** [a || b]. *)
Definition or (a b : value) : value :=
  if truthy a then a else b.

(** A value used as a number: [null] converts to [0], a text to the
    number its numeral denotes. *)
Definition toNumber (v : value) : Q :=
  match v with
  | Null => 0%Q
  | Number x => double x
  | Text x => double x
  end.

(** A value written to a DECIMAL column. *)
Definition decimal (v : value) : option Q :=
  match v with
  | Null => None
  | Number x => Some x
  | Text x => Some x
  end.

(** [a > b] and [a >= b] on numbers. *)
Definition gt (a b : Q) : bool := negb (Qle_bool a b).
Definition ge (a b : Q) : bool := Qle_bool b a.

(** [x.toFixed(2)], as the decimal its text denotes: the nearest multiple
    of [1/100], a tie going away from zero. *)
Definition toFixed2 (x : Q) : Q :=
  let n := Qfloor (Qabs x * 100 + (1 # 2))%Q in
  if Qle_bool 0 x then (n # 100)%Q else ((- n) # 100)%Q.

End JS.

(** ** models/Recommend.js *)

Module Recommend.

(** [status] ENUM of the [recommends] table. *)
Inductive Status := active | success | failed | expired | cancelled.

Definition Status_eqb (a b : Status) : bool :=
  match a, b with
  | active, active | success, success | failed, failed
  | expired, expired | cancelled, cancelled => true
  | _, _ => false
  end.

(** [hold_period] ENUM. *)
Inductive HoldPeriod := week1 | weeks2 | month1 | months3.

(** The columns the settlement and ranking code reads or writes, and the
    descriptive columns of a prediction.  The counters [like_count] and
    [view_count], [tags], [is_featured] and [admin_comment] are left
    out: no modelled operation touches them. *)
Record t := mk {
  id : Z;
  user_id : Z;
  stock_code : string;
  predict_change : Q;
  reason : string;
  confidence : Z;
  hold_period : HoldPeriod;
  entry_price : Q;
  current_price : option Q;
  exit_price : option Q;
  current_return : option Q;
  actual_return : option Q;
  start_date : Z;
  end_date : Z;
  settled_at : option Z;
  status : Status;
  follow_count : Z;
  created_at : Z
}.

Definition is_active (r : t) : bool := Status_eqb (status r) active.
Definition is_success (r : t) : bool := Status_eqb (status r) success.

(** The two tables the settlement code works on. *)
Record Tables := mkTables {
  recommends : list t;
  users : list User.t
}.

(** [Model.findByPk(id)] and [instance.save()] on a table. *)
Definition findByPk {A} (key : A -> Z) (k : Z) (rows : list A) : option A :=
  List.find (fun x => key x =? k) rows.

Definition save {A} (key : A -> Z) (x : A) (rows : list A) : list A :=
  List.map (fun y => if key y =? key x then x else y) rows.

(** [((price - this.entry_price) / this.entry_price) * 100]: [price] is
    the price as the code holds it, [entry_price] the column.  For an
    entry price of zero the program's result is [Infinity] or [NaN],
    which is no rational; the division of [Q] gives 0. *)
Definition returnOf (entry_price : Q) (price : JS.value) : Q :=
  let entry := JS.toNumber (JS.Text entry_price) in
  JS.mul (JS.div (JS.sub (JS.toNumber price) entry) entry) 100.

(** [Recommend.prototype.updateCurrentReturn(currentPrice)], called with
    a number. *)
Definition updateCurrentReturn (currentPrice : Q) (this : t) : t :=
  mk (id this) (user_id this) (stock_code this) (predict_change this)
     (reason this) (confidence this) (hold_period this) (entry_price this)
     (Some currentPrice) (exit_price this)
     (Some (returnOf (entry_price this) (JS.Number currentPrice)))
     (actual_return this)
     (start_date this) (end_date this) (settled_at this) (status this)
     (follow_count this) (created_at this).

Inductive Direction := up | down.

Definition Direction_eqb (a b : Direction) : bool :=
  match a, b with
  | up, up | down, down => true
  | _, _ => false
  end.

Definition direction (x : Q) : Direction :=
  if JS.gt x 0 then up else down.

(** [100 - Math.abs(this.actual_return - this.predict_change)]:
    [actual_return] is the number [settle] has just computed,
    [predict_change] the column. *)
Definition accuracyScore (predict_change actual_return : Q) : Q :=
  JS.sub 100
    (Qabs (JS.sub actual_return (JS.toNumber (JS.Text predict_change)))).

(** The outcome [settle] decides from the predicted and the actual
    change (lines 249-266). *)
Definition outcome (predict_change actual_return : Q) : Status :=
  let predictDirection :=
    direction (JS.toNumber (JS.Text predict_change)) in
  let actualDirection := direction actual_return in
  if Direction_eqb predictDirection actualDirection then
    if JS.ge (accuracyScore predict_change actual_return) 80 then success
    else if JS.ge (accuracyScore predict_change actual_return) 50
    then success
    else failed
  else failed.

(** The part of [Recommend.prototype.settle(exitPrice)] that works on the
    instance, up to [this.save()] (lines 237-266); [now] is
    [new Date()].  The instance was read from the table, so its
    [current_price] is a text or [null]. *)
Definition settleFields (now : Z) (exitPrice : JS.value) (this : t)
  : JS.result t :=
  let finalPrice := JS.or exitPrice (JS.column (current_price this)) in
  if negb (JS.truthy finalPrice)
  then JS.Throw (JS.Error "无法获取结算价格")
  else
    let actual := returnOf (entry_price this) finalPrice in
    JS.Ok (mk (id this) (user_id this) (stock_code this)
             (predict_change this) (reason this) (confidence this)
             (hold_period this) (entry_price this)
             (current_price this) (JS.decimal finalPrice)
             (current_return this) (Some actual)
             (start_date this) (end_date this) (Some now)
             (outcome (predict_change this) actual)
             (follow_count this) (created_at this)).

Definition set_status (s : Status) (this : t) : t :=
  mk (id this) (user_id this) (stock_code this) (predict_change this)
     (reason this) (confidence this) (hold_period this) (entry_price this)
     (current_price this) (exit_price this)
     (current_return this) (actual_return this)
     (start_date this) (end_date this) (settled_at this) s
     (follow_count this) (created_at this).

(** [Recommend.prototype.settle(exitPrice)] on the tables: the instance
    is saved, then the author, when found, gets [updateStats] and is
    saved.  The result is the instance after the call, or the error
    thrown, with the tables as the call leaves them.  The refresh of the
    stock's aggregate ([stock.updateStats()]) writes the [stocks] table
    only, which is not modelled. *)
Definition settle (now : Z) (exitPrice : JS.value) (this : t) (db : Tables)
  : JS.result t * Tables :=
  match settleFields now exitPrice this with
  | JS.Throw e => (JS.Throw e, db)
  | JS.Ok this' =>
      let db1 := mkTables (save id this' (recommends db)) (users db) in
      let db2 :=
        match findByPk User.id (user_id this') (users db1) with
        | Some user =>
            mkTables (recommends db1)
              (save User.id (User.updateStats (is_success this') user)
                 (users db1))
        | None => db1
        end in
      (JS.Ok this', db2)
  end.

(** [Recommend.prototype.checkExpired()]; [now] is [new Date()]. *)
Definition checkExpired (now : Z) (this : t) (db : Tables)
  : JS.result t * Tables :=
  if is_active this && (end_date this <? now) then
    match settle now JS.Null this db with
    | (JS.Throw e, db1) => (JS.Throw e, db1)
    | (JS.Ok this1, db1) =>
        if is_active this1 then
          let this2 := set_status expired this1 in
          (JS.Ok this2, mkTables (save id this2 (recommends db1)) (users db1))
        else (JS.Ok this1, db1)
    end
  else (JS.Ok this, db).

End Recommend.

(** ** controllers/recommendController.js and utils/stockUpdateJob.js *)

Module RecommendController.

Import Recommend.

(** The row [createRecommend] inserts: [id] is the auto-increment key,
    [now] is [new Date()] and [endDate] the end of the hold period the
    controller computes with the calendar. *)
Definition createRecommend (id userId : Z) (stockCode : string)
    (currentPrice predictChange : Q) (reason : string)
    (holdPeriod : HoldPeriod) (confidence : Z) (now endDate : Z) : t :=
  mk id userId stockCode predictChange reason confidence holdPeriod
     currentPrice (Some currentPrice) None (Some 0%Q) None
     now endDate None active 0 now.

(** [settleRecommend]: the manual settlement of prediction [id]. *)
Definition settleRecommend (now : Z) (id : Z) (exitPrice : JS.value)
    (db : Tables) : JS.result t * Tables :=
  match findByPk Recommend.id id (recommends db) with
  | None => (JS.Throw (JS.ApiError "推荐不存在" 404), db)
  | Some recommend =>
      if negb (is_active recommend)
      then (JS.Throw (JS.ApiError "只能结算活跃状态的推荐" 400), db)
      else settle now exitPrice recommend db
  end.

(** [deleteRecommend] by user [userId]: a soft delete. *)
Definition deleteRecommend (id userId : Z) (db : Tables)
  : JS.result t * Tables :=
  match findByPk Recommend.id id (recommends db) with
  | None => (JS.Throw (JS.ApiError "推荐不存在" 404), db)
  | Some recommend =>
      if negb (user_id recommend =? userId)
      then (JS.Throw (JS.ApiError "无权限删除此推荐" 403), db)
      else if negb (is_active recommend)
      then (JS.Throw (JS.ApiError "只能删除活跃状态的推荐" 400), db)
      else
        let recommend' := set_status cancelled recommend in
        (JS.Ok recommend',
         mkTables (save Recommend.id recommend' (recommends db)) (users db))
  end.

(** What the engine's operations do to one prediction. *)
Inductive event :=
| PriceRefresh (stockPrice : option Q)
| UpdateCurrentReturn (currentPrice : Q)
| Settle (now : Z) (exitPrice : JS.value)
| JobSettle (now : Z)
| CheckExpired (now : Z)
| Cancel.

(** The row after an event; an operation that throws, or whose query
    does not select the row, leaves it as it is.
    - [PriceRefresh]: [updateRecommendReturns] of the update job, which
      selects the active rows and writes the stock's price and the
      return rounded by [toFixed(2)];
    - [UpdateCurrentReturn]: the method [updateCurrentReturn], which
      tests no status;
    - [Settle]: [settleRecommend];
    - [JobSettle]: [settleExpiredRecommends] of the update job, which
      selects the active rows with [end_date <= now] and calls
      [settle()];
    - [CheckExpired]: [checkExpired()] on the row;
    - [Cancel]: [deleteRecommend] by the author. *)
Definition apply (e : event) (r : t) : t :=
  match e with
  | PriceRefresh stockPrice =>
      if is_active r then
        mk (id r) (user_id r) (stock_code r) (predict_change r)
           (reason r) (confidence r) (hold_period r) (entry_price r)
           stockPrice (exit_price r)
           (Some (JS.toFixed2
                    (returnOf (entry_price r) (JS.column stockPrice))))
           (actual_return r)
           (start_date r) (end_date r) (settled_at r) (status r)
           (follow_count r) (created_at r)
      else r
  | UpdateCurrentReturn currentPrice => updateCurrentReturn currentPrice r
  | Settle now exitPrice =>
      if negb (is_active r) then r
      else match settleFields now exitPrice r with
           | JS.Ok r' => r'
           | JS.Throw _ => r
           end
  | JobSettle now =>
      if is_active r && (end_date r <=? now) then
        match settleFields now JS.Null r with
        | JS.Ok r' => r'
        | JS.Throw _ => r
        end
      else r
  | CheckExpired now =>
      if is_active r && (end_date r <? now) then
        match settleFields now JS.Null r with
        | JS.Ok r' => if is_active r' then set_status expired r' else r'
        | JS.Throw _ => r
        end
      else r
  | Cancel => if negb (is_active r) then r else set_status cancelled r
  end.

Definition run (es : list event) (r : t) : t :=
  List.fold_left (fun r e => apply e r) es r.

End RecommendController.

(** ** JavaScript strings: what [getCurrentPeriod] and [getPreviousPeriod]
    use *)

Module JSString.

Local Open Scope string_scope.

(** [s.split(sep)] for a separator that is not empty.  [skip] counts the
    characters of a separator just matched that are still to be dropped,
    [piece] is the piece being read. *)
Fixpoint split_from (sep s : string) (skip : nat) (piece : string)
  : list string :=
  match s with
  | EmptyString => [piece]
  | String c s' =>
      match skip with
      | S k => split_from sep s' k piece
      | O =>
          if String.prefix sep s
          then piece :: split_from sep s' (Nat.pred (String.length sep)) ""
          else split_from sep s' O (piece ++ String c "")
      end
  end.

Definition split (sep s : string) : list string := split_from sep s O "".

(** White space [parseInt] skips (the ASCII part of it). *)
Definition isWhiteSpace (c : ascii) : bool :=
  let n := nat_of_ascii c in
  (n =? 32)%nat || ((9 <=? n)%nat && (n <=? 13)%nat).

(** The value of a digit in radix [radix], if it is one. *)
Definition digitValue (radix : Z) (c : ascii) : option Z :=
  let n := Z.of_nat (nat_of_ascii c) in
  let v :=
    if (48 <=? n)%Z && (n <=? 57)%Z then Some (n - 48)%Z
    else if (97 <=? n)%Z && (n <=? 122)%Z then Some (n - 87)%Z
    else if (65 <=? n)%Z && (n <=? 90)%Z then Some (n - 55)%Z
    else None in
  match v with
  | Some d => if (d <? radix)%Z then Some d else None
  | None => None
  end.

Fixpoint skipWhiteSpace (s : string) : string :=
  match s with
  | String c s' => if isWhiteSpace c then skipWhiteSpace s' else s
  | EmptyString => s
  end.

(** The value of the longest prefix of digits, [acc] being the value read
    so far; [None] when there is no digit. *)
Fixpoint readDigits (radix : Z) (s : string) (acc : option Z) : option Z :=
  match s with
  | String c s' =>
      match digitValue radix c with
      | Some d =>
          readDigits radix s'
            (Some (match acc with Some a => a * radix + d | None => d end)%Z)
      | None => acc
      end
  | EmptyString => acc
  end.

(** The sign [parseInt] reads, and the text after it. *)
Definition stripSign (s : string) : bool * string :=
  match s with
  | String "-" r => (true, r)
  | String "+" r => (false, r)
  | _ => (false, s)
  end.

(** The radix [parseInt] takes when none is given, and the text after the
    prefix. *)
Definition stripPrefix (s : string) : Z * string :=
  match s with
  | String "0" (String "x" r) => (16%Z, r)
  | String "0" (String "X" r) => (16%Z, r)
  | _ => (10%Z, s)
  end.

(** [parseInt(s)] with no radix; [None] is [NaN]. *)
Definition parseInt (s : string) : option Z :=
  let '(negative, s2) := stripSign (skipWhiteSpace s) in
  let '(radix, s3) := stripPrefix s2 in
  match readDigits radix s3 None with
  | Some v => Some (if negative then (- v)%Z else v)
  | None => None
  end.

(** [parseInt(x)] of a value that may be [undefined]: the text
    ["undefined"] has no digit. *)
Definition parseIntOpt (x : option string) : option Z :=
  match x with
  | Some s => parseInt s
  | None => None
  end.

(** [n.toString()] of an integer, and of [NaN]. *)
Definition toString (n : Z) : string :=
  NilZero.string_of_int (Z.to_int n).

Definition numberToString (x : option Z) : string :=
  match x with
  | Some n => toString n
  | None => "NaN"
  end.

(** [s.padStart(2, "0")]. *)
Definition padStart2 (s : string) : string :=
  match String.length s with
  | O => "00"
  | S O => String "0" s
  | _ => s
  end.

(** [Math.ceil(n / d)] for integers [n] and [d > 0]. *)
Definition ceilDiv (n d : Z) : Z := (- ((- n) / d))%Z.

End JSString.

(** ** models/Ranking.js *)

Module Ranking.

Local Open Scope string_scope.

(** [ranking_type] ENUM. *)
Inductive RankingType := weekly | monthly | total.

Definition RankingType_eqb (a b : RankingType) : bool :=
  match a, b with
  | weekly, weekly | monthly, monthly | total, total => true
  | _, _ => false
  end.

(** A JavaScript [Date]: an instant, or the invalid date a constructor
    returns for [NaN]. *)
Inductive Date := Instant (ms : Z) | InvalidDate.

(** A row of the [rankings] table, without its auto-increment [id]. *)
Record t := mk {
  user_id : Z;
  rank : Z;
  previous_rank : option Z;
  score : Z;
  period_score : Z;
  total_recommends : Z;
  success_recommends : Z;
  win_rate : Q;
  avg_return : Q;
  max_return : Q;
  current_streak : Z;
  max_streak : Z;
  ranking_type : RankingType;
  period : string;
  period_start : option Date;
  period_end : option Date;
  is_active : bool;
  badge : option string
}.

(** What [getCurrentPeriod] reads from [new Date()]: [getFullYear()],
    [getMonth()], the whole days elapsed since [new Date(year, 0, 1)] and
    the [getDay()] of that first of January. *)
Record Clock := mkClock {
  fullYear : Z;
  monthIndex : Z;
  daysSinceStartOfYear : Z;
  startOfYearDay : Z
}.

(** [Ranking.getCurrentPeriod(type)]. *)
Definition getCurrentPeriod (now : Clock) (type : RankingType) : string :=
  match type with
  | weekly =>
      let year := fullYear now in
      let days := daysSinceStartOfYear now in
      let week := JSString.ceilDiv (days + startOfYearDay now + 1) 7 in
      JSString.toString year ++ "-W"
        ++ JSString.padStart2 (JSString.toString week)
  | monthly =>
      let year := fullYear now in
      let month := (monthIndex now + 1)%Z in
      JSString.toString year ++ "-"
        ++ JSString.padStart2 (JSString.toString month)
  | total => "total"
  end.

(** [Ranking.getPreviousPeriod(type, currentPeriod)]. *)
Definition getPreviousPeriod (type : RankingType) (currentPeriod : string)
  : string :=
  match type with
  | total => "total"
  | weekly =>
      let pieces := JSString.split "-W" currentPeriod in
      let year := List.nth 0 pieces "undefined" in
      let weekNum := JSString.parseIntOpt (List.nth_error pieces 1) in
      match weekNum with
      | Some n =>
          if (1 <? n)%Z
          then year ++ "-W" ++ JSString.padStart2 (JSString.toString (n - 1))
          else JSString.numberToString
                 (option_map (fun y => (y - 1)%Z) (JSString.parseInt year))
                 ++ "-W52"
      | None =>
          JSString.numberToString
            (option_map (fun y => (y - 1)%Z) (JSString.parseInt year))
            ++ "-W52"
      end
  | monthly =>
      let pieces := JSString.split "-" currentPeriod in
      let year := List.nth 0 pieces "undefined" in
      let monthNum := JSString.parseIntOpt (List.nth_error pieces 1) in
      match monthNum with
      | Some n =>
          if (1 <? n)%Z
          then year ++ "-" ++ JSString.padStart2 (JSString.toString (n - 1))
          else JSString.numberToString
                 (option_map (fun y => (y - 1)%Z) (JSString.parseInt year))
                 ++ "-12"
      | None =>
          JSString.numberToString
            (option_map (fun y => (y - 1)%Z) (JSString.parseInt year))
            ++ "-12"
      end
  end.

(** A stable sort: [before y x] says that [y] has to come before [x];
    an element is inserted in front of the first one that does not have
    to come before it.  This is what [Array.prototype.sort] yields for a
    consistent comparator, and [ORDER BY] for rows taken in table
    order. *)
Fixpoint insertBy {A} (before : A -> A -> bool) (x : A) (l : list A)
  : list A :=
  match l with
  | [] => [x]
  | y :: l' => if before y x then y :: insertBy before x l' else x :: y :: l'
  end.

Definition sortBy {A} (before : A -> A -> bool) (l : list A) : list A :=
  List.fold_right (insertBy before) [] l.

(** The comparator of [rankings.sort]. *)
Definition compareRankings (a b : t) : Q :=
  if negb (score b =? score a)%Z then inject_Z (score b - score a)
  else if negb (Qeq_bool (win_rate b) (win_rate a))
       then (win_rate b - win_rate a)%Q
       else (avg_return b - avg_return a)%Q.

(** [a] sorts before [b] when the comparator is negative. *)
Definition sortsBefore (a b : t) : bool := JS.gt 0 (compareRankings a b).

(** The streak loop of [calculateRankings] (lines 390-404) over the
    recent settled predictions; the state is [currentStreak], [maxStreak]
    and [tempStreak], and the result is the state when the loop ends or
    breaks. *)
Fixpoint streakLoop (recentRecommends : list Recommend.t)
    (currentStreak maxStreak tempStreak : Z) : Z * Z * Z :=
  match recentRecommends with
  | [] => (currentStreak, maxStreak, tempStreak)
  | rec :: rest =>
      if Recommend.is_success rec then
        let tempStreak := (tempStreak + 1)%Z in
        let currentStreak :=
          if (currentStreak =? 0)%Z then tempStreak else currentStreak in
        streakLoop rest currentStreak maxStreak tempStreak
      else
        let maxStreak := Z.max maxStreak tempStreak in
        let tempStreak := 0%Z in
        if (0 <? currentStreak)%Z
        then (currentStreak, maxStreak, tempStreak)
        else streakLoop rest currentStreak maxStreak tempStreak
  end.

(** [(currentStreak, maxStreak)] after the loop and the final
    [maxStreak = Math.max(maxStreak, tempStreak)]. *)
Definition streaks (recentRecommends : list Recommend.t) : Z * Z :=
  let '(currentStreak, maxStreak, tempStreak) :=
    streakLoop recentRecommends 0 0 0 in
  (currentStreak, Z.max maxStreak tempStreak).

(** The badge given at index [i] of the sorted rows. *)
Definition badgeAt (type : RankingType) (i : Z) : option string :=
  if (i =? 0)%Z then
    Some (match type with
          | weekly => "周冠军"
          | monthly => "月冠军"
          | total => "总冠军"
          end)
  else if (i =? 1)%Z then Some "亚军"
  else if (i =? 2)%Z then Some "季军"
  else if (i <? 10)%Z then Some "前十"
  else None.

(** [previousRankMap[user_id] || null]. *)
Definition previousRankOf (previousRankMap : gmap Z Z) (user_id : Z)
  : option Z :=
  match previousRankMap !! user_id with
  | Some r => if (r =? 0)%Z then None else Some r
  | None => None
  end.

(** The body of the loop that assigns ranks and badges, at index [i]. *)
Definition assignAt (type : RankingType) (previousRankMap : gmap Z Z)
    (i : Z) (r : t) : t :=
  mk (user_id r) (i + 1) (previousRankOf previousRankMap (user_id r))
     (score r) (period_score r) (total_recommends r)
     (success_recommends r) (win_rate r) (avg_return r) (max_return r)
     (current_streak r) (max_streak r) (ranking_type r) (period r)
     (period_start r) (period_end r) (is_active r)
     (badgeAt type i).

(** The loop, from index [i] on. *)
Fixpoint assignRanks (type : RankingType) (previousRankMap : gmap Z Z)
    (i : Z) (rankings : list t) : list t :=
  match rankings with
  | [] => []
  | r :: rest =>
      assignAt type previousRankMap i r
      :: assignRanks type previousRankMap (i + 1) rest
  end.

(** [period || this.getCurrentPeriod(type)]: [period] is [None] when the
    caller gives none; an empty text is falsy as well. *)
Definition orCurrentPeriod (now : Clock) (type : RankingType)
    (period : option string) : string :=
  match period with
  | Some p => if String.eqb p "" then getCurrentPeriod now type else p
  | None => getCurrentPeriod now type
  end.

Definition samePeriod (type : RankingType) (p : string) (r : t) : bool :=
  RankingType_eqb (ranking_type r) type && String.eqb (period r) p.

Section Calculate.

(** [new Date(year, monthIndex, day)] and [new Date(year, monthIndex, day,
    23, 59, 59, 999)], in local time, as instants: the calendar is not
    modelled. *)
Variable newDate : Z -> Z -> Z -> Z.
Variable newDateEnd : Z -> Z -> Z -> Z.

(** Modelled from the spec: the aggregate of [calculateRankings] reads a
    column [current_streak] of each prediction, which the [recommends]
    table as declared in [models/Recommend.js] does not have; the spec
    calls it the author's streak at that point.  The value read for a row
    is this function of the row. *)
Variable current_streak : Recommend.t -> Z.

Definition makeDate (ms : option Z) : Date :=
  match ms with
  | Some n => Instant n
  | None => InvalidDate
  end.

(** [Ranking.getPeriodRange(type, period)]. *)
Definition getPeriodRange (type : RankingType) (period : string)
  : option Date * option Date :=
  match type with
  | total => (None, None)
  | weekly =>
      let pieces := JSString.split "-W" period in
      let year := JSString.parseIntOpt (List.nth_error pieces 0) in
      let week := JSString.parseIntOpt (List.nth_error pieces 1) in
      let startOfYear := option_map (fun y => newDate y 0 1) year in
      let startOfWeek :=
        match startOfYear, week with
        | Some t0, Some w => Some (t0 + (w - 1) * 7 * 24 * 60 * 60 * 1000)%Z
        | _, _ => None
        end in
      let endOfWeek :=
        option_map
          (fun t0 => (t0 + 6 * 24 * 60 * 60 * 1000 + 23 * 60 * 60 * 1000
                      + 59 * 60 * 1000 + 59 * 1000)%Z)
          startOfWeek in
      (Some (makeDate startOfWeek), Some (makeDate endOfWeek))
  | monthly =>
      let pieces := JSString.split "-" period in
      let year := JSString.parseIntOpt (List.nth_error pieces 0) in
      let month := JSString.parseIntOpt (List.nth_error pieces 1) in
      match year, month with
      | Some y, Some m =>
          (Some (Instant (newDate y (m - 1) 1)),
           Some (Instant (newDateEnd y m 0)))
      | _, _ => (Some InvalidDate, Some InvalidDate)
      end
  end.

(** [created_at BETWEEN start AND end]; a comparison with an invalid date
    selects no row. *)
Definition between (x : Z) (start end_ : Date) : bool :=
  match start, end_ with
  | Instant a, Instant b => (a <=? x)%Z && (x <=? b)%Z
  | _, _ => false
  end.

(** The [where] clause [recommendWhere] built for a user. *)
Definition recommendWhere (userId : Z) (start end_ : option Date)
    (r : Recommend.t) : bool :=
  (Recommend.user_id r =? userId)%Z
  && match start, end_ with
     | Some a, Some b => between (Recommend.created_at r) a b
     | _, _ => true
     end.

(** The aggregates of the statistics query over the selected rows.
    [COUNT] is a number; [AVG], [MAX] and [SUM] are [NULL] when no row
    contributes. *)
Definition countAll (rows : list Recommend.t) : Z :=
  Z.of_nat (List.length rows).

Definition countSuccess (rows : list Recommend.t) : Z :=
  Z.of_nat (List.length (List.filter Recommend.is_success rows)).

Definition actualReturns (rows : list Recommend.t) : list Q :=
  List.flat_map
    (fun r => match Recommend.actual_return r with
              | Some x => [x]
              | None => []
              end) rows.

Definition Qsum (xs : list Q) : Q := List.fold_right Qplus 0%Q xs.

Definition avgReturn (rows : list Recommend.t) : option Q :=
  match actualReturns rows with
  | [] => None
  | xs => Some (Qsum xs / inject_Z (Z.of_nat (List.length xs)))%Q
  end.

Definition Qmax (a b : Q) : Q := if Qle_bool a b then b else a.

Definition maxReturn (rows : list Recommend.t) : option Q :=
  match actualReturns rows with
  | [] => None
  | x :: xs => Some (List.fold_left Qmax xs x)
  end.

(** The [CASE] expression summed into [period_score]. *)
Definition scoreCase (r : Recommend.t) : Z :=
  if Recommend.is_success r
  then (10 + (if (3 <=? current_streak r)%Z then 20 else 0)
           + (if (5 <=? current_streak r)%Z then 50 else 0))%Z
  else (-5)%Z.

Definition sumScore (rows : list Recommend.t) : option Z :=
  match rows with
  | [] => None
  | _ => Some (List.fold_right Z.add 0%Z (List.map scoreCase rows))
  end.

(** [parseInt(x) || 0] of an integer aggregate and [parseFloat(x) || 0]
    of a decimal one. *)
Definition intOrZero (x : option Z) : Z :=
  match x with Some n => n | None => 0%Z end.

Definition floatOrZero (x : option Q) : Q :=
  match x with Some q => q | None => 0%Q end.

Definition isSettled (r : Recommend.t) : bool :=
  Recommend.is_success r
  || Recommend.Status_eqb (Recommend.status r) Recommend.failed.

(** [ORDER BY settled_at DESC]: a later settlement comes first, [NULL]
    last. *)
Definition settledAfter (a b : Recommend.t) : bool :=
  match Recommend.settled_at a, Recommend.settled_at b with
  | Some x, Some y => (y <? x)%Z
  | Some _, None => true
  | None, _ => false
  end.

(** The query for the recent settled predictions of a user. *)
Definition recentRecommends (userId : Z) (start end_ : option Date)
    (recommends : list Recommend.t) : list Recommend.t :=
  List.firstn 20
    (sortBy settledAfter
       (List.filter (fun r => recommendWhere userId start end_ r
                              && isSettled r) recommends)).

(** The row pushed for one user by the loop of [calculateRankings]
    (lines 319-422), before ranks are assigned.  [is_active] gets the
    column's default when the row is inserted. *)
Definition userRow (type : RankingType) (currentPeriod : string)
    (start end_ : option Date) (recommends : list Recommend.t)
    (user : User.t) : t :=
  let rows :=
    List.filter (recommendWhere (User.id user) start end_) recommends in
  let totalRecommends := countAll rows in
  let successRecommends := countSuccess rows in
  let winRate :=
    if (0 <? totalRecommends)%Z
    then (inject_Z successRecommends / inject_Z totalRecommends)%Q
    else 0%Q in
  let avgReturn := floatOrZero (avgReturn rows) in
  let maxReturn := floatOrZero (maxReturn rows) in
  let periodScore := intOrZero (sumScore rows) in
  let totalScore :=
    match type with
    | total => User.total_score user
    | _ => periodScore
    end in
  let '(currentStreak, maxStreak) :=
    streaks (recentRecommends (User.id user) start end_ recommends) in
  mk (User.id user) 0 None totalScore periodScore totalRecommends
     successRecommends winRate avgReturn maxReturn currentStreak maxStreak
     type currentPeriod start end_ true None.

(** The map built from the previous period's rows. *)
Definition previousRankMapOf (previousRankings : list t) : gmap Z Z :=
  List.fold_left (fun m r => <[user_id r := rank r]> m) previousRankings ∅.

(** [Ranking.calculateRankings(type, period)]: the rows returned and the
    [rankings] table after the call. *)
Definition calculateRankings (now : Clock) (type : RankingType)
    (period : option string) (users : list User.t)
    (recommends : list Recommend.t) (rankings : list t)
  : list t * list t :=
  let currentPeriod := orCurrentPeriod now type period in
  let '(start, end_) := getPeriodRange type currentPeriod in
  let users := List.filter User.is_active users in
  let rows :=
    List.map (userRow type currentPeriod start end_ recommends) users in
  let sorted := sortBy sortsBefore rows in
  let previousPeriod := getPreviousPeriod type currentPeriod in
  let previousRankings :=
    List.filter (samePeriod type previousPeriod) rankings in
  let previousRankMap := previousRankMapOf previousRankings in
  let ranked := assignRanks type previousRankMap 0 sorted in
  let kept :=
    List.filter (fun r => negb (samePeriod type currentPeriod r)) rankings in
  (ranked, (kept ++ ranked)%list).

End Calculate.

(** The period a reader asks for: the one given, or the current one. *)
Definition periodOrCurrent (now : Clock) (type : RankingType)
    (period : option string) : string :=
  match period with
  | Some p =>
      if String.eqb p "" then
        match type with total => "total" | _ => getCurrentPeriod now type end
      else p
  | None =>
      match type with total => "total" | _ => getCurrentPeriod now type end
  end.

Definition userIsActive (users : list User.t) (userId : Z) : bool :=
  List.existsb (fun u => (User.id u =? userId)%Z && User.is_active u) users.

(** [Ranking.getRankingList(type, period, limit, offset)]: the count and
    the page of [findAndCountAll].  The included user is required, with
    status "active". *)
Definition getRankingList (now : Clock) (type : RankingType)
    (period : option string) (limit offset : nat)
    (rankings : list t) (users : list User.t) : Z * list t :=
  let p := periodOrCurrent now type period in
  let matching :=
    List.filter (fun r => samePeriod type p r && is_active r
                          && userIsActive users (user_id r)) rankings in
  let ordered := sortBy (fun a b => (rank a <? rank b)%Z) matching in
  (Z.of_nat (List.length matching),
   List.firstn limit (List.skipn offset ordered)).

(** [Ranking.getUserRanking(userId, type, period)]: the included user is
    not required. *)
Definition getUserRanking (now : Clock) (userId : Z) (type : RankingType)
    (period : option string) (rankings : list t) : option t :=
  let p := periodOrCurrent now type period in
  List.find (fun r => (user_id r =? userId)%Z && samePeriod type p r
                      && is_active r) rankings.

End Ranking.

(** ** models/Follow.js *)

Module Follow.

(** [status] and [follow_type] ENUMs of the [follows] table. *)
Inductive Status := active | completed | cancelled.
Inductive FollowType := recommend | user.

(** The columns the follow handlers test or set.  The amount, the price
    and the returns are left out: no modelled guard reads them. *)
Record t := mk {
  id : Z;
  user_id : Z;
  recommend_id : option Z;
  target_user_id : option Z;
  follow_type : FollowType;
  status : Status
}.

Definition is_active (f : t) : bool :=
  match status f with active => true | _ => false end.

Definition is_recommend (f : t) : bool :=
  match follow_type f with recommend => true | _ => false end.

(** [recommend_id = k] in a [where] clause. *)
Definition follows_recommend (k : Z) (f : t) : bool :=
  match recommend_id f with
  | Some k' => k' =? k
  | None => false
  end.

Definition set_status (s : Status) (f : t) : t :=
  mk (id f) (user_id f) (recommend_id f) (target_user_id f)
     (follow_type f) s.

End Follow.

(** ** controllers/recommendController.js: the handlers on the tables *)

Module RecommendHandlers.

Import Recommend.

(** The tables the handlers work on. *)
Record Store := mkStore {
  tables : Tables;
  follows : list Follow.t
}.

(** [text || fallback] and [number || fallback] on request fields that
    may be missing: the empty text and [0] are falsy. *)
Definition orString (x : option string) (fallback : string) : string :=
  match x with
  | Some s => if String.eqb s "" then fallback else s
  | None => fallback
  end.

Definition orNumber (x : option Z) (fallback : Z) : Z :=
  match x with
  | Some n => if n =? 0 then fallback else n
  | None => fallback
  end.

(** [recommend.update({reason, confidence})]. *)
Definition set_reason_confidence (reason' : string) (confidence' : Z)
    (this : t) : t :=
  mk (id this) (user_id this) (stock_code this) (predict_change this)
     reason' confidence' (hold_period this) (entry_price this)
     (current_price this) (exit_price this)
     (current_return this) (actual_return this)
     (start_date this) (end_date this) (settled_at this) (status this)
     (follow_count this) (created_at this).

(** [recommend.increment("follow_count")] and
    [recommend.decrement("follow_count")]: the statement
    [UPDATE recommends SET follow_count = follow_count + by WHERE id = k]. *)
Definition add_follow_count (by_ : Z) (this : t) : t :=
  mk (id this) (user_id this) (stock_code this) (predict_change this)
     (reason this) (confidence this) (hold_period this) (entry_price this)
     (current_price this) (exit_price this)
     (current_return this) (actual_return this)
     (start_date this) (end_date this) (settled_at this) (status this)
     (follow_count this + by_) (created_at this).

Definition increment (k by_ : Z) (rows : list t) : list t :=
  List.map (fun r => if id r =? k then add_follow_count by_ r else r) rows.

Section Collation.

(** Equality of two texts in a [where] clause, as the collation of the
    database decides it. *)
Variable sameText : string -> string -> bool.

(** The query for an active prediction of the user on the stock. *)
Definition existingRecommend (userId : Z) (stockCode : string)
    (rows : list t) : option t :=
  List.find (fun r => (user_id r =? userId)
                      && sameText (stock_code r) stockCode
                      && is_active r) rows.

(** [createRecommend] for a request that passed validation: [id] is the
    key the database gives the new row, [reason] the trimmed text,
    [now] is [new Date()] and [endDate] the end of the hold period.  The
    [stocks] table, which the handler also writes, is not modelled. *)
Definition createRecommend (id userId : Z) (stockCode : string)
    (currentPrice predictChange : Q) (reason : string)
    (holdPeriod : HoldPeriod) (confidence : Z) (now endDate : Z)
    (db : Tables) : JS.result t * Tables :=
  match findByPk User.id userId (users db) with
  | None => (JS.Throw (JS.ApiError "用户不存在" 404), db)
  | Some _ =>
      match existingRecommend userId stockCode (recommends db) with
      | Some _ =>
          (JS.Throw
             (JS.ApiError "您已经推荐过这只股票，请等待结算后再次推荐" 400),
           db)
      | None =>
          let recommend :=
            RecommendController.createRecommend id userId stockCode
              currentPrice predictChange reason holdPeriod confidence
              now endDate in
          (JS.Ok recommend,
           mkTables (recommends db ++ [recommend])%list (users db))
      end
  end.

End Collation.

(** [updateRecommend] by user [userId]; [tags] is not modelled. *)
Definition updateRecommend (id userId : Z) (reason : option string)
    (confidence : option Z) (db : Tables) : JS.result t * Tables :=
  match findByPk Recommend.id id (recommends db) with
  | None => (JS.Throw (JS.ApiError "推荐不存在" 404), db)
  | Some recommend =>
      if negb (user_id recommend =? userId)
      then (JS.Throw (JS.ApiError "无权限修改此推荐" 403), db)
      else if negb (is_active recommend)
      then (JS.Throw (JS.ApiError "只能修改活跃状态的推荐" 400), db)
      else
        let recommend' :=
          set_reason_confidence
            (orString reason (Recommend.reason recommend))
            (orNumber confidence (Recommend.confidence recommend))
            recommend in
        (JS.Ok recommend',
         mkTables (save Recommend.id recommend' (recommends db)) (users db))
  end.

(** The query of [followRecommend] for a follow of the user on the
    prediction, whatever its status. *)
Definition existingFollow (userId id : Z) (rows : list Follow.t)
  : option Follow.t :=
  List.find (fun f => (Follow.user_id f =? userId)
                      && Follow.follows_recommend id f
                      && Follow.is_recommend f) rows.

(** [followRecommend] by user [userId]: [followId] is the key the
    database gives the new follow, and [hasStock] says whether the
    prediction's stock row exists; reading the price of a missing one
    throws a [TypeError]. *)
Definition followRecommend (followId id userId : Z) (hasStock : bool)
    (st : Store) : JS.result Follow.t * Store :=
  match findByPk Recommend.id id (recommends (tables st)) with
  | None => (JS.Throw (JS.ApiError "推荐不存在" 404), st)
  | Some recommend =>
      if negb (is_active recommend)
      then (JS.Throw (JS.ApiError "只能跟投活跃状态的推荐" 400), st)
      else if user_id recommend =? userId
      then (JS.Throw (JS.ApiError "不能跟投自己的推荐" 400), st)
      else
        match existingFollow userId id (follows st) with
        | Some _ => (JS.Throw (JS.ApiError "已经跟投过此推荐" 400), st)
        | None =>
            if negb hasStock
            then (JS.Throw
                    (JS.Error
                       "Cannot read properties of null (reading 'current_price')"),
                  st)
            else
              let follow :=
                Follow.mk followId userId (Some id) None Follow.recommend
                  Follow.active in
              (JS.Ok follow,
               mkStore
                 (mkTables (increment id 1 (recommends (tables st)))
                    (users (tables st)))
                 (follows st ++ [follow])%list)
        end
  end.

(** The query of [unfollowRecommend] for the user's active follow. *)
Definition activeFollow (userId id : Z) (rows : list Follow.t)
  : option Follow.t :=
  List.find (fun f => (Follow.user_id f =? userId)
                      && Follow.follows_recommend id f
                      && Follow.is_recommend f
                      && Follow.is_active f) rows.

(** [unfollowRecommend] by user [userId]. *)
Definition unfollowRecommend (id userId : Z) (st : Store)
  : JS.result unit * Store :=
  match activeFollow userId id (follows st) with
  | None => (JS.Throw (JS.ApiError "未找到跟投记录" 404), st)
  | Some follow =>
      let follows' :=
        save Follow.id (Follow.set_status Follow.cancelled follow)
          (follows st) in
      let recommends' :=
        match findByPk Recommend.id id (recommends (tables st)) with
        | Some _ => increment id (-1) (recommends (tables st))
        | None => recommends (tables st)
        end in
      (JS.Ok tt, mkStore (mkTables recommends' (users (tables st))) follows')
  end.

(** A request to one of the handlers. *)
Inductive request :=
| CreateRecommend (id userId : Z) (stockCode : string)
    (currentPrice predictChange : Q) (reason : string)
    (holdPeriod : HoldPeriod) (confidence : Z) (now endDate : Z)
| UpdateRecommend (id userId : Z) (reason : option string)
    (confidence : option Z)
| DeleteRecommend (id userId : Z)
| SettleRecommend (now id : Z) (exitPrice : JS.value)
| FollowRecommend (followId id userId : Z) (hasStock : bool)
| UnfollowRecommend (id userId : Z).

(** The tables after a request; a handler that throws has written
    nothing.  The requests are those whose values the validators of the
    models accept and, for [createRecommend], whose stock row is found or
    created: a request the database refuses leaves the modelled tables as
    they are, like a request that is not made. *)
Definition handle (sameText : string -> string -> bool) (q : request)
    (st : Store) : Store :=
  match q with
  | CreateRecommend id userId stockCode currentPrice predictChange reason
      holdPeriod confidence now endDate =>
      mkStore
        (snd (createRecommend sameText id userId stockCode currentPrice
                predictChange reason holdPeriod confidence now endDate
                (tables st)))
        (follows st)
  | UpdateRecommend id userId reason confidence =>
      mkStore (snd (updateRecommend id userId reason confidence (tables st)))
        (follows st)
  | DeleteRecommend id userId =>
      mkStore (snd (RecommendController.deleteRecommend id userId (tables st)))
        (follows st)
  | SettleRecommend now id exitPrice =>
      mkStore
        (snd (RecommendController.settleRecommend now id exitPrice
                (tables st)))
        (follows st)
  | FollowRecommend followId id userId hasStock =>
      snd (followRecommend followId id userId hasStock st)
  | UnfollowRecommend id userId => snd (unfollowRecommend id userId st)
  end.

Definition handleAll (sameText : string -> string -> bool)
    (qs : list request) (st : Store) : Store :=
  List.fold_left (fun st q => handle sameText q st) qs st.

(** The keys the database hands out for the requests. *)
Definition createdIds (qs : list request) : list Z :=
  List.flat_map
    (fun q => match q with
              | CreateRecommend id _ _ _ _ _ _ _ _ _ => [id]
              | _ => []
              end) qs.

Definition followIds (qs : list request) : list Z :=
  List.flat_map
    (fun q => match q with
              | FollowRecommend followId _ _ _ => [followId]
              | _ => []
              end) qs.

End RecommendHandlers.

(** ** controllers/rankingController.js *)

Module RankingController.

(** The [rank_change] that [Ranking.prototype.toJSON] adds to a row: a
    [previous_rank] of [null] or [0] is falsy. *)
Definition rank_change (r : Ranking.t) : Z :=
  match Ranking.previous_rank r with
  | Some p => if p =? 0 then 0 else p - Ranking.rank r
  | None => 0
  end.

(** The body shared by [getWeeklyRanking], [getMonthlyRanking] and
    [getTotalRanking], for the numbers [page >= 1] and [limit >= 1] that
    the query gives: the rows with their [rank_change], and [total] and
    [pages] of the pagination. *)
Definition rankingPage (now : Ranking.Clock) (type : Ranking.RankingType)
    (period : option string) (page limit : Z)
    (rankings : list Ranking.t) (users : list User.t)
  : list (Ranking.t * Z) * Z * Z :=
  let offset := (page - 1) * limit in
  let '(count, rows) :=
    Ranking.getRankingList now type period (Z.to_nat limit)
      (Z.to_nat offset) rankings users in
  (List.map (fun ranking => (ranking, rank_change ranking)) rows,
   count, JSString.ceilDiv count limit).

Definition getWeeklyRanking (now : Ranking.Clock) (page limit : Z)
    (period : option string) :=
  rankingPage now Ranking.weekly period page limit.

Definition getMonthlyRanking (now : Ranking.Clock) (page limit : Z)
    (period : option string) :=
  rankingPage now Ranking.monthly period page limit.

Definition getTotalRanking (now : Ranking.Clock) (page limit : Z) :=
  rankingPage now Ranking.total (Some "total"%string) page limit.

End RankingController.

(** ** models/Recommend.js: [toJSON] *)

Module RecommendJSON.

(** The two values [Recommend.prototype.toJSON] computes for an active
    prediction; [now] is [new Date()]. *)
Definition remaining_time (now : Z) (this : Recommend.t) : Z :=
  Z.max 0 (Recommend.end_date this - now).

Definition progress (now : Z) (this : Recommend.t) : Q :=
  let now := inject_Z now in
  let endDate := inject_Z (Recommend.end_date this) in
  let startDate := inject_Z (Recommend.start_date this) in
  let x := JS.mul (JS.div (JS.sub now startDate) (JS.sub endDate startDate))
             100 in
  if Qle_bool 100 x then 100%Q else x.

End RecommendJSON.

(** ** middleware/errorMiddleware.js *)

Module ErrorMiddleware.

Local Open Scope string_scope.

(** An error object as the middleware reads it: [name], [message], the
    [statusCode] an [ApiError] carries and, for a Sequelize validation
    error, the messages of [errors]. *)
Record Err := mkErr {
  name : string;
  message : string;
  statusCode : option Z;
  errors : list string
}.

(** The objects [new ApiError(message, statusCode)] and
    [new Error(message)]: [ApiError] extends [Error] and sets no [name],
    so both have the name of [Error.prototype]. *)
Definition ofError (e : JS.error) : Err :=
  match e with
  | JS.ApiError m c => mkErr "Error" m (Some c) []
  | JS.Error m => mkErr "Error" m None []
  end.

(** [Array.prototype.join]. *)
Fixpoint join (sep : string) (l : list string) : string :=
  match l with
  | [] => ""
  | x :: rest =>
      match rest with
      | [] => x
      | _ => x ++ sep ++ join sep rest
      end
  end.

(** The reply [res.status(statusCode).json({code: statusCode, message})];
    the [stack] added to the body in development is left out. *)
Record Response := mkResponse {
  code : Z;
  body_message : string
}.

(** [notFound]: the error passed on and the status set on the
    response. *)
Definition notFound (originalUrl : string) : Err * Z :=
  (mkErr "Error" ("接口不存在 - " ++ originalUrl) None [], 404).

(** [errorHandler(err, req, res, next)]; [resStatusCode] is
    [res.statusCode] when the handler is entered. *)
Definition errorHandler (err : Err) (resStatusCode : Z) : Response :=
  let statusCode := if (resStatusCode =? 200)%Z then 500 else resStatusCode in
  let message := message err in
  let '(statusCode, message) :=
    if String.eqb (name err) "SequelizeValidationError"
    then (400, join ", " (errors err))
    else (statusCode, message) in
  let '(statusCode, message) :=
    if String.eqb (name err) "SequelizeUniqueConstraintError"
    then (400, "数据已存在，请检查输入")
    else (statusCode, message) in
  let '(statusCode, message) :=
    if String.eqb (name err) "JsonWebTokenError"
    then (401, "无效的访问令牌")
    else (statusCode, message) in
  let '(statusCode, message) :=
    if String.eqb (name err) "TokenExpiredError"
    then (401, "访问令牌已过期")
    else (statusCode, message) in
  mkResponse statusCode message.

End ErrorMiddleware.

(** ** middleware/authMiddleware.js *)

Module AuthMiddleware.

Import ErrorMiddleware.

Local Open Scope string_scope.

(** [req.user] as [authenticate] sets it. *)
Record ReqUser := mkReqUser {
  userId : Z;
  openId : string;
  nickname : string;
  level : Z;
  role : string
}.

(** What [jwt.verify(token, secret)] does: it returns the payload, of
    which [userId] and [openId] are read, or throws. *)
Inductive Verified :=
| Decoded (userId : option Z) (openId : string)
| VerifyThrows (err : Err).

(** The token taken from the [authorization] header:
    [authorization.split(" ")[1]] when the header starts with "Bearer". *)
Definition bearerToken (authorization : option string) : option string :=
  match authorization with
  | Some header =>
      if String.prefix "Bearer" header
      then List.nth_error (JSString.split " " header) 1
      else None
  | None => None
  end.

(** [user.role || "user"]: the model of [models/User.js] declares no
    attribute [role], so [user.role] is [undefined] on every instance. *)
Definition roleOf (user : User.t) : string := "user".

(** [authenticate]: the error passed to [next], or the [req.user] set
    before [next()].  [verify] is [jwt.verify] with the server's secret;
    the write of [last_active_at] is to a column that is not modelled. *)
Definition authenticate (verify : string -> Verified)
    (authorization : option string) (users : list User.t)
  : Err + ReqUser :=
  match bearerToken authorization with
  | None => inl (ofError (JS.ApiError "未提供访问令牌" 401))
  | Some token =>
      if String.eqb token ""
      then inl (ofError (JS.ApiError "未提供访问令牌" 401))
      else
        match verify token with
        | VerifyThrows error =>
            if String.eqb (name error) "JsonWebTokenError"
            then inl (ofError (JS.ApiError "无效的访问令牌" 401))
            else if String.eqb (name error) "TokenExpiredError"
            then inl (ofError (JS.ApiError "访问令牌已过期" 401))
            else inl error
        | Decoded decodedUserId decodedOpenId =>
            match
              match decodedUserId with
              | Some k => Recommend.findByPk User.id k users
              | None => None
              end
            with
            | None => inl (ofError (JS.ApiError "用户不存在" 401))
            | Some user =>
                if negb (User.is_active user)
                then inl (ofError (JS.ApiError "用户账户已被禁用" 401))
                else inr (mkReqUser (User.id user) decodedOpenId
                            (User.nickname user) (User.level user)
                            (roleOf user))
            end
        end
  end.

(** [optionalAuth]: the [req.user] set, if any; the middleware passes no
    error on, and an error thrown while the token is checked or the user
    looked up is logged only. *)
Definition optionalAuth (verify : string -> Verified)
    (authorization : option string) (users : list User.t)
  : option ReqUser :=
  match bearerToken authorization with
  | None => None
  | Some token =>
      if String.eqb token "" then None
      else
        match verify token with
        | VerifyThrows tokenError => None
        | Decoded decodedUserId decodedOpenId =>
            match
              match decodedUserId with
              | Some k => Recommend.findByPk User.id k users
              | None => None
              end
            with
            | Some user =>
                if User.is_active user
                then Some (mkReqUser (User.id user) decodedOpenId
                             (User.nickname user) (User.level user)
                             (roleOf user))
                else None
            | None => None
            end
        end
  end.

(** The argument of [authorize]: one role or an array of roles. *)
Inductive Roles := Role (r : string) | RoleList (rs : list string).

Definition allowedRoles (roles : Roles) : list string :=
  match roles with
  | Role r => [r]
  | RoleList rs => rs
  end.

(** [authorize(roles)]: the error passed to [next], if any. *)
Definition authorize (roles : Roles) (user : option ReqUser) : option Err :=
  match user with
  | None => Some (ofError (JS.ApiError "需要登录后访问" 401))
  | Some u =>
      if negb (List.existsb (String.eqb (role u)) (allowedRoles roles))
      then Some (ofError (JS.ApiError "权限不足" 403))
      else None
  end.

(** The key [rateLimit] counts a request under. *)
Definition rateLimitKey (user : option ReqUser) (ip : string) : string :=
  match user with
  | Some u => "user:" ++ JSString.toString (userId u)
  | None => "ip:" ++ ip
  end.

(** One request through the middleware [rateLimit(maxRequests, windowMs)]
    returns: whether it is let through, and the map [requests] after it;
    [now] is [Date.now()].  The array stored under the key is the one the
    accepted request is pushed to. *)
Definition rateLimit (maxRequests windowMs : Z) (key : string) (now : Z)
    (requests : gmap string (list Z)) : bool * gmap string (list Z) :=
  let windowStart := (now - windowMs)%Z in
  let userRequests := default [] (requests !! key) in
  let validRequests :=
    List.filter (fun timestamp => (windowStart <? timestamp)%Z)
      userRequests in
  if (maxRequests <=? Z.of_nat (List.length validRequests))%Z
  then (false, <[key := validRequests]> requests)
  else (true, <[key := (validRequests ++ [now])%list]> requests).

(** A sequence of requests through one limiter, from the map [requests]
    on: the decisions, in order. *)
Fixpoint rateLimitAll (maxRequests windowMs : Z)
    (reqs : list (string * Z)) (requests : gmap string (list Z))
  : list bool :=
  match reqs with
  | [] => []
  | (key, now) :: rest =>
      let '(ok, requests') := rateLimit maxRequests windowMs key now requests in
      ok :: rateLimitAll maxRequests windowMs rest requests'
  end.

End AuthMiddleware.

(** ** routes/stockRoutes.js: the settlement route *)

Module Routes.

Import ErrorMiddleware AuthMiddleware.

Local Open Scope string_scope.

(** [POST /:id/settle] for a request that reaches the router:
    [authenticate], [authorize("admin")], the validators, which only
    record their findings, and [settleRecommend]; an error passed to
    [next] reaches [errorHandler] with the status of the response still
    200.  The result is the reply and the tables after the request. *)
Definition settle (verify : string -> Verified)
    (authorization : option string) (now id : Z) (exitPrice : JS.value)
    (db : Recommend.Tables) : Response * Recommend.Tables :=
  match authenticate verify authorization (Recommend.users db) with
  | inl err => (errorHandler err 200, db)
  | inr user =>
      match authorize (Role "admin") (Some user) with
      | Some err => (errorHandler err 200, db)
      | None =>
          match RecommendController.settleRecommend now id exitPrice db with
          | (JS.Throw e, db') => (errorHandler (ofError e) 200, db')
          | (JS.Ok _, db') => (mkResponse 200 "结算成功", db')
          end
      end
  end.

End Routes.

(** * Vocabulary of the statements *)

Section LifecycleVocabulary.

Import Recommend RecommendController.

(** What a status says about the three settlement columns. *)
Definition settlement_columns (r : t) : Prop :=
  match status r with
  | active | cancelled =>
      exit_price r = None /\ actual_return r = None /\ settled_at r = None
  | success | failed =>
      is_Some (exit_price r) /\ is_Some (actual_return r) /\
      is_Some (settled_at r)
  | expired => False
  end.


End LifecycleVocabulary.

Section RankingVocabulary.

Import Ranking.

(** [a] may stand in front of [b]: [b] does not have to come first. *)
Definition mayPrecede {A} (before : A -> A -> bool) (a b : A) : Prop :=
  before b a = false.

(** The key [(score, win_rate, avg_return)] of [a] is above that of [b]
    in the lexicographic order. *)
Definition keyAbove (a b : t) : Prop :=
  score b < score a \/
  (score a = score b /\
   ((win_rate b < win_rate a)%Q \/
    ((win_rate a == win_rate b)%Q /\ (avg_return b < avg_return a)%Q))).

(** The key of [a] is above or equal to that of [b]. *)
Definition keyAboveOrEqual (a b : t) : Prop :=
  score b < score a \/
  (score a = score b /\
   ((win_rate b < win_rate a)%Q \/
    ((win_rate a == win_rate b)%Q /\ (avg_return b <= avg_return a)%Q))).

(** The rows before ranks are assigned, in the order of the users. *)
Definition unrankedRows (newDate newDateEnd : Z -> Z -> Z -> Z)
    (streakColumn : Recommend.t -> Z) (now : Clock) (type : RankingType)
    (period : option string) (users : list User.t)
    (recommends : list Recommend.t) : list t :=
  let currentPeriod := orCurrentPeriod now type period in
  let range := getPeriodRange newDate newDateEnd type currentPeriod in
  map (userRow streakColumn type currentPeriod (fst range) (snd range)
         recommends)
      (List.filter User.is_active users).

(** The previous period's rows that [calculateRankings] reads. *)
Definition previousRows (now : Clock) (type : RankingType)
    (period : option string) (rankings : list t) : list t :=
  List.filter (samePeriod type
            (getPreviousPeriod type (orCurrentPeriod now type period)))
    rankings.

(** Following the spec's words: the number of successes at the head of
    the outcomes, newest first. *)
Fixpoint leadingSuccesses (l : list Recommend.t) : Z :=
  match l with
  | r :: rest =>
      if Recommend.is_success r then 1 + leadingSuccesses rest else 0
  | [] => 0
  end.

(** The outcomes from the first success on. *)
Fixpoint skipFailures (l : list Recommend.t) : list Recommend.t :=
  match l with
  | r :: rest => if Recommend.is_success r then l else skipFailures rest
  | [] => []
  end.

(** Following the spec's words: the length of the first run of
    consecutive successes met when walking newest to oldest. *)
Definition firstRun (l : list Recommend.t) : Z :=
  leadingSuccesses (skipFailures l).

(** Following the spec's words: the length of the longest run of
    consecutive successes anywhere in the outcomes; [run] is the run
    being read and [best] the longest one closed so far. *)
Fixpoint longestRunFrom (l : list Recommend.t) (run best : Z) : Z :=
  match l with
  | r :: rest =>
      if Recommend.is_success r
      then longestRunFrom rest (run + 1) best
      else longestRunFrom rest 0 (Z.max best run)
  | [] => Z.max best run
  end.

Definition longestRun (l : list Recommend.t) : Z := longestRunFrom l 0 0.

(** Following the spec's words: the period score summed over the settled
    predictions only, a success earning 10 plus the streak bonus and a
    failure costing 5. *)
Definition settledScore (streakColumn : Recommend.t -> Z)
    (rows : list Recommend.t) : Z :=
  fold_right Z.add 0
    (map (scoreCase streakColumn) (List.filter isSettled rows)).

End RankingVocabulary.


(** The value of a decimal numeral read from the left, [acc] being the
    value of the digits already read. *)
Fixpoint horner (d : uint) (acc : Z) : Z :=
  match d with
  | Nil => acc
  | D0 l => horner l (10 * acc)
  | D1 l => horner l (10 * acc + 1)
  | D2 l => horner l (10 * acc + 2)
  | D3 l => horner l (10 * acc + 3)
  | D4 l => horner l (10 * acc + 4)
  | D5 l => horner l (10 * acc + 5)
  | D6 l => horner l (10 * acc + 6)
  | D7 l => horner l (10 * acc + 7)
  | D8 l => horner l (10 * acc + 8)
  | D9 l => horner l (10 * acc + 9)
  end%Z.

(** * Example data *)

(** Days from 1970-01-01 to the civil date [y]-[m]-[d], [m] from 1 to
    12. *)
Definition daysFromCivil (y m d : Z) : Z :=
  let y' := if m <=? 2 then y - 1 else y in
  let era := y' / 400 in
  let yoe := y' - era * 400 in
  let doy := (153 * (if 2 <? m then m - 3 else m + 9) + 2) / 5 + d - 1 in
  let doe := yoe * 365 + yoe / 4 - yoe / 100 + doy in
  era * 146097 + doe - 719468.

(** [new Date(year, monthIndex, day)] for a process whose local time is
    UTC+8 without daylight saving, the zone the database is configured
    with. *)
Definition localDate (year monthIndex day : Z) : Z :=
  let year := if (0 <=? year) && (year <=? 99) then 1900 + year else year in
  let y := year + monthIndex / 12 in
  let m := monthIndex mod 12 + 1 in
  (daysFromCivil y m 1 + (day - 1)) * 86400000 - 8 * 3600000.

(** [new Date(year, monthIndex, day, 23, 59, 59, 999)] in that zone. *)
Definition localDateEnd (year monthIndex day : Z) : Z :=
  localDate year monthIndex day + (23 * 3600 + 59 * 60 + 59) * 1000 + 999.

(** Thursday 2024-02-01: 31 days after the first of January, a Monday. *)
Definition example_clock : Ranking.Clock := Ranking.mkClock 2024 1 31 1.

(** An instant inside the week "2024-W05" of the model
    (2024-01-29 11:46:40 at UTC+8). *)
Definition example_instant : Z := 1706500000000.

Definition new_user (id : Z) : User.t :=
  User.mk id "股票达人" 1 0 0 0 0 0 0 0 User.active.

Definition ten_users : list User.t :=
  map (fun k => new_user (Z.of_nat k)) (seq 1 10).

(** The weekly leaderboard of the examples: week "2024-W05", no
    [current_streak] value above 0. *)
Definition example_weekly (users : list User.t)
    (recommends : list Recommend.t) (rankings : list Ranking.t)
  : list Ranking.t * list Ranking.t :=
  Ranking.calculateRankings localDate localDateEnd (fun _ => 0)
    example_clock Ranking.weekly (Some "2024-W05"%string)
    users recommends rankings.

(** The all-time leaderboard of the examples. *)
Definition example_total (users : list User.t)
    (recommends : list Recommend.t) (rankings : list Ranking.t)
  : list Ranking.t * list Ranking.t :=
  Ranking.calculateRankings localDate localDateEnd (fun _ => 0)
    example_clock Ranking.total (Some "total"%string)
    users recommends rankings.

(** The window of the week "2024-W05" in the examples. *)
Definition example_week : option Ranking.Date * option Ranking.Date :=
  Ranking.getPeriodRange localDate localDateEnd Ranking.weekly "2024-W05".

(** A prediction of user [userId] created at [example_instant]: entry
    price 100, predicted change +5. *)
Definition predict (id userId : Z) : Recommend.t :=
  RecommendController.createRecommend id userId "600519" 100 5
    "long term growth" Recommend.week1 3 example_instant
    (example_instant + 604800000).

(** The prediction of the spec's example: entry price 100, predicted
    change +5. *)
Definition example_prediction : Recommend.t :=
  RecommendController.createRecommend 1 1 "600519" 100 5
    "long term growth" Recommend.week1 3 0 604800000.

(** The example settled at exit price 110: the actual return is +10. *)
Definition example_settled : Recommend.t :=
  Eval vm_compute in
    match Recommend.settleFields 1 (JS.Number 110) example_prediction with
    | JS.Ok this' => this'
    | JS.Throw _ => example_prediction
    end.

(** A prediction whose stock has no price: the refresh job stored [null]
    as its current price. *)
Definition unpriced_prediction : Recommend.t :=
  Eval vm_compute in
  RecommendController.apply (RecommendController.PriceRefresh None)
    example_prediction.

Definition unpriced_tables : Recommend.Tables :=
  Recommend.mkTables [unpriced_prediction] [].

(** The tables after a list of manual settlements [(now, id, exitPrice)],
    errors being dropped as the controller does. *)
Definition settleAll (steps : list (Z * Z * Q)) (db : Recommend.Tables)
  : Recommend.Tables :=
  fold_left
    (fun db '(now, id, exitPrice) =>
       snd (RecommendController.settleRecommend now id (JS.Number exitPrice)
              db))
    steps db.

(** User 1 makes four predictions, one settled up at 110 and then three
    settled down at 90; user 2 makes none. *)
Definition one_win_three_losses : Recommend.Tables :=
  Eval vm_compute in
  settleAll
    [(example_instant + 1000, 1, 110%Q); (example_instant + 2000, 2, 90%Q);
     (example_instant + 3000, 3, 90%Q); (example_instant + 4000, 4, 90%Q)]
    (Recommend.mkTables [predict 1 1; predict 2 1; predict 3 1; predict 4 1]
       [new_user 1; new_user 2]).

(** User 1 has one prediction, created in the week and still active. *)
Definition one_active_prediction : Recommend.Tables :=
  Recommend.mkTables [predict 1 1] [new_user 1].

(** User 1 has three predictions created in the week: the first settled
    down at 90, then two settled up at 110.  Newest first the outcomes
    are success, success, failed. *)
Definition two_wins_after_loss : Recommend.Tables :=
  Eval vm_compute in
  settleAll
    [(example_instant + 1000, 1, 90%Q); (example_instant + 2000, 2, 110%Q);
     (example_instant + 3000, 3, 110%Q)]
    (Recommend.mkTables [predict 1 1; predict 2 1; predict 3 1] [new_user 1]).

(** User 1 has four predictions created in the week, settled in this
    order: up, up, down, up.  Newest first the outcomes are success,
    failed, success, success. *)
Definition win_loss_two_wins : Recommend.Tables :=
  Eval vm_compute in
  settleAll
    [(example_instant + 1000, 1, 110%Q); (example_instant + 2000, 2, 110%Q);
     (example_instant + 3000, 3, 90%Q); (example_instant + 4000, 4, 110%Q)]
    (Recommend.mkTables [predict 1 1; predict 2 1; predict 3 1; predict 4 1]
       [new_user 1]).

(** Users 1 to 3, all active when the snapshot is computed; user 2 is
    banned afterwards. *)
Definition three_users : list User.t := [new_user 1; new_user 2; new_user 3].

Definition three_users_one_banned : list User.t :=
  [new_user 1;
   User.mk 2 "股票达人" 1 0 0 0 0 0 0 0 User.banned;
   new_user 3].

Definition three_user_snapshot : list Ranking.t :=
  snd (example_weekly three_users [] []).

(** * Vocabulary and examples for the handlers and the middleware *)

(** The counters of a user agree with each other. *)
Definition consistentStats (u : User.t) : Prop :=
  User.total_recommends u
  = User.success_recommends u + User.failed_recommends u
  /\ 0 <= User.failed_recommends u
  /\ 0 <= User.current_streak u <= User.max_streak u
  /\ User.max_streak u <= User.success_recommends u
  /\ 0 <= User.current_score u <= User.total_score u
  /\ User.total_score u / 1000 + 1 <= User.level u.

(** [updateStats] for a sequence of outcomes, the first one first. *)
Definition updateStatsAll (outcomes : list bool) (u : User.t) : User.t :=
  List.fold_left (fun u isSuccess => User.updateStats isSuccess u)
    outcomes u.

(** A user no prediction of whom has been settled. *)
Definition noSettled (u : User.t) : Prop :=
  User.total_recommends u = 0 /\ User.success_recommends u = 0
  /\ User.failed_recommends u = 0.

(** The limiter that remembers every accepted request: a request is
    accepted when fewer than [maxRequests] requests of its key were
    accepted less than [windowMs] before it. *)
Definition recentlyAccepted (windowMs : Z) (key : string) (now : Z)
    (history : list (string * Z)) : Z :=
  Z.of_nat (List.length
    (List.filter (fun '(k, t) => String.eqb k key && (now - windowMs <? t))
       history)).

Fixpoint slidingWindow (maxRequests windowMs : Z)
    (reqs : list (string * Z)) (history : list (string * Z)) : list bool :=
  match reqs with
  | [] => []
  | (key, now) :: rest =>
      let ok := recentlyAccepted windowMs key now history <? maxRequests in
      ok :: slidingWindow maxRequests windowMs rest
              (if ok then history ++ [(key, now)] else history)
  end.

(** The accepted instants of a key, and the instants of a list that are
    less than [windowMs] before [c]. *)
Definition timesOf (key : string) (history : list (string * Z)) : list Z :=
  List.map snd (List.filter (fun '(k, _) => String.eqb k key) history).

Definition within (windowMs c : Z) (l : list Z) : list Z :=
  List.filter (fun t => c - windowMs <? t) l.

(** The number of rows a condition selects. *)
Definition countRows {A} (P : A -> bool) (rows : list A) : Z :=
  Z.of_nat (List.length (List.filter P rows)).

(** The conditions counted: an active prediction of a user on a stock, a
    prediction of a user settled with status [s], an active follow of a
    prediction, a follow of a prediction by a user. *)
Definition activeOn (userId : Z) (stockCode : string) (r : Recommend.t)
  : bool :=
  (Recommend.user_id r =? userId)
  && String.eqb (Recommend.stock_code r) stockCode
  && Recommend.is_active r.

Definition settledAs (s : Recommend.Status) (userId : Z) (r : Recommend.t)
  : bool :=
  (Recommend.user_id r =? userId)
  && Recommend.Status_eqb (Recommend.status r) s.

Definition activeFollowOf (k : Z) (f : Follow.t) : bool :=
  Follow.follows_recommend k f && Follow.is_recommend f
  && Follow.is_active f.

Definition followBy (userId k : Z) (f : Follow.t) : bool :=
  (Follow.user_id f =? userId) && Follow.follows_recommend k f
  && Follow.is_recommend f.

(** The tables before any prediction is made. *)
Definition emptyStore (users : list User.t) : RecommendHandlers.Store :=
  RecommendHandlers.mkStore (Recommend.mkTables [] users) [].

Section HandlerVocabulary.

Import Recommend RecommendHandlers.

Variable sameText : string -> string -> bool.

(** What a request can do to the tables. *)
Inductive change (q : request) (st : Store) : Store -> Prop :=
| unchanged : change q st st
| appended id userId stockCode currentPrice predictChange reason holdPeriod
    confidence now endDate :
    q = CreateRecommend id userId stockCode currentPrice predictChange reason
          holdPeriod confidence now endDate ->
    existingRecommend sameText userId stockCode (recommends (tables st))
    = None ->
    change q st
      (mkStore
         (mkTables
            (recommends (tables st)
             ++ [RecommendController.createRecommend id userId stockCode
                   currentPrice predictChange reason holdPeriod confidence
                   now endDate])%list
            (users (tables st)))
         (follows st))
| saved r x users' :
    In r (recommends (tables st)) -> is_active r = true ->
    id x = id r -> user_id x = user_id r -> stock_code x = stock_code r ->
    follow_count x = follow_count r ->
    ((status x = status r \/ status x = cancelled)
     /\ users' = users (tables st)
     \/ (status x = success \/ status x = failed)
        /\ users' = match findByPk User.id (user_id x) (users (tables st)) with
                    | Some a =>
                        save User.id (User.updateStats (is_success x) a)
                          (users (tables st))
                    | None => users (tables st)
                    end) ->
    change q st
      (mkStore (mkTables (save id x (recommends (tables st))) users')
         (follows st))
| followed followId k userId hasStock r :
    q = FollowRecommend followId k userId hasStock ->
    findByPk id k (recommends (tables st)) = Some r ->
    existingFollow userId k (follows st) = None ->
    change q st
      (mkStore
         (mkTables (increment k 1 (recommends (tables st)))
            (users (tables st)))
         (follows st
          ++ [Follow.mk followId userId (Some k) None Follow.recommend
                Follow.active])%list)
| unfollowed k userId f :
    activeFollow userId k (follows st) = Some f ->
    change q st
      (mkStore
         (mkTables
            (match findByPk id k (recommends (tables st)) with
             | Some _ => increment k (-1) (recommends (tables st))
             | None => recommends (tables st)
             end)
            (users (tables st)))
         (save Follow.id (Follow.set_status Follow.cancelled f)
            (follows st))).

(** The tables agree with each other: keys are not repeated, a user has
    at most one active prediction on a stock, [follow_count] is the number
    of active follows, a follow refers to a stored prediction, a user has
    at most one follow of a prediction and, when [fromZero] holds, the
    counters of a user count the settled predictions. *)
Definition consistent (fromZero : Prop) (st : Store) : Prop :=
  let recs := recommends (tables st) in
  let fols := follows st in
  NoDup (List.map id recs)
  /\ NoDup (List.map Follow.id fols)
  /\ (forall u c, countRows (activeOn u c) recs <= 1)
  /\ (forall r, In r recs ->
        follow_count r = countRows (activeFollowOf (id r)) fols)
  /\ (forall f k, In f fols -> Follow.recommend_id f = Some k ->
        In k (List.map id recs))
  /\ (forall u k, countRows (followBy u k) fols <= 1)
  /\ (fromZero -> forall u, In u (users (tables st)) ->
        User.success_recommends u
        = countRows (settledAs success (User.id u)) recs
        /\ User.failed_recommends u
           = countRows (settledAs failed (User.id u)) recs
        /\ User.total_recommends u
           = User.success_recommends u + User.failed_recommends u).

(** The keys handed out for a request are not in the tables. *)
Definition freshKeys (q : request) (st : Store) : Prop :=
  (forall k, In k (createdIds [q]) ->
     ~ In k (List.map id (recommends (tables st))))
  /\ (forall k, In k (followIds [q]) ->
       ~ In k (List.map Follow.id (follows st))).

End HandlerVocabulary.

(** Requests of the examples: user 1 predicts on a stock, is followed by
    users 2 and 3, tries a second prediction on the stock; user 2
    unfollows and tries to follow again; the prediction is settled and
    user 1 predicts again. *)
Definition example_requests : list RecommendHandlers.request :=
  [RecommendHandlers.CreateRecommend 1 1 "600519" 100 5 "long term growth"
     Recommend.week1 3 0 604800000;
   RecommendHandlers.FollowRecommend 1 1 2 true;
   RecommendHandlers.CreateRecommend 2 1 "600519" 100 8 "again"
     Recommend.week1 3 10 604800010;
   RecommendHandlers.FollowRecommend 2 1 3 true;
   RecommendHandlers.UnfollowRecommend 1 2;
   RecommendHandlers.FollowRecommend 3 1 2 true;
   RecommendHandlers.SettleRecommend 20 1 (JS.Number 110);
   RecommendHandlers.CreateRecommend 3 1 "600519" 110 8 "again"
     Recommend.week1 3 30 604800030].

(** Requests to a limiter: four from one address, one from a user. *)
Definition example_limited : list (string * Z) :=
  [("ip:10.0.0.1"%string, 0); ("ip:10.0.0.1"%string, 10);
   ("user:7"%string, 15); ("ip:10.0.0.1"%string, 20);
   ("ip:10.0.0.1"%string, 1500)].

(** A verifier that accepts the token "good" for user 1. *)
Definition example_verify (token : string) : AuthMiddleware.Verified :=
  if String.eqb token "good"
  then AuthMiddleware.Decoded (Some 1) "openid-1"
  else AuthMiddleware.VerifyThrows
         (ErrorMiddleware.mkErr "JsonWebTokenError" "jwt malformed" None []).

(** Sunday 7 January 2024, noon: six whole days after the first of
    January, which was a Monday; and a prediction made at that instant. *)
Definition sunday_clock : Ranking.Clock := Ranking.mkClock 2024 0 6 1.

Definition sunday_prediction : Recommend.t :=
  RecommendController.createRecommend 1 1 "600519" 100 5
    "long term growth" Recommend.week1 3
    (localDate 2024 0 7 + 43200000) (localDate 2024 0 14 + 43200000).

(** A prediction created in the last second of the week "2024-W05" of
    the model, Sunday 2024-02-04 23:59:59 at UTC+8. *)
Definition last_second_prediction : Recommend.t :=
  RecommendController.createRecommend 1 1 "600519" 100 5
    "long term growth" Recommend.week1 3
    (localDate 2024 0 1 + (5 - 1) * 604800000 + 604799000)
    (localDate 2024 0 1 + 5 * 604800000 + 604799000).

(** The row computed for user 1 in the example with two successes after a
    failure, and the tables with one prediction of user 1. *)
Definition streak_rows : list Ranking.t :=
  fst (example_weekly (Recommend.users two_wins_after_loss)
         (Recommend.recommends two_wins_after_loss) []).

Definition streak_row : Ranking.t :=
  Eval vm_compute in
    List.hd (Ranking.userRow (fun _ => 0) Ranking.weekly "2024-W05"
               None None [] (new_user 1))
      streak_rows.

Definition one_prediction : Recommend.Tables :=
  Recommend.mkTables [example_prediction] three_users.

(** * Theorems *)

(** ** Rounding to a double *)

Section Rounding.

Local Open Scope Q_scope.

Lemma pow2_pos (e : Z) : 0 < JS.pow2 e.
Proof. apply Qpower_0_lt. reflexivity. Qed.

Lemma pow2_add (a b : Z) : JS.pow2 (a + b) == JS.pow2 a * JS.pow2 b.
Proof. apply Qpower_plus. discriminate. Qed.

Lemma pow2_le (a b : Z) : (a <= b)%Z -> JS.pow2 a <= JS.pow2 b.
Proof. intros H. apply Qpower_le_compat_l; [exact H|]. discriminate. Qed.

Lemma pow2_lt (a b : Z) : (a < b)%Z -> JS.pow2 a < JS.pow2 b.
Proof. intros H. apply Qpower_lt_compat_l; [exact H|]. reflexivity. Qed.

Lemma pow2_lt_inv (a b : Z) : JS.pow2 a < JS.pow2 b -> (a < b)%Z.
Proof.
  intros H. apply (Qpower_lt_compat_l_inv 2); [exact H|]. reflexivity.
Qed.

Lemma pow2_inject (n : Z) : (0 <= n)%Z -> JS.pow2 n == inject_Z (2 ^ n).
Proof. intros H. unfold JS.pow2. now rewrite Zpower_Qpower. Qed.

Lemma pow2_succ (e : Z) : JS.pow2 (e + 1) == 2 * JS.pow2 e.
Proof. rewrite pow2_add. change (JS.pow2 1) with 2. ring. Qed.

Lemma pow2_sub (a b : Z) : JS.pow2 (a - b) * JS.pow2 b == JS.pow2 a.
Proof. rewrite <- pow2_add. now replace (a - b + b)%Z with a by lia. Qed.

(** The exponent brackets a real that is not zero. *)
Lemma exponent_spec (x : Q) :
  ~ x == 0 ->
  JS.pow2 (JS.exponent x) <= Qabs x < JS.pow2 (JS.exponent x + 1).
Proof.
  intros Hx. unfold JS.exponent.
  set (n := Z.abs (Qnum x)). set (d := Zpos (Qden x)).
  set (a := Z.log2 n). set (b := Z.log2 d).
  assert (Hn : (0 < n)%Z).
  { subst n. destruct x as [[|p|p] q]; cbn; try lia. exfalso. apply Hx.
    reflexivity. }
  assert (Hd : (0 < d)%Z) by (subst d; lia).
  assert (Ha : (2 ^ a <= n < 2 ^ (a + 1))%Z) by apply (Z.log2_spec n Hn).
  assert (Hb : (2 ^ b <= d < 2 ^ (b + 1))%Z) by apply (Z.log2_spec d Hd).
  assert (Ha0 : (0 <= a)%Z) by apply Z.log2_nonneg.
  assert (Hb0 : (0 <= b)%Z) by apply Z.log2_nonneg.
  assert (E : Qabs x == inject_Z n / inject_Z d).
  { destruct x as [xn xd]. subst n d. cbn [Qnum Qden].
    rewrite <- Zabs_Qabs. apply Qmake_Qdiv. }
  assert (Qd : 0 < inject_Z d)
    by (change 0 with (inject_Z 0); rewrite <- Zlt_Qlt; exact Hd).
  assert (Pa : forall k, (0 <= k)%Z -> (0 < 2 ^ k)%Z)
    by (intros; apply Z.pow_pos_nonneg; lia).
  destruct (Qle_bool (JS.pow2 (a - b)) (Qabs x)) eqn:L.
  - apply Qle_bool_iff in L. split; [exact L|].
    rewrite E. apply Qlt_shift_div_r; [exact Qd|].
    apply (Qmult_lt_r _ _ (JS.pow2 b)); [apply pow2_pos|].
    assert (P : JS.pow2 (a - b + 1) * inject_Z d * JS.pow2 b
                == inject_Z (2 ^ (a + 1) * d)).
    { rewrite inject_Z_mult, <- (pow2_inject (a + 1)) by lia.
      rewrite <- (pow2_sub (a + 1) b).
      replace (a + 1 - b)%Z with (a - b + 1)%Z by lia. ring. }
    rewrite P, (pow2_inject b), <- inject_Z_mult, <- Zlt_Qlt by lia.
    pose proof (Pa b Hb0). nia.
  - assert (L' : Qabs x < JS.pow2 (a - b)).
    { apply Qnot_le_lt. intros C. apply Qle_bool_iff in C. congruence. }
    replace (a - b - 1 + 1)%Z with (a - b)%Z by lia. split; [|exact L'].
    rewrite E. apply Qle_shift_div_l; [exact Qd|].
    apply (Qmult_le_r _ _ (JS.pow2 (b + 1))); [apply pow2_pos|].
    assert (P : JS.pow2 (a - b - 1) * inject_Z d * JS.pow2 (b + 1)
                == inject_Z (2 ^ a * d)).
    { rewrite inject_Z_mult, <- (pow2_inject a) by lia.
      rewrite <- (pow2_sub a (b + 1)).
      replace (a - (b + 1))%Z with (a - b - 1)%Z by lia. ring. }
    rewrite P, (pow2_inject (b + 1)), <- inject_Z_mult, <- Zle_Qle by lia.
    pose proof (Pa a Ha0). nia.
Qed.

(** Two brackets of the same real have the same exponent. *)
Lemma exponent_unique (x : Q) (e e' : Z) :
  JS.pow2 e <= x < JS.pow2 (e + 1) ->
  JS.pow2 e' <= x < JS.pow2 (e' + 1) -> e = e'.
Proof.
  intros [H1 H2] [H3 H4].
  assert (e < e' + 1)%Z by (apply pow2_lt_inv; eapply Qle_lt_trans; eauto).
  assert (e' < e + 1)%Z by (apply pow2_lt_inv; eapply Qle_lt_trans; eauto).
  lia.
Qed.

Lemma exponent_comp (x y : Q) :
  ~ x == 0 -> x == y -> JS.exponent x = JS.exponent y.
Proof.
  intros Hx E. assert (Hy : ~ y == 0) by (now rewrite <- E).
  pose proof (exponent_spec x Hx) as Sx.
  pose proof (exponent_spec y Hy) as [S1 S2].
  rewrite <- (Qabs_wd x y E) in S1, S2.
  exact (exponent_unique _ _ _ Sx (conj S1 S2)).
Qed.


(** [roundHalfEven] picks the floor or the next integer. *)
Lemma roundHalfEven_floor (x : Q) :
  (Qfloor x <= JS.roundHalfEven x <= Qfloor x + 1)%Z.
Proof.
  unfold JS.roundHalfEven.
  destruct (x - inject_Z (Qfloor x) ?= 1 # 2); [|lia|lia].
  destruct (Z.even (Qfloor x)); lia.
Qed.

Lemma roundHalfEven_ge (n : Z) (x : Q) :
  inject_Z n <= x -> (n <= JS.roundHalfEven x)%Z.
Proof.
  intros H. pose proof (roundHalfEven_floor x).
  apply Qfloor_resp_le in H. rewrite Qfloor_Z in H. lia.
Qed.

Lemma roundHalfEven_le (n : Z) (x : Q) :
  x <= inject_Z n -> (JS.roundHalfEven x <= n)%Z.
Proof.
  intros H. pose proof (roundHalfEven_floor x) as B.
  pose proof (Qfloor_resp_le _ _ H) as F. rewrite Qfloor_Z in F.
  destruct (Z.eq_dec (Qfloor x) n) as [E|E]; [|lia].
  unfold JS.roundHalfEven. rewrite E.
  destruct (Qcompare_spec (x - inject_Z n) (1 # 2)) as [C|C|C];
    [exfalso; lra | lia | exfalso; lra].
Qed.

Lemma roundHalfEven_Z (n : Z) : JS.roundHalfEven (inject_Z n) = n.
Proof.
  pose proof (roundHalfEven_ge n (inject_Z n) (Qle_refl _)).
  pose proof (roundHalfEven_le n (inject_Z n) (Qle_refl _)). lia.
Qed.

Lemma roundHalfEven_comp (x y : Q) :
  x == y -> JS.roundHalfEven x = JS.roundHalfEven y.
Proof.
  intros E. unfold JS.roundHalfEven. rewrite (Qfloor_comp _ _ E).
  assert (C : (x - inject_Z (Qfloor y) ?= 1 # 2)
              = (y - inject_Z (Qfloor y) ?= 1 # 2)).
  { apply Qcompare_comp; [|reflexivity]. now rewrite E. }
  now rewrite C.
Qed.

Lemma roundHalfEven_mono (x y : Q) :
  x <= y -> (JS.roundHalfEven x <= JS.roundHalfEven y)%Z.
Proof.
  intros H. pose proof (roundHalfEven_floor x) as Bx.
  pose proof (roundHalfEven_floor y) as By.
  pose proof (Qfloor_resp_le _ _ H) as F.
  destruct (Z.eq_dec (Qfloor x) (Qfloor y)) as [E|E]; [|lia].
  unfold JS.roundHalfEven in *. rewrite E in *.
  destruct (Qcompare_spec (x - inject_Z (Qfloor y)) (1 # 2)) as [Cx|Cx|Cx];
  destruct (Qcompare_spec (y - inject_Z (Qfloor y)) (1 # 2)) as [Cy|Cy|Cy];
    try lia; exfalso; lra.
Qed.

Lemma ulp_pos (x : Q) : 0 < JS.ulp x.
Proof. apply pow2_pos. Qed.

Lemma double_0 (x : Q) : x == 0 -> JS.double x = 0.
Proof.
  intros E. unfold JS.double. now rewrite (Qeq_eq_bool _ _ E).
Qed.

Lemma double_eq (x : Q) :
  ~ x == 0 ->
  JS.double x == inject_Z (JS.roundHalfEven (x / JS.ulp x)) * JS.ulp x.
Proof.
  intros H. unfold JS.double.
  destruct (Qeq_bool x 0) eqn:E; [apply Qeq_bool_eq in E; contradiction|].
  apply Qred_correct.
Qed.

Lemma double_comp (x y : Q) : x == y -> JS.double x = JS.double y.
Proof.
  intros E. unfold JS.double. rewrite (Qeqb_comp _ _ E 0 0 (Qeq_refl 0)).
  destruct (Qeq_bool y 0) eqn:Z0; [reflexivity|].
  apply Qeq_bool_neq in Z0. apply Qred_complete. unfold JS.ulp.
  assert (Nx : ~ x == 0) by (now rewrite E).
  rewrite (exponent_comp x y Nx E).
  rewrite (roundHalfEven_comp (x / JS.pow2 (JS.exponent y - 52))
             (y / JS.pow2 (JS.exponent y - 52)));
    [reflexivity | now rewrite E].
Qed.

(** A real measured in its units in the last place lies between [2^52]
    and [2^53]. *)
Lemma scaled_bracket (x : Q) :
  ~ x == 0 ->
  inject_Z (2 ^ 52) <= Qabs x / JS.ulp x < inject_Z (2 ^ 53).
Proof.
  intros H. destruct (exponent_spec x H) as [L U]. unfold JS.ulp.
  pose proof (pow2_pos (JS.exponent x - 52)) as P.
  rewrite <- (pow2_inject 52), <- (pow2_inject 53) by lia. split.
  - apply Qle_shift_div_l; [exact P|]. rewrite <- pow2_add.
    now replace (52 + (JS.exponent x - 52))%Z with (JS.exponent x) by lia.
  - apply Qlt_shift_div_r; [exact P|]. rewrite <- pow2_add.
    now replace (53 + (JS.exponent x - 52))%Z with (JS.exponent x + 1)%Z
      by lia.
Qed.

Lemma ulp_scale (x : Q) (k : Z) :
  (0 <= k)%Z ->
  inject_Z (2 ^ k) * JS.ulp x == JS.pow2 (JS.exponent x + k - 52).
Proof.
  intros H. unfold JS.ulp. rewrite <- pow2_inject, <- pow2_add by exact H.
  now replace (k + (JS.exponent x - 52))%Z with (JS.exponent x + k - 52)%Z
    by lia.
Qed.

(** The double nearest to a positive real lies in the closed binade of
    that real; likewise for a negative real. *)
Lemma double_bracket_pos (x : Q) :
  0 < x ->
  JS.pow2 (JS.exponent x) <= JS.double x <= JS.pow2 (JS.exponent x + 1).
Proof.
  intros H. assert (N : ~ x == 0) by lra.
  rewrite (double_eq x N).
  destruct (scaled_bracket x N) as [L U].
  rewrite (Qabs_pos x) in L, U by lra.
  pose proof (ulp_pos x) as P.
  pose proof (roundHalfEven_ge _ _ L) as G.
  pose proof (roundHalfEven_le _ _ (Qlt_le_weak _ _ U)) as G'.
  rewrite Zle_Qle in G, G'.
  pose proof (ulp_scale x 52 ltac:(lia)) as E1.
  pose proof (ulp_scale x 53 ltac:(lia)) as E2.
  replace (JS.exponent x + 52 - 52)%Z with (JS.exponent x) in E1 by lia.
  replace (JS.exponent x + 53 - 52)%Z with (JS.exponent x + 1)%Z in E2 by lia.
  rewrite <- E1, <- E2. split; apply Qmult_le_compat_r; lra.
Qed.

Lemma double_bracket_neg (x : Q) :
  x < 0 ->
  - JS.pow2 (JS.exponent x + 1) <= JS.double x <= - JS.pow2 (JS.exponent x).
Proof.
  intros H. assert (N : ~ x == 0) by lra.
  rewrite (double_eq x N).
  destruct (scaled_bracket x N) as [L U].
  rewrite (Qabs_neg x) in L, U by lra.
  pose proof (ulp_pos x) as P.
  assert (L' : x / JS.ulp x <= inject_Z (- 2 ^ 52)).
  { rewrite inject_Z_opp. unfold Qdiv in *. lra. }
  assert (U' : inject_Z (- 2 ^ 53) <= x / JS.ulp x).
  { rewrite inject_Z_opp. unfold Qdiv in *. lra. }
  pose proof (roundHalfEven_le _ _ L') as G.
  pose proof (roundHalfEven_ge _ _ U') as G'.
  rewrite Zle_Qle in G, G'. rewrite inject_Z_opp in G, G'.
  pose proof (ulp_scale x 52 ltac:(lia)) as E1.
  pose proof (ulp_scale x 53 ltac:(lia)) as E2.
  replace (JS.exponent x + 52 - 52)%Z with (JS.exponent x) in E1 by lia.
  replace (JS.exponent x + 53 - 52)%Z with (JS.exponent x + 1)%Z in E2 by lia.
  rewrite <- E1, <- E2. split.
  - assert (X : - (inject_Z (2 ^ 53) * JS.ulp x)
                == - inject_Z (2 ^ 53) * JS.ulp x) by ring.
    rewrite X. apply Qmult_le_compat_r; lra.
  - assert (X : - (inject_Z (2 ^ 52) * JS.ulp x)
                == - inject_Z (2 ^ 52) * JS.ulp x) by ring.
    rewrite X. apply Qmult_le_compat_r; lra.
Qed.

(** Rounding keeps the sign. *)
Lemma double_pos (x : Q) : 0 < JS.double x <-> 0 < x.
Proof.
  split; intros H.
  - destruct (Qlt_le_dec 0 x) as [P|P]; [exact P|exfalso].
    destruct (Qeq_dec x 0) as [E|E].
    + rewrite (double_0 x E) in H. lra.
    + assert (x < 0) as N by lra.
      pose proof (double_bracket_neg x N) as [_ B].
      pose proof (pow2_pos (JS.exponent x)). lra.
  - pose proof (double_bracket_pos x H) as [B _].
    pose proof (pow2_pos (JS.exponent x)). lra.
Qed.

Lemma double_neg (x : Q) : JS.double x < 0 <-> x < 0.
Proof.
  split; intros H.
  - destruct (Qlt_le_dec x 0) as [P|P]; [exact P|exfalso].
    destruct (Qeq_dec x 0) as [E|E].
    + rewrite (double_0 x E) in H. lra.
    + assert (0 < x) as N by lra. apply double_pos in N. lra.
  - pose proof (double_bracket_neg x H) as [_ B].
    pose proof (pow2_pos (JS.exponent x)). lra.
Qed.


(** Rounding is monotone. *)
Lemma double_mono_pos (x y : Q) :
  0 < x -> x <= y -> JS.double x <= JS.double y.
Proof.
  intros Hx H. assert (Hy : 0 < y) by lra.
  assert (Nx : ~ x == 0) by lra. assert (Ny : ~ y == 0) by lra.
  destruct (exponent_spec x Nx) as [Lx Ux].
  destruct (exponent_spec y Ny) as [Ly Uy].
  rewrite Qabs_pos in Lx, Ux, Ly, Uy by lra.
  assert (Le : (JS.exponent x < JS.exponent y + 1)%Z)
    by (apply pow2_lt_inv; lra).
  destruct (Z.eq_dec (JS.exponent x) (JS.exponent y)) as [E|E].
  - rewrite (double_eq x Nx), (double_eq y Ny). unfold JS.ulp. rewrite E.
    pose proof (pow2_pos (JS.exponent y - 52)) as P.
    apply Qmult_le_compat_r; [|lra]. rewrite <- Zle_Qle.
    apply roundHalfEven_mono. unfold Qdiv.
    apply Qmult_le_compat_r; [exact H|].
    apply Qlt_le_weak, Qinv_lt_0_compat, P.
  - pose proof (double_bracket_pos x Hx) as [_ Bx].
    pose proof (double_bracket_pos y Hy) as [By _].
    pose proof (pow2_le (JS.exponent x + 1) (JS.exponent y) ltac:(lia)). lra.
Qed.

Lemma double_mono_neg (x y : Q) :
  y < 0 -> x <= y -> JS.double x <= JS.double y.
Proof.
  intros Hy H. assert (Hx : x < 0) by lra.
  assert (Nx : ~ x == 0) by lra. assert (Ny : ~ y == 0) by lra.
  destruct (exponent_spec x Nx) as [Lx Ux].
  destruct (exponent_spec y Ny) as [Ly Uy].
  rewrite Qabs_neg in Lx, Ux, Ly, Uy by lra.
  assert (Le : (JS.exponent y < JS.exponent x + 1)%Z)
    by (apply pow2_lt_inv; lra).
  destruct (Z.eq_dec (JS.exponent x) (JS.exponent y)) as [E|E].
  - rewrite (double_eq x Nx), (double_eq y Ny). unfold JS.ulp. rewrite E.
    pose proof (pow2_pos (JS.exponent y - 52)) as P.
    apply Qmult_le_compat_r; [|lra]. rewrite <- Zle_Qle.
    apply roundHalfEven_mono. unfold Qdiv.
    apply Qmult_le_compat_r; [exact H|].
    apply Qlt_le_weak, Qinv_lt_0_compat, P.
  - pose proof (double_bracket_neg x Hx) as [_ Bx].
    pose proof (double_bracket_neg y Hy) as [By _].
    pose proof (pow2_le (JS.exponent y + 1) (JS.exponent x) ltac:(lia)). lra.
Qed.

Lemma double_mono (x y : Q) : x <= y -> JS.double x <= JS.double y.
Proof.
  intros H.
  destruct (Q_dec x 0) as [[Nx|Px]|Zx].
  - destruct (Q_dec y 0) as [[Ny|Py]|Zy].
    + now apply double_mono_neg.
    + apply double_neg in Nx. apply double_pos in Py. lra.
    + apply double_neg in Nx. rewrite (double_0 y Zy). lra.
  - now apply double_mono_pos.
  - rewrite (double_0 x Zx).
    destruct (Q_dec y 0) as [[Ny|Py]|Zy]; [lra| |].
    + apply double_pos in Py. lra.
    + rewrite (double_0 y Zy). lra.
Qed.


(** A real that is a whole number of its units in the last place is a
    double. *)
Lemma double_exact (x : Q) (m : Z) :
  ~ x == 0 -> x == inject_Z m * JS.ulp x -> JS.double x == x.
Proof.
  intros N E. rewrite (double_eq x N).
  pose proof (ulp_pos x) as P.
  assert (S : x / JS.ulp x == inject_Z m).
  { rewrite E at 1. field. lra. }
  rewrite (roundHalfEven_comp _ _ S), roundHalfEven_Z. now rewrite <- E.
Qed.

(** The integers below [2^53] are doubles. *)
Lemma double_inject_Z (n : Z) :
  (Z.abs n < 2 ^ 53)%Z -> JS.double (inject_Z n) == inject_Z n.
Proof.
  intros B. destruct (Z.eq_dec n 0%Z) as [->|Hn]; [reflexivity|].
  assert (N : ~ inject_Z n == 0).
  { intros E. apply Hn. change 0 with (inject_Z 0) in E.
    exact (proj1 (inject_Z_injective _ _) E). }
  destruct (exponent_spec _ N) as [L _].
  assert (A : Qabs (inject_Z n) == inject_Z (Z.abs n)).
  { unfold inject_Z. now rewrite <- Zabs_Qabs. }
  assert (Le : (JS.exponent (inject_Z n) < 53)%Z).
  { apply pow2_lt_inv. rewrite (pow2_inject 53) by lia.
    eapply Qle_lt_trans; [exact L|]. rewrite A, <- Zlt_Qlt. exact B. }
  apply (double_exact _ (n * 2 ^ (52 - JS.exponent (inject_Z n))) N).
  rewrite inject_Z_mult, <- pow2_inject by lia. unfold JS.ulp.
  rewrite <- Qmult_assoc, <- pow2_add.
  replace (52 - JS.exponent (inject_Z n) + (JS.exponent (inject_Z n) - 52))%Z
    with 0%Z by lia.
  change (JS.pow2 0) with 1. ring.
Qed.

End Rounding.

(** ** The stats update *)

(** C4: the stats update applied on settlement.  On success the success
    count, the current streak and the total count grow by one, the max
    streak is the maximum of its old value and the new streak, and total
    and spendable score both grow by 10, plus 20 when the new streak is at
    least 3, plus 50 when it is at least 5.  On failure the failed count
    and the total count grow by one, the streak is reset to 0, the
    spendable score is [max 0 (spendable - 5)] and the total score is
    unchanged.  In both cases the level becomes [floor (totalScore / 1000)
    + 1] when that exceeds the current level, and never decreases. *)
Theorem updateStats_spec (u : User.t) :
  let s := User.updateStats true u in
  let f := User.updateStats false u in
  let bonus (streak : Z) :=
    10 + (if Z_le_dec 3 streak then 20 else 0)
       + (if Z_le_dec 5 streak then 50 else 0) in
  (User.success_recommends s = User.success_recommends u + 1 /\
   User.current_streak s = User.current_streak u + 1 /\
   User.total_recommends s = User.total_recommends u + 1 /\
   User.max_streak s = Z.max (User.max_streak u) (User.current_streak u + 1) /\
   User.total_score s
     = User.total_score u + bonus (User.current_streak u + 1) /\
   User.current_score s
     = User.current_score u + bonus (User.current_streak u + 1) /\
   User.failed_recommends s = User.failed_recommends u) /\
  (User.failed_recommends f = User.failed_recommends u + 1 /\
   User.total_recommends f = User.total_recommends u + 1 /\
   User.current_streak f = 0 /\
   User.current_score f = Z.max 0 (User.current_score u - 5) /\
   User.total_score f = User.total_score u /\
   User.success_recommends f = User.success_recommends u /\
   User.max_streak f = User.max_streak u) /\
  (forall b : bool,
     let r := User.updateStats b u in
     User.level r = Z.max (User.level u) (User.total_score r / 1000 + 1) /\
     User.level u <= User.level r /\
     User.id r = User.id u /\ User.status r = User.status u).
Proof.
  cbv zeta. unfold User.updateStats, User.checkLevel, User.scoreGain.
  split; [|split].
  - cbn.
    match goal with
    | |- context [if ?a <? ?b then _ else _] => destruct (Z.ltb_spec a b)
    end; cbn;
    destruct (Z.leb_spec 3 (User.current_streak u + 1));
    destruct (Z.leb_spec 5 (User.current_streak u + 1));
    destruct (Z_le_dec 3 (User.current_streak u + 1));
    destruct (Z_le_dec 5 (User.current_streak u + 1));
    try lia; repeat split; lia.
  - cbn. destruct (Z.ltb_spec (User.level u) (User.total_score u / 1000 + 1));
      cbn; repeat split; lia.
  - intros [|]; cbn;
    match goal with
    | |- context [if ?a <? ?b then _ else _] =>
        destruct (Z.ltb_spec a b); cbn; repeat split; lia
    end.
Qed.

(** ** Settlement of one prediction *)

Section Settlement.

Import Recommend.

(** A truthy price is written to a DECIMAL column as a value. *)
Lemma truthy_decimal (v : JS.value) :
  JS.truthy v = true -> exists price, JS.decimal v = Some price.
Proof. destruct v as [|x|x]; cbn; [discriminate|eauto|eauto]. Qed.


Lemma gt_spec (a b : Q) : JS.gt a b = true <-> (b < a)%Q.
Proof.
  unfold JS.gt. rewrite negb_true_iff. split.
  - intros H. apply Qnot_le_lt. intros L. apply Qle_bool_iff in L. congruence.
  - intros H. destruct (Qle_bool a b) eqn:E; [|reflexivity].
    apply Qle_bool_iff in E. exfalso. apply (Qlt_not_le _ _ H E).
Qed.

Lemma ge_spec (a b : Q) : JS.ge a b = true <-> (b <= a)%Q.
Proof. unfold JS.ge. apply Qle_bool_iff. Qed.

Lemma ge_false (a b : Q) : JS.ge a b = false <-> (a < b)%Q.
Proof.
  unfold JS.ge. split.
  - intros H. apply Qnot_le_lt. intros L. apply Qle_bool_iff in L. congruence.
  - intros H. destruct (Qle_bool b a) eqn:E; [|reflexivity].
    apply Qle_bool_iff in E. exfalso. apply (Qlt_not_le _ _ H E).
Qed.

(** A DECIMAL column read as a number has the sign of the column, so
    its direction is the direction of the column. *)
Lemma direction_double (x : Q) : direction (JS.double x) = direction x.
Proof.
  unfold direction.
  destruct (JS.gt (JS.double x) 0) eqn:A, (JS.gt x 0) eqn:B;
    try reflexivity; exfalso.
  - apply (proj1 (gt_spec _ _)), (proj1 (double_pos x)) in A.
    apply (proj2 (gt_spec x 0)) in A. congruence.
  - apply (proj1 (gt_spec _ _)), (proj2 (double_pos x)) in B.
    apply (proj2 (gt_spec (JS.double x) 0)) in B. congruence.
Qed.

(** The outcome in terms of the two directions and of the accuracy
    score. *)
Lemma outcome_spec (predict actual : Q) :
  (direction predict = direction actual ->
     ((50 <= accuracyScore predict actual)%Q ->
        outcome predict actual = success) /\
     ((accuracyScore predict actual < 50)%Q ->
        outcome predict actual = failed)) /\
  (direction predict <> direction actual -> outcome predict actual = failed).
Proof.
  unfold outcome. cbn [JS.toNumber]. rewrite direction_double.
  generalize (accuracyScore predict actual). intros score.
  destruct (direction predict), (direction actual); cbn;
    (split; [intros Hd; try discriminate Hd
            |intros H; congruence || reflexivity]).
  all: split; intros H.
  all: destruct (JS.ge score 80) eqn:E80;
       destruct (JS.ge score 50) eqn:E50;
       try reflexivity;
       repeat match goal with
       | E : JS.ge _ _ = true |- _ => apply ge_spec in E
       | E : JS.ge _ _ = false |- _ => apply ge_false in E
       end; exfalso; lra.
Qed.

Lemma Direction_eq_dec (a b : Direction) : a = b \/ a <> b.
Proof. destruct a, b; (now left) || (right; discriminate). Qed.

Lemma outcome_success (predict actual : Q) :
  outcome predict actual = success <->
  direction predict = direction actual /\
  (50 <= accuracyScore predict actual)%Q.
Proof.
  destruct (outcome_spec predict actual) as [Hsame Hdiff]. split.
  - intros S. destruct (Direction_eq_dec (direction predict) (direction actual))
      as [D|D].
    + split; [exact D|]. destruct (Hsame D) as [_ Hfar].
      apply Qnot_lt_le. intros L. apply Hfar in L. congruence.
    + apply Hdiff in D. congruence.
  - intros [D L]. now apply Hsame.
Qed.

Lemma settleFields_Ok (now : Z) (exitPrice : JS.value) (this this' : t) :
  settleFields now exitPrice this = JS.Ok this' ->
  exists finalPrice price,
    JS.or exitPrice (JS.column (current_price this)) = finalPrice /\
    JS.decimal finalPrice = Some price /\
    this' = mk (id this) (user_id this) (stock_code this)
               (predict_change this) (reason this) (confidence this)
               (hold_period this) (entry_price this)
               (current_price this) (Some price)
               (current_return this)
               (Some (returnOf (entry_price this) finalPrice))
               (start_date this) (end_date this) (Some now)
               (outcome (predict_change this)
                  (returnOf (entry_price this) finalPrice))
               (follow_count this) (created_at this).
Proof.
  unfold settleFields.
  destruct (JS.truthy (JS.or exitPrice (JS.column (current_price this))))
    eqn:T; cbn [negb]; [|discriminate].
  destruct (truthy_decimal _ T) as [price E]. rewrite E.
  intros H. inversion H. eauto.
Qed.


End Settlement.




(** The score is the one the doubles give.  With entry price 100,
    predicted change +5 and exit price 155 the return
    [(155 - 100) / 100 * 100] is 55.00000000000001, which is
    [55 + 2^-47], the score 49.99999999999999, and the status "failed",
    although 55 and 5 differ by 50. *)
Lemma settle_rounds_as_the_doubles :
  exists this',
    Recommend.settleFields 1 (JS.Number 155) example_prediction
      = JS.Ok this' /\
    Recommend.actual_return this'
      = Some (7740561859543041 # 140737488355328)%Q /\
    (Recommend.accuracyScore (Recommend.predict_change example_prediction)
       (7740561859543041 # 140737488355328)
     == 50 - (1 # 140737488355328))%Q /\
    Recommend.status this' = Recommend.failed.
Proof.
  eexists. split; [vm_compute; reflexivity|].
  split; [reflexivity|]. split; [vm_compute; reflexivity|reflexivity].
Qed.

(** ** The manual settlement on the tables *)




(** An override of zero given as a text is used: [settleRecommend] does
    not throw and stores the exit price 0, with the return -100. *)
Lemma settleRecommend_zero_text_settles :
  exists r',
    fst (RecommendController.settleRecommend 1 1 (JS.Text 0) unpriced_tables)
      = JS.Ok r' /\
    Recommend.exit_price r' = Some 0%Q /\
    Recommend.actual_return r' = Some (-100)%Q /\
    Recommend.status r' = Recommend.failed.
Proof.
  eexists. split; [vm_compute; reflexivity|].
  split; [reflexivity|]. split; reflexivity.
Qed.

(** ** The life of one prediction *)

Section Lifecycle.

Import Recommend RecommendController.

Lemma outcome_settled (predict actual : Q) :
  outcome predict actual = success \/ outcome predict actual = failed.
Proof.
  unfold outcome.
  destruct (Direction_eqb _ _); [|now right].
  destruct (JS.ge _ 80); [now left|].
  destruct (JS.ge _ 50); [now left|now right].
Qed.

Lemma settleFields_columns (now : Z) (exitPrice : JS.value) (r r' : t) :
  settleFields now exitPrice r = JS.Ok r' ->
  settlement_columns r' /\ is_active r' = false.
Proof.
  intros H.
  destruct (settleFields_Ok _ _ _ _ H) as (finalPrice & price & _ & _ & ->).
  unfold settlement_columns, is_active. cbn.
  destruct (outcome_settled (predict_change r)
              (returnOf (entry_price r) finalPrice)) as [-> | ->]; cbn; eauto.
Qed.

Lemma apply_columns (e : event) (r : t) :
  settlement_columns r -> settlement_columns (apply e r).
Proof.
  intros I. destruct e as [p|p|now x|now|now|]; cbn.
  - destruct (is_active r) eqn:A; [|exact I].
    unfold is_active in A. unfold settlement_columns in *. cbn.
    destruct (status r); try discriminate. exact I.
  - exact I.
  - destruct (is_active r); cbn; [|exact I].
    destruct (settleFields now x r) eqn:S; [|exact I].
    now apply settleFields_columns in S.
  - destruct (is_active r && (end_date r <=? now)); [|exact I].
    destruct (settleFields now JS.Null r) eqn:S; [|exact I].
    now apply settleFields_columns in S.
  - destruct (is_active r && (end_date r <? now)); [|exact I].
    destruct (settleFields now JS.Null r) eqn:S; [|exact I].
    apply settleFields_columns in S. destruct S as [S ->]. exact S.
  - destruct (is_active r) eqn:A; cbn; [|exact I].
    unfold is_active in A. unfold settlement_columns in *. cbn.
    destruct (status r); try discriminate. exact I.
Qed.

(** On a prediction that is not active an event leaves the status and
    the three settlement columns alone; [UpdateCurrentReturn] writes the
    current price and the current return, every other event nothing. *)
Lemma apply_not_active (e : event) (r : t) :
  status r <> active ->
  status (apply e r) = status r /\
  exit_price (apply e r) = exit_price r /\
  actual_return (apply e r) = actual_return r /\
  settled_at (apply e r) = settled_at r /\
  ((forall p, e <> UpdateCurrentReturn p) -> apply e r = r).
Proof.
  intros N. assert (A : is_active r = false).
  { unfold is_active. destruct (status r); try reflexivity. congruence. }
  destruct e; cbn; rewrite ?A; repeat split; try reflexivity.
  intros H. now destruct (H currentPrice).
Qed.

(** The events are what the functions on the tables do to the row. *)
Lemma findByPk_save {A} (key : A -> Z) (k : Z) (x x' : A) (rows : list A) :
  findByPk key k rows = Some x -> key x' = key x ->
  findByPk key k (save key x' rows) = Some x'.
Proof.
  unfold findByPk, save. intros F K.
  assert (Kx : key x = k).
  { apply find_some in F as [_ F]. now apply Z.eqb_eq in F. }
  induction rows as [|a rows IH]; [discriminate|].
  cbn [find map] in *. destruct (Z.eqb_spec (key a) k) as [E|E].
  - inversion F; subst a.
    replace (key x =? key x') with true
      by (symmetry; apply Z.eqb_eq; congruence).
    replace (key x' =? k) with true by (symmetry; apply Z.eqb_eq; congruence).
    reflexivity.
  - replace (key a =? key x') with false
      by (symmetry; apply Z.eqb_neq; congruence).
    replace (key a =? k) with false by (symmetry; now apply Z.eqb_neq).
    now apply IH.
Qed.

Lemma settleFields_id (now : Z) (exitPrice : JS.value) (r r' : t) :
  settleFields now exitPrice r = JS.Ok r' -> id r' = id r.
Proof.
  intros H.
  now destruct (settleFields_Ok _ _ _ _ H)
    as (finalPrice & price & _ & _ & ->).
Qed.

Lemma settle_row (now : Z) (exitPrice : JS.value) (r : t) (db : Tables) :
  findByPk id (id r) (recommends db) = Some r ->
  let r' := match settleFields now exitPrice r with
            | JS.Ok r' => r'
            | JS.Throw _ => r
            end in
  findByPk id (id r) (recommends (snd (settle now exitPrice r db))) = Some r'.
Proof.
  intros F. cbv zeta. unfold settle.
  destruct (settleFields now exitPrice r) as [r'|e] eqn:S; [|exact F].
  apply settleFields_id in S.
  assert (R : findByPk id (id r) (save id r' (recommends db)) = Some r').
  { now apply (findByPk_save id (id r) r r'). }
  cbn [snd recommends users].
  destruct (findByPk User.id (user_id r') (users db)); exact R.
Qed.

Lemma settleRecommend_row (now k : Z) (exitPrice : JS.value) (r : t)
    (db : Tables) :
  findByPk id k (recommends db) = Some r ->
  findByPk id k
    (recommends (snd (settleRecommend now k exitPrice db)))
  = Some (apply (Settle now exitPrice) r).
Proof.
  intros F. unfold settleRecommend. rewrite F. cbn [apply].
  assert (K : id r = k).
  { apply find_some in F as [_ F]. now apply Z.eqb_eq in F. }
  destruct (is_active r); cbn [negb]; [|exact F].
  subst k. now apply settle_row.
Qed.

Lemma deleteRecommend_row (k : Z) (r : t) (db : Tables) :
  findByPk id k (recommends db) = Some r ->
  findByPk id k (recommends (snd (deleteRecommend k (user_id r) db)))
  = Some (apply Cancel r).
Proof.
  intros F. unfold deleteRecommend. rewrite F, Z.eqb_refl. cbn [apply negb].
  destruct (is_active r); cbn [negb]; [|exact F].
  cbn. now apply (findByPk_save id k r).
Qed.

Lemma checkExpired_row (now : Z) (r : t) (db : Tables) :
  match fst (checkExpired now r db) with
  | JS.Ok r' => r' = apply (CheckExpired now) r
  | JS.Throw _ => apply (CheckExpired now) r = r
  end.
Proof.
  unfold checkExpired, settle. cbn [apply].
  destruct (is_active r && (end_date r <? now)); [|reflexivity].
  destruct (settleFields now JS.Null r) as [r'|e]; [|reflexivity].
  cbn. destruct (is_active r'); reflexivity.
Qed.

Lemma run_columns (es : list event) (r : t) :
  settlement_columns r -> settlement_columns (run es r).
Proof.
  revert r. induction es as [|e es IH]; intros r I; cbn; [exact I|].
  apply IH, apply_columns, I.
Qed.

End Lifecycle.

(** C7 (as amended): for every prediction reached from its creation by
    any sequence of price refreshes, settlements, expiry checks and
    cancellations: an active prediction has exit price, actual return and
    settlement time all null; a prediction with status "success" or
    "failed" has all three set; a cancelled prediction keeps all three
    null, so the three are null exactly when the status is "active" or
    "cancelled"; the status is never "expired"; and once the status is
    not "active" none of these operations changes the status or any of
    the three. *)
Theorem reachable_settlement_columns
    (id userId : Z) (stockCode : string) (currentPrice predictChange : Q)
    (reason : string) (holdPeriod : Recommend.HoldPeriod)
    (confidence now endDate : Z) (es : list RecommendController.event) :
  let r := RecommendController.run es
             (RecommendController.createRecommend id userId stockCode
                currentPrice predictChange reason holdPeriod confidence
                now endDate) in
  ((Recommend.exit_price r = None /\ Recommend.actual_return r = None /\
    Recommend.settled_at r = None) <->
   (Recommend.status r = Recommend.active \/
    Recommend.status r = Recommend.cancelled)) /\
  ((is_Some (Recommend.exit_price r) /\ is_Some (Recommend.actual_return r) /\
    is_Some (Recommend.settled_at r)) <->
   (Recommend.status r = Recommend.success \/
    Recommend.status r = Recommend.failed)) /\
  Recommend.status r <> Recommend.expired /\
  (forall e : RecommendController.event,
     Recommend.status r <> Recommend.active ->
     let r' := RecommendController.apply e r in
     Recommend.status r' = Recommend.status r /\
     Recommend.exit_price r' = Recommend.exit_price r /\
     Recommend.actual_return r' = Recommend.actual_return r /\
     Recommend.settled_at r' = Recommend.settled_at r).
Proof.
  cbv zeta.
  set (r := RecommendController.run es _).
  assert (I : settlement_columns r).
  { apply run_columns. unfold settlement_columns. cbn. auto. }
  unfold settlement_columns in I.
  split; [|split; [|split]].
  - destruct (Recommend.status r); split; auto; try tauto.
    all: try (intros [E|E]; discriminate E).
    all: intros [E _]; destruct I as [[x I] _]; congruence.
  - destruct (Recommend.status r); split; auto; try tauto.
    all: try (intros [E|E]; discriminate E).
    all: intros [[x E] _]; destruct I as [I _]; congruence.
  - destruct (Recommend.status r); try discriminate. contradiction.
  - intros e N. cbv zeta.
    destruct (apply_not_active e r N) as [H1 [H2 [H3 [H4 _]]]]. auto.
Qed.

(** C7 as stated fails: a prediction that is created and then cancelled
    has a status other than "active" while its exit price, actual return
    and settlement time are all still null. *)
Lemma cancelled_columns_null :
  let r := RecommendController.run [RecommendController.Cancel]
             example_prediction in
  Recommend.status r = Recommend.cancelled /\
  Recommend.exit_price r = None /\ Recommend.actual_return r = None /\
  Recommend.settled_at r = None /\
  ~ (Recommend.status r = Recommend.active <->
     (Recommend.exit_price r = None /\ Recommend.actual_return r = None /\
      Recommend.settled_at r = None)).
Proof.
  cbv zeta. repeat (split; [reflexivity|]).
  intros [_ H]. discriminate H. repeat split.
Qed.

(** ** The stable sort *)

Section SortBy.

Context {A : Type} (before : A -> A -> bool).

Hypothesis before_asym : forall a b, before a b = true -> before b a = false.
Hypothesis mayPrecede_trans :
  forall a b c,
    mayPrecede before a b -> mayPrecede before b c -> mayPrecede before a c.

Lemma insertBy_Permutation (x : A) (l : list A) :
  Permutation (Ranking.insertBy before x l) (x :: l).
Proof.
  induction l as [|y l IH]; cbn; [reflexivity|].
  destruct (before y x); [|reflexivity].
  rewrite IH. apply perm_swap.
Qed.

Lemma sortBy_Permutation (l : list A) :
  Permutation (Ranking.sortBy before l) l.
Proof.
  induction l as [|x l IH]; cbn; [reflexivity|].
  rewrite insertBy_Permutation. now apply perm_skip.
Qed.

Lemma sortBy_length (l : list A) :
  length (Ranking.sortBy before l) = length l.
Proof. apply Permutation_length, sortBy_Permutation. Qed.

Lemma insertBy_sorted (x : A) (l : list A) :
  StronglySorted (mayPrecede before) l ->
  StronglySorted (mayPrecede before) (Ranking.insertBy before x l).
Proof.
  induction l as [|y l IH]; intros S; cbn.
  - repeat constructor.
  - apply StronglySorted_cons in S as [Hy S].
    destruct (before y x) eqn:E.
    + apply StronglySorted_cons. split; [|now apply IH].
      rewrite insertBy_Permutation.
      constructor; [|exact Hy]. now apply before_asym.
    + apply StronglySorted_cons. split.
      * constructor; [exact E|].
        eapply Forall_impl; [exact Hy|]. intros z Hz.
        now apply (mayPrecede_trans x y z).
      * apply StronglySorted_cons. now split.
Qed.

Lemma sortBy_sorted (l : list A) :
  StronglySorted (mayPrecede before) (Ranking.sortBy before l).
Proof.
  induction l as [|x l IH]; cbn; [constructor|].
  now apply insertBy_sorted.
Qed.

End SortBy.

Lemma StronglySorted_lookup {A} (R : A -> A -> Prop) (l : list A)
    (i j : nat) (a b : A) :
  StronglySorted R l -> (i < j)%nat ->
  l !! i = Some a -> l !! j = Some b -> R a b.
Proof.
  intros S. revert i j. induction S as [|x l S IH Hx]; intros i j Hij Ha Hb.
  - discriminate.
  - destruct j as [|j]; [lia|]. cbn in Hb. destruct i as [|i]; cbn in Ha.
    + inversion Ha; subst. rewrite Forall_forall in Hx. apply Hx.
      eapply list_elem_of_lookup_2. exact Hb.
    + apply (IH i j); [lia|assumption|assumption].
Qed.

(** ** The order of the leaderboard *)

Section RankingOrder.

Import Ranking.

Lemma sortsBefore_spec (a b : t) : sortsBefore a b = true <-> keyAbove a b.
Proof.
  unfold sortsBefore, compareRankings, keyAbove.
  rewrite gt_spec.
  destruct (Z.eqb_spec (score b) (score a)) as [E|E]; cbn.
  - destruct (Qeq_bool (win_rate b) (win_rate a)) eqn:W; cbn.
    + apply Qeq_bool_iff in W. split.
      * intros H. right. split; [congruence|]. right. split; [lra|lra].
      * intros [H|[_ [H|[_ H]]]]; [lia|lra|lra].
    + assert (N : ~ (win_rate b == win_rate a)%Q).
      { intros H. apply Qeq_bool_iff in H. congruence. }
      split.
      * intros H. right. split; [congruence|]. left. lra.
      * intros [H|[_ [H|[H _]]]]; [lia|lra|]. exfalso. apply N. lra.
  - rewrite <- (Zlt_Qlt _ 0). split.
    + intros H. left. lia.
    + intros [H|[H _]]; lia.
Qed.

Lemma mayPrecede_spec (a b : t) :
  mayPrecede sortsBefore a b <-> keyAboveOrEqual a b.
Proof.
  unfold mayPrecede. rewrite <- not_true_iff_false, sortsBefore_spec.
  unfold keyAbove, keyAboveOrEqual. split.
  - intros N. destruct (Z.lt_total (score a) (score b)) as [H|[H|H]].
    + exfalso. apply N. now left.
    + right. split; [exact H|].
      destruct (Q_dec (win_rate a) (win_rate b)) as [[W|W]|W].
      * exfalso. apply N. right. split; [congruence|]. now left.
      * now left.
      * right. split; [exact W|]. apply Qnot_lt_le. intros L.
        apply N. right. split; [congruence|]. right. split; [lra|exact L].
    + now left.
  - intros [H|[H [W|[W R]]]] [H'|[H' [W'|[W' R']]]]; try lia; lra.
Qed.

Lemma sortsBefore_asym (a b : t) :
  sortsBefore a b = true -> sortsBefore b a = false.
Proof.
  rewrite <- not_true_iff_false, !sortsBefore_spec. unfold keyAbove.
  intros [H|[H [W|[W R]]]] [H'|[H' [W'|[W' R']]]]; try lia; lra.
Qed.

Lemma mayPrecede_sortsBefore_trans (a b c : t) :
  mayPrecede sortsBefore a b -> mayPrecede sortsBefore b c ->
  mayPrecede sortsBefore a c.
Proof.
  rewrite !mayPrecede_spec. unfold keyAboveOrEqual.
  intros [H|[H [W|[W R]]]] [H'|[H' [W'|[W' R']]]];
    try (left; lia); right; (split; [lia|]);
    try (left; lra); right; split; lra.
Qed.

Lemma assignRanks_length type m i (l : list t) :
  length (assignRanks type m i l) = length l.
Proof.
  revert i. induction l as [|r l IH]; intros i; cbn; [reflexivity|].
  now rewrite IH.
Qed.

Lemma assignRanks_lookup type m i (l : list t) (k : nat) :
  assignRanks type m i l !! k
  = assignAt type m (i + Z.of_nat k) <$> l !! k.
Proof.
  revert i k. induction l as [|r l IH]; intros i k; cbn.
  - now destruct k.
  - destruct k as [|k]; cbn.
    + now rewrite Z.add_0_r.
    + rewrite IH.
      now replace (i + 1 + Z.of_nat k)
        with (i + Z.pos (Pos.of_succ_nat k)) by lia.
Qed.

Lemma assignRanks_user_ids type m i (l : list t) :
  map user_id (assignRanks type m i l) = map user_id l.
Proof.
  revert i. induction l as [|r l IH]; intros i; cbn; [reflexivity|].
  now rewrite IH.
Qed.

End RankingOrder.

(** ** The rows computed by [calculateRankings] *)

Section Rows.

Import Ranking.

Variable newDate newDateEnd : Z -> Z -> Z -> Z.
Variable streakColumn : Recommend.t -> Z.

Lemma calculateRankings_fst now type period users recommends rankings :
  fst (calculateRankings newDate newDateEnd streakColumn now type period
         users recommends rankings)
  = assignRanks type (previousRankMapOf (previousRows now type period rankings))
      0 (sortBy sortsBefore
           (unrankedRows newDate newDateEnd streakColumn now type period
              users recommends)).
Proof.
  unfold calculateRankings, unrankedRows, previousRows.
  destruct (getPeriodRange _ _ _ _) as [start end_]. cbn. reflexivity.
Qed.

Lemma calculateRankings_snd now type period users recommends rankings :
  snd (calculateRankings newDate newDateEnd streakColumn now type period
         users recommends rankings)
  = List.filter
      (fun r => negb (samePeriod type (orCurrentPeriod now type period) r))
      rankings
    ++ fst (calculateRankings newDate newDateEnd streakColumn now type period
              users recommends rankings).
Proof.
  unfold calculateRankings.
  destruct (getPeriodRange _ _ _ _) as [start end_]. cbn. reflexivity.
Qed.

Lemma userRow_fields type currentPeriod start end_ recommends user :
  let r := userRow streakColumn type currentPeriod start end_ recommends user in
  user_id r = User.id user /\
  ranking_type r = type /\ period r = currentPeriod /\
  is_active r = true /\
  period_score r
    = intOrZero (sumScore streakColumn
                   (List.filter (recommendWhere (User.id user) start end_)
                      recommends)) /\
  score r = match type with
            | total => User.total_score user
            | _ => period_score r
            end /\
  (current_streak r, max_streak r)
    = streaks (recentRecommends (User.id user) start end_ recommends).
Proof.
  cbv zeta. unfold userRow.
  destruct (streaks _) as [c m]. cbn. repeat split; reflexivity.
Qed.

Lemma calculateRankings_lookup now type period users recommends rankings
    (k : nat) (r : t) :
  fst (calculateRankings newDate newDateEnd streakColumn now type period
         users recommends rankings) !! k = Some r ->
  exists r0,
    sortBy sortsBefore
      (unrankedRows newDate newDateEnd streakColumn now type period users
         recommends) !! k
      = Some r0 /\
    r = assignAt type
          (previousRankMapOf (previousRows now type period rankings))
          (Z.of_nat k) r0.
Proof.
  rewrite calculateRankings_fst, assignRanks_lookup. cbn.
  destruct (_ !! k) as [r0|]; cbn; [|discriminate].
  intros H. inversion H. exists r0. split; reflexivity.
Qed.

Lemma assignRanks_ranks type m i (l : list t) :
  map rank (assignRanks type m i l)
  = map (fun k => i + Z.of_nat k) (seq 1 (length l)).
Proof.
  revert i. induction l as [|r l IH]; intros i; cbn; [reflexivity|].
  f_equal. rewrite IH, <- (seq_shift (length l) 1), map_map.
  apply map_ext. intros k. lia.
Qed.

Lemma unrankedRows_user_ids now type period users recommends :
  map user_id
    (unrankedRows newDate newDateEnd streakColumn now type period users
       recommends)
  = map User.id (List.filter User.is_active users).
Proof.
  unfold unrankedRows. rewrite map_map. apply map_ext. intros u.
  apply userRow_fields.
Qed.

End Rows.

(** ** Ranks, order and badges *)

(** C9 (as amended): in the rows produced by [calculateRankings], rank 1
    carries the champion badge of the ranking type, rank 2 the runner-up
    badge, rank 3 the third-place badge, ranks 4 through 10 the "top-ten"
    badge, and every row with rank 11 or greater carries no badge. *)
Theorem calculateRankings_badges
    (newDate newDateEnd : Z -> Z -> Z -> Z) (streakColumn : Recommend.t -> Z)
    (now : Ranking.Clock) (type : Ranking.RankingType)
    (period : option string) (users : list User.t)
    (recommends : list Recommend.t) (rankings : list Ranking.t)
    (r : Ranking.t) :
  In r (fst (Ranking.calculateRankings newDate newDateEnd streakColumn now
               type period users recommends rankings)) ->
  1 <= Ranking.rank r /\
  (Ranking.rank r = 1 ->
   Ranking.badge r = Some (match type with
                           | Ranking.weekly => "周冠军"
                           | Ranking.monthly => "月冠军"
                           | Ranking.total => "总冠军"
                           end)%string) /\
  (Ranking.rank r = 2 -> Ranking.badge r = Some "亚军"%string) /\
  (Ranking.rank r = 3 -> Ranking.badge r = Some "季军"%string) /\
  (4 <= Ranking.rank r <= 10 -> Ranking.badge r = Some "前十"%string) /\
  (11 <= Ranking.rank r -> Ranking.badge r = None).
Proof.
  intros H. apply list_elem_of_In, list_elem_of_lookup in H as [k H].
  apply calculateRankings_lookup in H as [r0 [_ ->]].
  unfold Ranking.assignAt, Ranking.badgeAt. cbn.
  split; [lia|].
  destruct (Z.eqb_spec (Z.of_nat k) 0) as [E0|E0];
    [repeat split; intros; (reflexivity || lia)|].
  destruct (Z.eqb_spec (Z.of_nat k) 1) as [E1|E1];
    [repeat split; intros; (reflexivity || lia)|].
  destruct (Z.eqb_spec (Z.of_nat k) 2) as [E2|E2];
    [repeat split; intros; (reflexivity || lia)|].
  destruct (Z.ltb_spec (Z.of_nat k) 10) as [E3|E3];
    repeat split; intros; (reflexivity || lia).
Qed.

Lemma calculateRankings_badges_witness :
  exists r,
    In r (fst (example_weekly ten_users [] [])) /\
    Ranking.rank r = 4 /\ Ranking.badge r = Some "前十"%string.
Proof.
  eexists. split; [|split].
  - do 3 right. left. reflexivity.
  - reflexivity.
  - refine (proj1 (proj2 (proj2 (proj2 (proj2
             (calculateRankings_badges localDate localDateEnd (fun _ => 0)
                example_clock Ranking.weekly (Some "2024-W05"%string)
                ten_users [] [] _ _))))) _).
    + do 3 right. left. reflexivity.
    + vm_compute. split; discriminate.
Defined.

(** C9 as stated fails at rank 10: with ten active users the tenth row
    carries the "top-ten" badge, where the claim gives it none. *)
Lemma tenth_rank_has_badge :
  exists r,
    fst (example_weekly ten_users [] []) !! 9%nat = Some r /\
    Ranking.rank r = 10 /\
    Ranking.badge r = Some "前十"%string /\
    Ranking.badge r <> None.
Proof.
  eexists. split; [reflexivity|]. split; [reflexivity|].
  split; [reflexivity|discriminate].
Qed.

(** C5 (as amended): the rows of a completed [calculateRankings] call
    are one per active user, also for a user without predictions; their
    ranks are exactly 1..N in row order, N being the number of active
    users; and the rows are in descending order of the row's [score],
    ties broken by win rate and then by average return, so that a row
    whose key is above another's has the smaller rank.  The [score] is
    the period score for "weekly" and "monthly", and the user's live
    total score for "total". *)
Theorem calculateRankings_ranks_and_order
    (newDate newDateEnd : Z -> Z -> Z -> Z) (streakColumn : Recommend.t -> Z)
    (now : Ranking.Clock) (type : Ranking.RankingType)
    (period : option string) (users : list User.t)
    (recommends : list Recommend.t) (rankings : list Ranking.t) :
  let rows := fst (Ranking.calculateRankings newDate newDateEnd streakColumn
                     now type period users recommends rankings) in
  let activeUsers := List.filter User.is_active users in
  map Ranking.rank rows = map Z.of_nat (seq 1 (length activeUsers)) /\
  Permutation (map Ranking.user_id rows) (map User.id activeUsers) /\
  (forall (i j : nat) (a b : Ranking.t),
     (i < j)%nat -> rows !! i = Some a -> rows !! j = Some b ->
     keyAboveOrEqual a b) /\
  (forall a b : Ranking.t,
     In a rows -> In b rows -> keyAbove a b ->
     Ranking.rank a < Ranking.rank b) /\
  (forall a : Ranking.t,
     In a rows ->
     exists u, In u activeUsers /\ User.id u = Ranking.user_id a /\
       Ranking.score a = match type with
                         | Ranking.total => User.total_score u
                         | _ => Ranking.period_score a
                         end).
Proof.
  cbv zeta.
  pose proof (sortBy_sorted Ranking.sortsBefore sortsBefore_asym
                mayPrecede_sortsBefore_trans
                (unrankedRows newDate newDateEnd streakColumn now type period
                   users recommends)) as Sorted.
  assert (Order : forall (i j : nat) (a b : Ranking.t),
     (i < j)%nat ->
     fst (Ranking.calculateRankings newDate newDateEnd streakColumn now type
            period users recommends rankings) !! i = Some a ->
     fst (Ranking.calculateRankings newDate newDateEnd streakColumn now type
            period users recommends rankings) !! j = Some b ->
     keyAboveOrEqual a b /\ Ranking.rank a < Ranking.rank b).
  { intros i j a b Hij Ha Hb.
    apply calculateRankings_lookup in Ha as [a0 [Ha ->]].
    apply calculateRankings_lookup in Hb as [b0 [Hb ->]].
    split; [|cbn; lia].
    pose proof (StronglySorted_lookup _ _ i j a0 b0 Sorted Hij Ha Hb) as R.
    apply mayPrecede_spec in R. exact R. }
  split; [|split; [|split; [|split]]].
  - rewrite calculateRankings_fst, assignRanks_ranks, sortBy_length.
    unfold unrankedRows. rewrite length_map. apply map_ext. intros k. lia.
  - rewrite calculateRankings_fst, assignRanks_user_ids.
    rewrite (Permutation_map Ranking.user_id (sortBy_Permutation _ _)).
    now rewrite unrankedRows_user_ids.
  - intros i j a b Hij Ha Hb. now apply (Order i j a b).
  - intros a b Ha Hb K.
    apply list_elem_of_In, list_elem_of_lookup in Ha as [i Ha].
    apply list_elem_of_In, list_elem_of_lookup in Hb as [j Hb].
    destruct (lt_eq_lt_dec i j) as [[L|E]|L].
    + now apply (Order i j a b).
    + subst j. rewrite Ha in Hb. inversion Hb; subst b.
      apply sortsBefore_spec in K.
      pose proof (sortsBefore_asym _ _ K). congruence.
    + destruct (Order j i b a L Hb Ha) as [G _].
      apply mayPrecede_spec in G. apply sortsBefore_spec in K.
      unfold mayPrecede in G. congruence.
  - intros a Ha.
    apply list_elem_of_In, list_elem_of_lookup in Ha as [i Ha].
    apply calculateRankings_lookup in Ha as [a0 [Ha ->]].
    apply list_elem_of_lookup_2, list_elem_of_In in Ha.
    apply (Permutation_in _ (sortBy_Permutation _ _)) in Ha.
    unfold unrankedRows in Ha. apply in_map_iff in Ha as [u [<- Hu]].
    exists u. split; [exact Hu|].
    pose proof (userRow_fields streakColumn type
                  (Ranking.orCurrentPeriod now type period)
                  (fst (Ranking.getPeriodRange newDate newDateEnd type
                          (Ranking.orCurrentPeriod now type period)))
                  (snd (Ranking.getPeriodRange newDate newDateEnd type
                          (Ranking.orCurrentPeriod now type period)))
                  recommends u) as F.
    cbv zeta in F. destruct F as [F1 [_ [_ [_ [_ [F6 _]]]]]].
    cbn. split; [now rewrite F1|]. exact F6.
Qed.

(** C5 as stated fails for "total": user 1 has one success and three
    failures, so a live total score of 10 and a summed period score of
    -5; user 2 has no prediction.  User 1 is ranked first by score, and
    the period scores along the ranks are -5, then 0. *)
Lemma total_not_ordered_by_period_score :
  let rows := fst (example_total (Recommend.users one_win_three_losses)
                     (Recommend.recommends one_win_three_losses) []) in
  exists a b,
    rows = [a; b] /\
    Ranking.rank a = 1 /\ Ranking.rank b = 2 /\
    Ranking.score a = 10 /\ Ranking.score b = 0 /\
    Ranking.period_score a = -5 /\ Ranking.period_score b = 0 /\
    ~ (Ranking.period_score b <= Ranking.period_score a).
Proof.
  cbv zeta. eexists. eexists. split; [vm_compute; reflexivity|].
  repeat (split; [reflexivity|]). cbn. lia.
Qed.

(** ** The previous period *)

Section PreviousPeriod.

Local Open Scope string_scope.

Lemma append_cons (c : ascii) (s t : string) :
  String c s ++ t = String c (s ++ t).
Proof. reflexivity. Qed.

Lemma append_nil_l (s : string) : "" ++ s = s.
Proof. reflexivity. Qed.

Lemma append_nil_r (s : string) : s ++ "" = s.
Proof.
  induction s as [|c s IH]; [reflexivity|].
  now rewrite append_cons, IH.
Qed.

Lemma append_assoc (a b c : string) : (a ++ b) ++ c = a ++ (b ++ c).
Proof.
  induction a as [|x a IH]; [reflexivity|].
  now rewrite !append_cons, IH.
Qed.



Section SplitFacts.

Variable sep : string.



End SplitFacts.

Lemma horner_of_uint_acc (d : uint) (acc : positive) :
  horner d (Z.pos acc) = Z.pos (Pos.of_uint_acc d acc).
Proof.
  revert acc. induction d; intros acc; cbn [horner Pos.of_uint_acc];
    try reflexivity;
    match goal with
    | |- horner _ ?z = Z.pos (_ _ ?p) =>
        replace z with (Z.pos p) by lia; apply IHd
    end.
Qed.

Lemma horner_of_uint (d : uint) : horner d 0 = Z.of_N (Pos.of_uint d).
Proof.
  induction d; cbn [horner Pos.of_uint]; try reflexivity; try exact IHd;
    match goal with
    | |- horner _ ?z = Z.of_N (N.pos (_ _ ?p)) =>
        change z with (Z.pos p); apply horner_of_uint_acc
    end.
Qed.

Lemma horner_to_uint (p : positive) : horner (Pos.to_uint p) 0 = Z.pos p.
Proof. now rewrite horner_of_uint, Unsigned.of_to. Qed.

Lemma readDigits_numeral (d : uint) (acc : Z) :
  JSString.readDigits 10 (NilEmpty.string_of_uint d) (Some acc)
  = Some (horner d acc).
Proof.
  revert acc. induction d; intros acc;
    cbn [NilEmpty.string_of_uint JSString.readDigits horner];
    try reflexivity;
    match goal with
    | |- context [JSString.digitValue 10 ?c] =>
        let v := eval vm_compute in (JSString.digitValue 10 c) in
        change (JSString.digitValue 10 c) with v
    end; cbv iota beta; rewrite IHd; f_equal; f_equal; lia.
Qed.

Lemma skipWhiteSpace_numeral (d : uint) :
  JSString.skipWhiteSpace (NilEmpty.string_of_uint d)
  = NilEmpty.string_of_uint d.
Proof. destruct d; reflexivity. Qed.

Lemma stripSign_numeral (d : uint) :
  JSString.stripSign (NilEmpty.string_of_uint d)
  = (false, NilEmpty.string_of_uint d).
Proof. destruct d; reflexivity. Qed.

Lemma stripPrefix_numeral (d : uint) :
  JSString.stripPrefix (NilEmpty.string_of_uint d)
  = (10%Z, NilEmpty.string_of_uint d).
Proof.
  destruct d as [|l|l|l|l|l|l|l|l|l|l]; try reflexivity.
  destruct l; reflexivity.
Qed.

Lemma readDigits_numeral_start (d : uint) :
  d <> Nil ->
  JSString.readDigits 10 (NilEmpty.string_of_uint d) None = Some (horner d 0).
Proof.
  intros N. destruct d; [congruence|..];
    cbn [NilEmpty.string_of_uint JSString.readDigits horner];
    match goal with
    | |- context [JSString.digitValue 10 ?c] =>
        let v := eval vm_compute in (JSString.digitValue 10 c) in
        change (JSString.digitValue 10 c) with v
    end; cbv iota beta; apply readDigits_numeral.
Qed.

Lemma parseInt_numeral (d : uint) :
  d <> Nil ->
  JSString.parseInt (NilEmpty.string_of_uint d) = Some (horner d 0).
Proof.
  intros N. unfold JSString.parseInt.
  rewrite skipWhiteSpace_numeral, stripSign_numeral, stripPrefix_numeral.
  now rewrite readDigits_numeral_start.
Qed.

Section NumeralsAndSeparators.

(** A separator that starts with a minus sign. *)
Variable sepTail : string.
Let sep := String "-" sepTail.

Lemma split_numeral_app (d : uint) (rest piece : string) :
  JSString.split_from sep (NilEmpty.string_of_uint d ++ rest) 0 piece
  = JSString.split_from sep rest 0 (piece ++ NilEmpty.string_of_uint d).
Proof.
  revert piece. induction d; intros piece; cbn [NilEmpty.string_of_uint];
    [now rewrite append_nil_l, append_nil_r|..];
    rewrite append_cons; cbn [JSString.split_from];
    (replace (String.prefix sep _) with false by reflexivity);
    rewrite IHd, append_assoc; reflexivity.
Qed.

Lemma split_numeral (d : uint) (piece : string) :
  JSString.split_from sep (NilEmpty.string_of_uint d) 0 piece
  = [piece ++ NilEmpty.string_of_uint d].
Proof.
  rewrite <- (append_nil_r (NilEmpty.string_of_uint d)) at 1.
  now rewrite split_numeral_app.
Qed.

End NumeralsAndSeparators.

Lemma toString_pos (p : positive) :
  JSString.toString (Z.pos p) = NilEmpty.string_of_uint (Pos.to_uint p).
Proof.
  unfold JSString.toString. cbn [Z.to_int NilZero.string_of_int].
  unfold NilZero.string_of_uint.
  pose proof (Unsigned.to_uint_nonnil p).
  destruct (Pos.to_uint p); [congruence|reflexivity..].
Qed.


(** A padded positive number is a numeral that reads back as the
    number. *)
Lemma padStart2_toString (k : Z) :
  (1 <= k)%Z ->
  exists d, d <> Nil /\
    JSString.padStart2 (JSString.toString k) = NilEmpty.string_of_uint d /\
    horner d 0 = k.
Proof.
  intros H. destruct k as [|p|p]; try lia.
  rewrite toString_pos.
  pose proof (Unsigned.to_uint_nonnil p) as N.
  pose proof (horner_to_uint p) as V.
  destruct (Pos.to_uint p) as [|l|l|l|l|l|l|l|l|l|l] eqn:E; [congruence|..].
  all: destruct l as [|l|l|l|l|l|l|l|l|l|l];
       [ eexists (D0 _); split; [discriminate|]; split; [reflexivity|exact V]
       | eexists; split; [|split; [reflexivity|exact V]]; discriminate .. ].
Qed.

Lemma prefix_append (s t : string) : String.prefix s (s ++ t) = true.
Proof.
  induction s as [|c s IH]; [now destruct t|].
  rewrite append_cons. cbn [String.prefix].
  destruct (ascii_dec c c); [exact IH|congruence].
Qed.

Lemma split_from_match (sep : string) (c : ascii) (s piece : string) :
  String.prefix sep (String c s) = true ->
  JSString.split_from sep (String c s) 0 piece
  = piece :: JSString.split_from sep s (Nat.pred (String.length sep)) "".
Proof. intros H. cbn [JSString.split_from]. now rewrite H. Qed.

Lemma split_from_skip (sep : string) (c : ascii) (s piece : string) (k : nat) :
  JSString.split_from sep (String c s) (S k) piece
  = JSString.split_from sep s k piece.
Proof. reflexivity. Qed.

(** The pieces of a text that starts with the separator ["-W"], after a
    piece [y] already read. *)
Lemma split_week_separator (y s : string) :
  JSString.split_from "-W" (String "-" (String "W" s)) 0 y
  = y :: JSString.split_from "-W" s 0 "".
Proof.
  rewrite split_from_match by apply (prefix_append "-W" s).
  reflexivity.
Qed.

Lemma split_month_separator (y s : string) :
  JSString.split_from "-" (String "-" s) 0 y
  = y :: JSString.split_from "-" s 0 "".
Proof.
  now rewrite split_from_match by apply (prefix_append "-" s).
Qed.









End PreviousPeriod.

(** ** The previous rank and the second run *)

Section PreviousRank.

Import Ranking.


Lemma filter_filter_disjoint {A} (f g : A -> bool) (l : list A) :
  (forall x, f x = true -> g x = false) ->
  List.filter f (List.filter (fun x => negb (g x)) l) = List.filter f l.
Proof.
  intros H. induction l as [|x l IH]; cbn; [reflexivity|].
  destruct (g x) eqn:G; cbn.
  - destruct (f x) eqn:F; [|exact IH].
    apply H in F. congruence.
  - destruct (f x); [f_equal|]; exact IH.
Qed.

Lemma filter_none {A} (f : A -> bool) (l : list A) :
  (forall x, In x l -> f x = false) -> List.filter f l = [].
Proof.
  intros H. induction l as [|x l IH]; cbn; [reflexivity|].
  rewrite (H x) by now left. apply IH. intros y Hy. apply H. now right.
Qed.

Lemma filter_all {A} (f : A -> bool) (l : list A) :
  (forall x, In x l -> f x = true) -> List.filter f l = l.
Proof.
  intros H. induction l as [|x l IH]; cbn; [reflexivity|].
  rewrite (H x) by now left. f_equal. apply IH. intros y Hy. apply H. now right.
Qed.

Lemma samePeriod_spec type p (r : t) :
  samePeriod type p r = true <-> ranking_type r = type /\ period r = p.
Proof.
  unfold samePeriod. rewrite andb_true_iff, String.eqb_eq.
  destruct (ranking_type r), type; cbn; intuition congruence.
Qed.

Variable newDate newDateEnd : Z -> Z -> Z -> Z.
Variable streakColumn : Recommend.t -> Z.

(** Every computed row belongs to the period being computed. *)
Lemma calculateRankings_samePeriod now type period users recommends rankings r :
  In r (fst (calculateRankings newDate newDateEnd streakColumn now type
               period users recommends rankings)) ->
  samePeriod type (orCurrentPeriod now type period) r = true.
Proof.
  intros H. apply list_elem_of_In, list_elem_of_lookup in H as [k H].
  apply calculateRankings_lookup in H as [r0 [H ->]].
  apply list_elem_of_lookup_2, list_elem_of_In in H.
  apply (Permutation_in _ (sortBy_Permutation _ _)) in H.
  unfold unrankedRows in H. apply in_map_iff in H as [u [<- _]].
  apply samePeriod_spec. cbn.
  pose proof (userRow_fields streakColumn type
                (orCurrentPeriod now type period)
                (fst (getPeriodRange newDate newDateEnd type
                        (orCurrentPeriod now type period)))
                (snd (getPeriodRange newDate newDateEnd type
                        (orCurrentPeriod now type period)))
                recommends u) as F.
  cbv zeta in F. tauto.
Qed.


(** The table after a run, read for the period that was computed, holds
    the computed rows. *)
Lemma calculateRankings_this_period now type period users recommends rankings :
  List.filter (samePeriod type (orCurrentPeriod now type period))
    (snd (calculateRankings newDate newDateEnd streakColumn now type period
            users recommends rankings))
  = fst (calculateRankings newDate newDateEnd streakColumn now type period
           users recommends rankings).
Proof.
  rewrite calculateRankings_snd, List.filter_app.
  rewrite (filter_none _ (List.filter _ rankings)).
  - apply filter_all. intros r. apply calculateRankings_samePeriod.
  - intros r Hr. apply filter_In in Hr as [_ Hr].
    now apply negb_true_iff in Hr.
Qed.


End PreviousRank.




(** ** Reading a stored snapshot *)

Lemma userIsActive_spec (users : list User.t) (userId : Z) :
  Ranking.userIsActive users userId = true <->
  exists u, In u users /\ User.id u = userId /\ User.status u = User.active.
Proof.
  unfold Ranking.userIsActive. rewrite existsb_exists. split.
  - intros [u [Hu H]]. apply andb_true_iff in H as [H1 H2].
    exists u. split; [exact Hu|]. split; [now apply Z.eqb_eq|].
    unfold User.is_active in H2. now destruct (User.status u).
  - intros [u [Hu [H1 H2]]]. exists u. split; [exact Hu|].
    apply andb_true_iff. split; [now apply Z.eqb_eq|].
    unfold User.is_active. now rewrite H2.
Qed.

Lemma In_page {A} (limit offset : nat) (l : list A) (x : A) :
  In x (firstn limit (skipn offset l)) -> In x l.
Proof.
  intros H. apply list_elem_of_In, list_elem_of_lookup in H as [i H].
  apply lookup_take_Some in H as [H _]. rewrite lookup_drop in H.
  eapply list_elem_of_In, list_elem_of_lookup_2, H.
Qed.

(** C10: [getRankingList] returns only stored rows of the period asked
    for whose [is_active] flag is true and whose user currently has
    status "active", in ascending order of rank; a stored row whose user
    is not active now is left out.  [getUserRanking] returns only a
    stored row of that user and period whose [is_active] flag is true.
    The ranks of a page can have gaps although the stored ranks are
    1..N: with three ranked users of whom the second is banned later, the
    stored ranks are 1, 2, 3 and the page shows 1, 3. *)
Theorem ranking_readers
    (now : Ranking.Clock) (type : Ranking.RankingType)
    (period : option string) (limit offset : nat) (userId : Z)
    (rankings : list Ranking.t) (users : list User.t) :
  let p := Ranking.periodOrCurrent now type period in
  let page := snd (Ranking.getRankingList now type period limit offset
                     rankings users) in
  (forall r : Ranking.t,
     In r page ->
     In r rankings /\ Ranking.is_active r = true /\
     Ranking.ranking_type r = type /\ Ranking.period r = p /\
     exists u, In u users /\ User.id u = Ranking.user_id r /\
               User.status u = User.active) /\
  (forall (i j : nat) (a b : Ranking.t),
     (i < j)%nat -> page !! i = Some a -> page !! j = Some b ->
     Ranking.rank a <= Ranking.rank b) /\
  (forall r : Ranking.t,
     In r rankings ->
     ~ (exists u, In u users /\ User.id u = Ranking.user_id r /\
                  User.status u = User.active) ->
     ~ In r page) /\
  (forall r : Ranking.t,
     Ranking.getUserRanking now userId type period rankings = Some r ->
     In r rankings /\ Ranking.is_active r = true /\
     Ranking.user_id r = userId /\
     Ranking.ranking_type r = type /\ Ranking.period r = p) /\
  (map Ranking.rank three_user_snapshot = [1; 2; 3] /\
   map Ranking.rank
     (snd (Ranking.getRankingList example_clock Ranking.weekly
             (Some "2024-W05"%string) 50 0 three_user_snapshot
             three_users_one_banned)) = [1; 3]).
Proof.
  cbv zeta. unfold Ranking.getRankingList. cbn [snd].
  set (p := Ranking.periodOrCurrent now type period).
  set (keep := fun r : Ranking.t =>
                 Ranking.samePeriod type p r && Ranking.is_active r
                 && Ranking.userIsActive users (Ranking.user_id r)).
  set (byRank := fun a b : Ranking.t => Ranking.rank a <? Ranking.rank b).
  assert (Member : forall r,
            In r (firstn limit (skipn offset
                    (Ranking.sortBy byRank (List.filter keep rankings)))) ->
            In r rankings /\ keep r = true).
  { intros r H. apply In_page in H.
    apply (Permutation_in _ (sortBy_Permutation _ _)) in H.
    now apply filter_In in H. }
  split; [|split; [|split; [|split]]].
  - intros r H. apply Member in H as [H K]. unfold keep in K.
    apply andb_true_iff in K as [K K3]. apply andb_true_iff in K as [K1 K2].
    apply samePeriod_spec in K1 as [T P].
    apply userIsActive_spec in K3. auto.
  - intros i j a b Hij Ha Hb.
    apply lookup_take_Some in Ha as [Ha _]. rewrite lookup_drop in Ha.
    apply lookup_take_Some in Hb as [Hb _]. rewrite lookup_drop in Hb.
    assert (S : StronglySorted (mayPrecede byRank)
                  (Ranking.sortBy byRank (List.filter keep rankings))).
    { apply sortBy_sorted.
      - unfold byRank. intros x y H. apply Z.ltb_lt in H. apply Z.ltb_ge. lia.
      - unfold mayPrecede, byRank. intros x y z H1 H2.
        apply Z.ltb_ge in H1, H2. apply Z.ltb_ge. lia. }
    pose proof (StronglySorted_lookup _ _ (offset + i) (offset + j) a b S
                  ltac:(lia) Ha Hb) as R.
    unfold mayPrecede, byRank in R. now apply Z.ltb_ge in R.
  - intros r _ N H. apply Member in H as [_ K]. unfold keep in K.
    apply andb_true_iff in K as [_ K3]. apply userIsActive_spec in K3.
    now apply N.
  - intros r H. unfold Ranking.getUserRanking in H.
    apply find_some in H as [H K].
    apply andb_true_iff in K as [K K3]. apply andb_true_iff in K as [K1 K2].
    apply samePeriod_spec in K2 as [T P]. apply Z.eqb_eq in K1. auto.
  - split; reflexivity.
Qed.

(** ** Period score and streaks of a row *)

Section Streaks.

Import Ranking.

Lemma leadingSuccesses_nonneg (l : list Recommend.t) : 0 <= leadingSuccesses l.
Proof.
  induction l as [|r l IH]; cbn; [lia|].
  destruct (Recommend.is_success r); lia.
Qed.

(** Once [currentStreak] is set, the loop keeps it, and stops at the first
    failure. *)
Lemma streakLoop_set (l : list Recommend.t) (cur mx tmp : Z) :
  0 < cur -> 0 <= tmp ->
  let '(cur', mx', tmp') := streakLoop l cur mx tmp in
  cur' = cur /\ Z.max mx' tmp' = Z.max mx (tmp + leadingSuccesses l).
Proof.
  revert tmp. induction l as [|r l IH]; intros tmp Hc Ht; cbn.
  - split; [reflexivity|]. now rewrite Z.add_0_r.
  - destruct (Recommend.is_success r).
    + destruct (Z.eqb_spec cur 0) as [E|_]; [lia|].
      specialize (IH (tmp + 1) Hc ltac:(lia)).
      destruct (streakLoop l cur mx (tmp + 1)) as [[c m] t].
      destruct IH as [-> ->]. split; [reflexivity|]. f_equal. lia.
    + destruct (Z.ltb_spec 0 cur) as [_|L]; [|lia].
      split; [reflexivity|]. lia.
Qed.

(** What the streak loop computes: [currentStreak] is 1 as soon as the
    scanned outcomes hold a success, and [maxStreak] is the length of the
    first run of successes. *)
Lemma streaks_spec (l : list Recommend.t) :
  streaks l
  = (if existsb Recommend.is_success l then 1 else 0, firstRun l).
Proof.
  unfold streaks, firstRun.
  induction l as [|r l IH]; [reflexivity|].
  cbn [streakLoop existsb skipFailures].
  destruct (Recommend.is_success r) eqn:S.
  - cbn [orb leadingSuccesses Z.eqb]. rewrite S. change (0 + 1) with 1.
    pose proof (streakLoop_set l 1 0 1 ltac:(lia) ltac:(lia)) as H.
    destruct (streakLoop l 1 0 1) as [[c m] t]. destruct H as [-> ->].
    f_equal. pose proof (leadingSuccesses_nonneg l). lia.
  - replace (Z.max 0 0) with 0 by reflexivity. cbn [Z.ltb Z.compare orb].
    exact IH.
Qed.

(** Every row that is not a success costs 5 in the summed score, whatever
    its status. *)
Lemma scoreCase_sum (streakColumn : Recommend.t -> Z)
    (rows : list Recommend.t) :
  fold_right Z.add 0 (map (scoreCase streakColumn) rows)
  = fold_right Z.add 0
      (map (scoreCase streakColumn) (List.filter Recommend.is_success rows))
    - 5 * Z.of_nat
            (length (List.filter (fun r => negb (Recommend.is_success r))
                       rows)).
Proof.
  induction rows as [|r rows IH]; [reflexivity|].
  cbn [map fold_right List.filter]. rewrite IH.
  unfold scoreCase at 1.
  destruct (Recommend.is_success r) eqn:S; cbn [negb map fold_right length].
  - unfold scoreCase at 2. rewrite S. lia.
  - lia.
Qed.

End Streaks.

(** C2, the code at a failing input: user 1 has a single prediction,
    created inside the week and still active, so no settled prediction at
    all.  The sum over the settled predictions is 0, and the weekly row's
    period score is -5: the aggregate's [ELSE -5] charges every row that
    is not a success. *)
Theorem period_score_charges_active_prediction :
  let recommends := Recommend.recommends one_active_prediction in
  let users := Recommend.users one_active_prediction in
  map Recommend.status recommends = [Recommend.active] /\
  List.filter (Ranking.recommendWhere 1 (fst example_week) (snd example_week))
    recommends = recommends /\
  settledScore (fun _ => 0) recommends = 0 /\
  map Ranking.period_score (fst (example_weekly users recommends [])) = [-5].
Proof.
  cbv zeta. repeat split; reflexivity.
Qed.

(** C3, the code at two failing inputs.  With the outcomes success,
    success, failed (newest first) the first run of successes has length
    2 and the row's current streak is 1.  With the outcomes success,
    failed, success, success the longest run has length 2 and the row's
    max streak is 1. *)
Theorem streak_walk_at_failing_inputs :
  let recent (db : Recommend.Tables) :=
    Ranking.recentRecommends 1 (fst example_week) (snd example_week)
      (Recommend.recommends db) in
  let row (db : Recommend.Tables) :=
    map (fun r => (Ranking.current_streak r, Ranking.max_streak r))
      (fst (example_weekly (Recommend.users db) (Recommend.recommends db)
              [])) in
  (map Recommend.status (recent two_wins_after_loss)
     = [Recommend.success; Recommend.success; Recommend.failed] /\
   firstRun (recent two_wins_after_loss) = 2 /\
   longestRun (recent two_wins_after_loss) = 2 /\
   row two_wins_after_loss = [(1, 2)]) /\
  (map Recommend.status (recent win_loss_two_wins)
     = [Recommend.success; Recommend.failed; Recommend.success;
        Recommend.success] /\
   firstRun (recent win_loss_two_wins) = 1 /\
   longestRun (recent win_loss_two_wins) = 2 /\
   row win_loss_two_wins = [(1, 1)]).
Proof.
  cbv zeta. repeat split; reflexivity.
Qed.

(** * Further properties of the code *)

(** ** models/User.js *)

Section UserStats.

Lemma updateStats_consistent (b : bool) (u : User.t) :
  consistentStats u ->
  consistentStats (User.updateStats b u)
  /\ User.level u <= User.level (User.updateStats b u)
  /\ User.total_score u <= User.total_score (User.updateStats b u)
  /\ User.total_recommends (User.updateStats b u)
     = User.total_recommends u + 1
  /\ User.id (User.updateStats b u) = User.id u
  /\ User.status (User.updateStats b u) = User.status u.
Proof.
  destruct u as [i n l ts cs tr sr fr cur mx st].
  unfold consistentStats; cbn [User.total_recommends User.success_recommends
    User.failed_recommends User.current_streak User.max_streak
    User.current_score User.total_score User.level].
  intros (H1 & H2 & H3 & H4 & H5 & H6).
  destruct b; unfold User.updateStats, User.checkLevel, User.scoreGain;
    cbn [User.total_recommends User.success_recommends
    User.failed_recommends User.current_streak User.max_streak
    User.current_score User.total_score User.level User.id User.status
    User.nickname].
  - set (g := 10 + (if 3 <=? cur + 1 then 20 else 0)
              + (if 5 <=? cur + 1 then 50 else 0)) in *.
    assert (Hg : 0 <= g)
      by (subst g; destruct (3 <=? cur + 1), (5 <=? cur + 1); lia).
    clearbody g.
    destruct (Z.ltb_spec l ((ts + g) / 1000 + 1));
      cbn [User.total_recommends User.success_recommends
      User.failed_recommends User.current_streak User.max_streak
      User.current_score User.total_score User.level User.id User.status];
      repeat split; try lia.
  - destruct (Z.ltb_spec l (ts / 1000 + 1));
      cbn [User.total_recommends User.success_recommends
      User.failed_recommends User.current_streak User.max_streak
      User.current_score User.total_score User.level User.id User.status];
      repeat split; try lia.
Qed.

Lemma updateStats_success_fields (u : User.t) :
  User.current_streak (User.updateStats true u) = User.current_streak u + 1
  /\ User.total_score (User.updateStats true u)
     = User.total_score u + User.scoreGain (User.current_streak u + 1).
Proof.
  unfold User.updateStats, User.checkLevel.
  match goal with |- context [if ?c then _ else _] => destruct c end;
    cbn; split; reflexivity.
Qed.

Lemma consecutive_successes_from (n : nat) : forall u,
  0 <= User.current_streak u ->
  User.current_streak (updateStatsAll (repeat true n) u)
  = User.current_streak u + Z.of_nat n
  /\ User.total_score (updateStatsAll (repeat true n) u)
     = User.total_score u + 10 * Z.of_nat n
       + 20 * (Z.max 0 (User.current_streak u + Z.of_nat n - 2)
               - Z.max 0 (User.current_streak u - 2))
       + 50 * (Z.max 0 (User.current_streak u + Z.of_nat n - 4)
               - Z.max 0 (User.current_streak u - 4)).
Proof.
  induction n as [|n IH]; intros u Hs.
  - cbn. split; lia.
  - cbn [repeat updateStatsAll List.fold_left].
    destruct (updateStats_success_fields u) as [Hc Ht].
    fold (updateStatsAll (repeat true n) (User.updateStats true u)).
    destruct (IH (User.updateStats true u)) as [Hc' Ht']; [lia|].
    rewrite Hc', Ht', Hc, Ht. unfold User.scoreGain.
    rewrite Nat2Z.inj_succ.
    destruct (Z.leb_spec 3 (User.current_streak u + 1)),
             (Z.leb_spec 5 (User.current_streak u + 1)); split; lia.
Qed.

Lemma updateStats_counters (b : bool) (a : User.t) :
  User.id (User.updateStats b a) = User.id a
  /\ User.success_recommends (User.updateStats b a)
     = User.success_recommends a + Z.b2z b
  /\ User.failed_recommends (User.updateStats b a)
     = User.failed_recommends a + Z.b2z (negb b)
  /\ User.total_recommends (User.updateStats b a)
     = User.total_recommends a + 1.
Proof.
  unfold User.updateStats, User.checkLevel.
  destruct b; match goal with |- context [if ?c then _ else _] =>
    destruct c end; cbn; repeat split; lia.
Qed.

End UserStats.

(** X1: whatever outcomes are applied, in whatever order, [updateStats]
    keeps the counters of a user consistent: [total_recommends] is the sum
    of successes and failures and grows by one per outcome, the current
    streak is between 0 and [max_streak], [max_streak] is at most the
    number of successes, [current_score] stays between 0 and
    [total_score], the level is at least [total_score / 1000 + 1] and
    never drops, and [id] and [status] are untouched. *)
Theorem updateStats_keeps_counters_consistent (outcomes : list bool)
    (u : User.t) :
  consistentStats u ->
  let u' := updateStatsAll outcomes u in
  consistentStats u'
  /\ User.total_recommends u'
     = User.total_recommends u + Z.of_nat (List.length outcomes)
  /\ User.level u <= User.level u'
  /\ User.total_score u <= User.total_score u'
  /\ User.id u' = User.id u
  /\ User.status u' = User.status u.
Proof.
  revert u. induction outcomes as [|b outcomes IH]; intros u Hu.
  - cbn. repeat split; try lia; apply Hu.
  - cbn [updateStatsAll List.fold_left].
    destruct (updateStats_consistent b u Hu) as (Hc & Hl & Ht & Hn & Hi & Hs).
    specialize (IH _ Hc). cbn zeta in IH. unfold updateStatsAll in IH.
    destruct IH as (Hc' & Hn' & Hl' & Ht' & Hi' & Hs').
    cbn zeta. unfold updateStatsAll.
    cbn [List.length]. rewrite Nat2Z.inj_succ.
    repeat split; try apply Hc'; try lia; congruence.
Qed.

Lemma updateStats_keeps_counters_consistent_witness :
  let u' := updateStatsAll [true; false; true; true; true] (new_user 1) in
  consistentStats u'
  /\ User.total_recommends u' = User.total_recommends (new_user 1) + 5
  /\ User.level (new_user 1) <= User.level u'
  /\ User.total_score (new_user 1) <= User.total_score u'
  /\ User.id u' = User.id (new_user 1)
  /\ User.status u' = User.status (new_user 1).
Proof.
  apply (updateStats_keeps_counters_consistent
           [true; false; true; true; true] (new_user 1)).
  unfold consistentStats. repeat split; vm_compute; congruence.
Defined.

(** X2: [n] successes in a row, starting from a streak of 0, bring the
    streak to [n] and earn 10 points each, 20 more from the third one on
    and 50 more from the fifth one on. *)
Theorem consecutive_successes_score (n : nat) (u : User.t) :
  User.current_streak u = 0 ->
  let u' := updateStatsAll (repeat true n) u in
  User.current_streak u' = Z.of_nat n
  /\ User.total_score u'
     = User.total_score u + 10 * Z.of_nat n
       + 20 * Z.max 0 (Z.of_nat n - 2) + 50 * Z.max 0 (Z.of_nat n - 4).
Proof.
  intros H0 u'. subst u'.
  destruct (consecutive_successes_from n u) as [Hc Ht]; [lia|].
  rewrite Hc, Ht, H0. split; lia.
Qed.

Lemma consecutive_successes_score_witness :
  let u' := updateStatsAll (repeat true 6) (new_user 1) in
  User.current_streak u' = 6
  /\ User.total_score u'
     = User.total_score (new_user 1) + 10 * 6
       + 20 * Z.max 0 (6 - 2) + 50 * Z.max 0 (6 - 4).
Proof.
  apply (consecutive_successes_score 6 (new_user 1)). reflexivity.
Defined.

(** X3: for a user with consistent counters the [winRate] of [toJSON] is
    between 0 and 1; it is 0 for a user without settled predictions and,
    for one with settled predictions, 1 exactly when none has failed. *)
Theorem winRate_bounds (u : User.t) :
  consistentStats u ->
  (0 <= User.winRate u)%Q /\ (User.winRate u <= 1)%Q
  /\ (User.total_recommends u = 0 -> User.winRate u = 0%Q)
  /\ (0 < User.total_recommends u ->
      ((User.winRate u == 1)%Q <-> User.failed_recommends u = 0)).
Proof.
  intros (H1 & H2 & H3 & H4 & H5 & H6). unfold User.winRate.
  destruct (Z.ltb_spec 0 (User.total_recommends u)) as [Hp|Hp].
  - assert (Hq : (0 < inject_Z (User.total_recommends u))%Q)
      by (rewrite <- (Zlt_Qlt 0); exact Hp).
    split; [|split; [|split]].
    + apply Qle_shift_div_l; [exact Hq|].
      rewrite Qmult_0_l. rewrite <- (Zle_Qle 0). lia.
    + apply Qle_shift_div_r; [exact Hq|].
      rewrite Qmult_1_l. rewrite <- Zle_Qle. lia.
    + intros E. lia.
    + intros _. split.
      * intros E.
        assert (E' : (inject_Z (User.success_recommends u)
                      == inject_Z (User.total_recommends u))%Q).
        { rewrite <- (Qmult_1_l (inject_Z (User.total_recommends u))).
          rewrite <- E. field. intro Hz. rewrite Hz in Hq.
          exact (Qlt_irrefl _ Hq). }
        apply (proj1 (inject_Z_injective _ _)) in E'. lia.
      * intros E. replace (User.success_recommends u)
          with (User.total_recommends u) by lia.
        field. intro Hz. rewrite Hz in Hq. exact (Qlt_irrefl _ Hq).
  - split; [|split; [|split]]; try reflexivity; try (intros; lia).
    + apply Qle_refl.
    + discriminate.
Qed.

Lemma winRate_bounds_witness :
  let u := updateStatsAll [true; false; true] (new_user 1) in
  (0 <= User.winRate u)%Q /\ (User.winRate u <= 1)%Q
  /\ (User.total_recommends u = 0 -> User.winRate u = 0%Q)
  /\ (0 < User.total_recommends u ->
      ((User.winRate u == 1)%Q <-> User.failed_recommends u = 0)).
Proof.
  apply (winRate_bounds (updateStatsAll [true; false; true] (new_user 1))).
  unfold consistentStats. repeat split; vm_compute; congruence.
Defined.

(** ** Counting rows, [save] and [findByPk] *)

Section TableRows.

Context {A : Type} (key : A -> Z).

Lemma countRows_app (P : A -> bool) l1 l2 :
  countRows P (l1 ++ l2) = countRows P l1 + countRows P l2.
Proof.
  unfold countRows. rewrite List.filter_app, List.length_app. lia.
Qed.

Lemma countRows_cons (P : A -> bool) a l :
  countRows P (a :: l) = Z.b2z (P a) + countRows P l.
Proof.
  unfold countRows. cbn [List.filter].
  destruct (P a); cbn [List.length Z.b2z]; lia.
Qed.

Lemma countRows_nonneg (P : A -> bool) l : 0 <= countRows P l.
Proof. unfold countRows. lia. Qed.

Lemma countRows_map (P : A -> bool) (g : A -> A) l :
  (forall r, In r l -> P (g r) = P r) ->
  countRows P (List.map g l) = countRows P l.
Proof.
  induction l as [|a l IH]; intros H; [reflexivity|].
  cbn [List.map]. rewrite !countRows_cons, IH, H; auto using in_cons, in_eq.
Qed.

Lemma countRows_find_None (P : A -> bool) l :
  List.find P l = None -> countRows P l = 0.
Proof.
  induction l as [|a l IH]; [reflexivity|]. cbn [List.find].
  rewrite countRows_cons. destruct (P a); [discriminate|]. intros H.
  rewrite IH by exact H. reflexivity.
Qed.

Lemma countRows_le (P Q : A -> bool) l :
  (forall r, In r l -> P r = true -> Q r = true) ->
  countRows P l <= countRows Q l.
Proof.
  induction l as [|a l IH]; intros H; [reflexivity|].
  rewrite !countRows_cons.
  assert (countRows P l <= countRows Q l) by (apply IH; auto using in_cons).
  specialize (H a (in_eq _ _)).
  destruct (P a), (Q a); cbn [Z.b2z]; try lia.
Qed.

Lemma save_keys x rows :
  List.map key (Recommend.save key x rows) = List.map key rows.
Proof.
  unfold Recommend.save. rewrite List.map_map. apply List.map_ext_in.
  intros a _. destruct (Z.eqb_spec (key a) (key x)); congruence.
Qed.

Lemma save_fresh x rows :
  ~ In (key x) (List.map key rows) -> Recommend.save key x rows = rows.
Proof.
  unfold Recommend.save. intros H. rewrite <- (List.map_id rows) at 2.
  apply List.map_ext_in. intros a Ha.
  destruct (Z.eqb_spec (key a) (key x)) as [E|E]; [|reflexivity].
  exfalso. apply H. rewrite <- E. apply List.in_map. exact Ha.
Qed.

Lemma In_save x y rows :
  In y (Recommend.save key x rows) ->
  (y = x /\ In (key x) (List.map key rows))
  \/ (In y rows /\ key y <> key x).
Proof.
  unfold Recommend.save. rewrite List.in_map_iff. intros (a & Ha & Hin).
  destruct (Z.eqb_spec (key a) (key x)) as [E|E].
  - left. split; [congruence|]. rewrite <- E. apply List.in_map. exact Hin.
  - right. subst y. split; assumption.
Qed.

Lemma countRows_save (P : A -> bool) x r rows :
  NoDup (List.map key rows) -> In r rows -> key x = key r ->
  countRows P (Recommend.save key x rows)
  = countRows P rows + Z.b2z (P x) - Z.b2z (P r).
Proof.
  induction rows as [|a rows IH]; intros Hnd Hin Hk; [destruct Hin|].
  cbn [List.map] in Hnd. apply NoDup_cons in Hnd.
  destruct Hnd as [Hna Hnd]. rewrite list_elem_of_In in Hna.
  change (Recommend.save key x (a :: rows))
    with ((if key a =? key x then x else a) :: Recommend.save key x rows).
  rewrite !countRows_cons.
  destruct (Z.eqb_spec (key a) (key x)) as [E|E].
  - assert (r = a).
    { destruct Hin as [Hin|Hin]; [congruence|]. exfalso. apply Hna.
      rewrite E, Hk. apply List.in_map. exact Hin. }
    subst r. rewrite save_fresh by (rewrite <- E; exact Hna). lia.
  - destruct Hin as [Hin|Hin]; [congruence|].
    rewrite IH by assumption. lia.
Qed.

Lemma findByPk_In k rows x :
  Recommend.findByPk key k rows = Some x -> In x rows /\ key x = k.
Proof.
  unfold Recommend.findByPk. intros H. apply List.find_some in H.
  destruct H as [Hin He]. split; [exact Hin|]. apply Z.eqb_eq; exact He.
Qed.

Lemma findByPk_None k rows :
  Recommend.findByPk key k rows = None -> ~ In k (List.map key rows).
Proof.
  unfold Recommend.findByPk. intros H Hin.
  apply List.in_map_iff in Hin. destruct Hin as (a & Ha & Hin).
  pose proof (List.find_none _ _ H a Hin) as Hf. cbn in Hf.
  apply Z.eqb_neq in Hf. congruence.
Qed.

Lemma countRows_zero (P : A -> bool) l :
  (forall a, In a l -> P a = false) -> countRows P l = 0.
Proof.
  induction l as [|a l IH]; intros H; [reflexivity|].
  rewrite countRows_cons, IH, H; auto using in_cons, in_eq.
Qed.

Lemma countRows_unique (P : A -> bool) l : countRows P l <= 1 ->
  forall i j a b, l !! i = Some a -> l !! j = Some b ->
  P a = true -> P b = true -> i = j.
Proof.
  induction l as [|x l IH]; intros Hc i j a b Hi Hj Ha Hb; [discriminate|].
  rewrite countRows_cons in Hc.
  pose proof (countRows_nonneg P l) as Hn.
  assert (Hpos : forall k c, l !! k = Some c -> P c = true ->
                 1 <= countRows P l).
  { clear. induction l as [|y l IH]; intros k c Hk Hc; [discriminate|].
    rewrite countRows_cons. pose proof (countRows_nonneg P l).
    destruct k as [|k]; cbn in Hk.
    - inversion Hk; subst y. rewrite Hc. cbn. lia.
    - specialize (IH _ _ Hk Hc). destruct (P y); cbn; lia. }
  destruct i as [|i], j as [|j]; cbn in Hi, Hj.
  - reflexivity.
  - inversion Hi; subst x. rewrite Ha in Hc. cbn in Hc.
    specialize (Hpos _ _ Hj Hb). lia.
  - inversion Hj; subst x. rewrite Hb in Hc. cbn in Hc.
    specialize (Hpos _ _ Hi Ha). lia.
  - f_equal.
    apply (IH ltac:(destruct (P x); cbn in Hc; lia) i j a b); assumption.
Qed.

End TableRows.

(** ** middleware/errorMiddleware.js and middleware/authMiddleware.js *)

Section Middleware.

Import ErrorMiddleware AuthMiddleware.

Lemma authenticate_inr verify authorization users u :
  authenticate verify authorization users = inr u ->
  exists token k user,
    bearerToken authorization = Some token /\ token <> ""%string
    /\ verify token = Decoded (Some k) (openId u)
    /\ Recommend.findByPk User.id k users = Some user
    /\ User.is_active user = true
    /\ u = mkReqUser (User.id user) (openId u) (User.nickname user)
             (User.level user) "user".
Proof.
  unfold authenticate.
  destruct (bearerToken authorization) as [token|]; [|discriminate].
  destruct (String.eqb_spec token "") as [|Hne]; [discriminate|].
  destruct (verify token) as [[k|] o|err] eqn:Hv.
  - destruct (Recommend.findByPk User.id k users) as [user|] eqn:Hf;
      [|discriminate].
    destruct (User.is_active user) eqn:Ha; cbn [negb]; [|discriminate].
    intros H. inversion H; subst; clear H. cbn [openId].
    exists token, k, user. repeat split; auto.
  - discriminate.
  - destruct (String.eqb (name err) "JsonWebTokenError"); [discriminate|].
    destruct (String.eqb (name err) "TokenExpiredError"); discriminate.
Qed.

End Middleware.

(** X4: [errorHandler] does not read the [statusCode] of an [ApiError].
    An error thrown by a handler or a model while the status of the
    response is still 200 is answered with code 500 and the error's
    message, whatever code the [ApiError] was made with; the error of
    [notFound] is answered with 404. *)
Theorem errorHandler_code (e : JS.error) (originalUrl : string) :
  ErrorMiddleware.errorHandler (ErrorMiddleware.ofError e) 200
  = ErrorMiddleware.mkResponse 500
      (ErrorMiddleware.message (ErrorMiddleware.ofError e))
  /\ ErrorMiddleware.errorHandler
       (fst (ErrorMiddleware.notFound originalUrl))
       (snd (ErrorMiddleware.notFound originalUrl))
     = ErrorMiddleware.mkResponse 404 ("接口不存在 - " ++ originalUrl).
Proof.
  split; [destruct e; reflexivity | reflexivity].
Qed.

(** X5: when [authenticate] lets a request through, the header carried a
    non-empty bearer token that [jwt.verify] accepted, the user the token
    names is in the [users] table and is active, [req.user] carries that
    user's id, nickname and level, and the role is "user". *)
Theorem authenticate_sound verify authorization users u :
  AuthMiddleware.authenticate verify authorization users = inr u ->
  AuthMiddleware.role u = "user"%string
  /\ exists token user,
       AuthMiddleware.bearerToken authorization = Some token
       /\ token <> ""%string
       /\ verify token
          = AuthMiddleware.Decoded (Some (AuthMiddleware.userId u))
              (AuthMiddleware.openId u)
       /\ In user users /\ User.id user = AuthMiddleware.userId u
       /\ User.is_active user = true
       /\ AuthMiddleware.nickname u = User.nickname user
       /\ AuthMiddleware.level u = User.level user.
Proof.
  intros H. destruct (authenticate_inr _ _ _ _ H)
    as (token & k & user & Ht & Hne & Hv & Hf & Ha & Hu).
  destruct (findByPk_In User.id _ _ _ Hf) as [Hin Hk].
  rewrite Hu.
  cbn [AuthMiddleware.role AuthMiddleware.userId AuthMiddleware.openId
       AuthMiddleware.nickname AuthMiddleware.level].
  split; [reflexivity|]. exists token, user.
  rewrite Hk. repeat split; auto.
Qed.

Lemma authenticate_sound_witness :
  let u := AuthMiddleware.mkReqUser 1 "openid-1" "股票达人" 1 "user" in
  AuthMiddleware.role u = "user"%string
  /\ exists token user,
       AuthMiddleware.bearerToken (Some "Bearer good"%string) = Some token
       /\ token <> ""%string
       /\ example_verify token
          = AuthMiddleware.Decoded (Some (AuthMiddleware.userId u))
              (AuthMiddleware.openId u)
       /\ In user three_users /\ User.id user = AuthMiddleware.userId u
       /\ User.is_active user = true
       /\ AuthMiddleware.nickname u = User.nickname user
       /\ AuthMiddleware.level u = User.level user.
Proof.
  apply (authenticate_sound example_verify (Some "Bearer good"%string)
           three_users).
  reflexivity.
Defined.

(** X6: the settlement route settles nothing.  [authenticate] gives
    every user the role "user", so [authorize("admin")] rejects every
    authenticated request: the tables are left as they are, and the reply
    is the one [errorHandler] makes for the error of [authenticate] or,
    for an authenticated user, code 500 with the message of the
    permission error. *)
Theorem settle_route_rejects_every_request verify authorization now id
    exitPrice db :
  Routes.settle verify authorization now id exitPrice db
  = (match AuthMiddleware.authenticate verify authorization
             (Recommend.users db) with
     | inl err => ErrorMiddleware.errorHandler err 200
     | inr _ => ErrorMiddleware.mkResponse 500 "权限不足"
     end, db).
Proof.
  unfold Routes.settle.
  destruct (AuthMiddleware.authenticate verify authorization
              (Recommend.users db)) as [err|u] eqn:Ha; [reflexivity|].
  destruct (authenticate_inr _ _ _ _ Ha)
    as (token & k & user & _ & _ & _ & _ & _ & Hu).
  rewrite Hu. reflexivity.
Qed.

Section RateLimit.

Import AuthMiddleware.

Variables maxRequests windowMs : Z.

Lemma recentlyAccepted_timesOf key now history :
  recentlyAccepted windowMs key now history
  = Z.of_nat (List.length (within windowMs now (timesOf key history))).
Proof.
  unfold recentlyAccepted, within, timesOf. f_equal.
  induction history as [|[k t] h IH]; [reflexivity|].
  cbn [List.filter].
  destruct (String.eqb k key); cbn [andb List.map snd List.filter].
  - destruct (now - windowMs <? t); cbn [List.length]; congruence.
  - exact IH.
Qed.

Lemma within_within c now l :
  now <= c ->
  within windowMs c (within windowMs now l) = within windowMs c l.
Proof.
  intros Hc. unfold within. induction l as [|t l IH]; [reflexivity|].
  cbn [List.filter].
  destruct (Z.ltb_spec (now - windowMs) t) as [H1|H1]; cbn [List.filter].
  - rewrite IH. reflexivity.
  - rewrite IH. destruct (Z.ltb_spec (c - windowMs) t); [lia|reflexivity].
Qed.

Lemma within_app c l1 l2 :
  within windowMs c (l1 ++ l2)
  = within windowMs c l1 ++ within windowMs c l2.
Proof. unfold within. apply List.filter_app. Qed.

Lemma timesOf_snoc key k t history :
  timesOf key (history ++ [(k, t)])
  = timesOf key history ++ (if String.eqb k key then [t] else []).
Proof.
  unfold timesOf. rewrite List.filter_app, List.map_app. cbn [List.filter].
  destruct (String.eqb k key); reflexivity.
Qed.

Lemma rateLimitAll_slidingWindow reqs : forall requests history T,
  (forall k c, T <= c ->
     within windowMs c (default [] (requests !! k))
     = within windowMs c (timesOf k history)) ->
  Forall (fun r => T <= snd r) reqs ->
  StronglySorted (fun a b => snd a <= snd b) reqs ->
  rateLimitAll maxRequests windowMs reqs requests
  = slidingWindow maxRequests windowMs reqs history.
Proof.
  induction reqs as [|[key now] rest IH]; intros requests history T Hinv HT Hs;
    [reflexivity|].
  cbn [rateLimitAll slidingWindow].
  apply Forall_cons in HT. destruct HT as [HT _]. cbn [snd] in HT.
  apply StronglySorted_inv in Hs. destruct Hs as [Hs Hle].
  unfold rateLimit. cbv zeta. rewrite recentlyAccepted_timesOf.
  fold (within windowMs now (default [] (requests !! key))).
  rewrite <- (Hinv key now HT).
  rewrite Z.ltb_antisym.
  destruct (maxRequests
            <=? Z.of_nat (List.length
                            (within windowMs now
                               (default [] (requests !! key)))));
    cbn [negb]; f_equal.
  - apply (IH _ _ now); [|exact Hle|exact Hs].
    intros k c Hc. destruct (decide (k = key)) as [->|Hk].
    + rewrite lookup_insert_eq. cbn [default from_option id].
      rewrite within_within by exact Hc. apply Hinv. lia.
    + rewrite lookup_insert_ne by congruence. apply Hinv. lia.
  - apply (IH _ _ now); [|exact Hle|exact Hs].
    intros k c Hc. rewrite timesOf_snoc.
    destruct (decide (k = key)) as [->|Hk].
    + rewrite lookup_insert_eq. cbn [default from_option id].
      rewrite String.eqb_refl, !within_app, within_within by exact Hc.
      f_equal. apply Hinv. lia.
    + rewrite lookup_insert_ne by congruence.
      replace (String.eqb key k) with false
        by (symmetry; apply String.eqb_neq; congruence).
      rewrite app_nil_r. apply Hinv. lia.
Qed.

End RateLimit.

(** X7: with a clock that does not go back, the limiter of [rateLimit],
    which forgets the instants that left the window whenever a key is
    seen, decides every request as the limiter that remembers every
    accepted request: a request is let through exactly when fewer than
    [maxRequests] requests of the same key were let through less than
    [windowMs] before it. *)
Theorem rateLimit_is_sliding_window maxRequests windowMs
    (reqs : list (string * Z)) :
  StronglySorted (fun a b => snd a <= snd b) reqs ->
  AuthMiddleware.rateLimitAll maxRequests windowMs reqs ∅
  = slidingWindow maxRequests windowMs reqs [].
Proof.
  intros Hs. destruct reqs as [|[key now] rest]; [reflexivity|].
  apply (rateLimitAll_slidingWindow _ _ _ _ _ now).
  - intros k c _. rewrite lookup_empty. reflexivity.
  - constructor; [cbn; lia|].
    apply StronglySorted_inv in Hs. exact (proj2 Hs).
  - exact Hs.
Qed.

Lemma rateLimit_is_sliding_window_witness :
  AuthMiddleware.rateLimitAll 2 1000 example_limited ∅
  = slidingWindow 2 1000 example_limited [].
Proof.
  apply (rateLimit_is_sliding_window 2 1000 example_limited).
  unfold example_limited. repeat constructor; cbn; lia.
Defined.

(** ** controllers/recommendController.js: the tables under the handlers *)

Section Handlers.

Import Recommend RecommendHandlers.

Variable sameText : string -> string -> bool.
Hypothesis sameText_refl : forall s, sameText s s = true.
Variable fromZero : Prop.

Lemma handle_change q st : change sameText q st (handle sameText q st).
Proof.
  destruct st as [[recs us] fols]. destruct q; cbn [handle].
  - unfold createRecommend. cbn [tables follows recommends users].
    destruct (findByPk User.id userId us); [|apply unchanged].
    destruct (existingRecommend sameText userId stockCode recs) eqn:E;
      [apply unchanged|].
    cbn [snd]. eapply (appended _ _ (mkStore (mkTables recs us) fols));
      [reflexivity|exact E].
  - unfold updateRecommend. cbn [tables follows recommends users].
    destruct (findByPk Recommend.id id0 recs) as [r|] eqn:F; [|apply unchanged].
    destruct (user_id r =? userId); cbn [negb]; [|apply unchanged].
    destruct (is_active r) eqn:Ha; cbn [negb snd]; [|apply unchanged].
    apply (saved _ _ (mkStore (mkTables recs us) fols) r); auto.
    apply (findByPk_In Recommend.id) in F. apply F.
  - unfold RecommendController.deleteRecommend.
    cbn [tables follows recommends users].
    destruct (findByPk Recommend.id id0 recs) as [r|] eqn:F; [|apply unchanged].
    destruct (user_id r =? userId); cbn [negb]; [|apply unchanged].
    destruct (is_active r) eqn:Ha; cbn [negb snd]; [|apply unchanged].
    apply (saved _ _ (mkStore (mkTables recs us) fols) r); auto.
    apply (findByPk_In Recommend.id) in F. apply F.
  - unfold RecommendController.settleRecommend.
    cbn [tables follows recommends users].
    destruct (findByPk Recommend.id id0 recs) as [r|] eqn:F; [|apply unchanged].
    destruct (is_active r) eqn:Ha; cbn [negb snd]; [|apply unchanged].
    unfold settle.
    destruct (settleFields now exitPrice r) as [x|e] eqn:S; [|apply unchanged].
    cbn [snd recommends users].
    destruct (settleFields_Ok _ _ _ _ S)
      as (finalPrice & price & _ & _ & Hx).
    assert (Hst : status x = success \/ status x = failed).
    { rewrite Hx. cbn [status]. apply outcome_settled. }
    assert (Hid : id x = id r) by (rewrite Hx; reflexivity).
    assert (Hu : user_id x = user_id r) by (rewrite Hx; reflexivity).
    assert (Hc : stock_code x = stock_code r) by (rewrite Hx; reflexivity).
    assert (Hf : follow_count x = follow_count r) by (rewrite Hx; reflexivity).
    apply (findByPk_In Recommend.id) in F. destruct F as [Hin _].
    destruct (findByPk User.id (user_id x) us) as [a|] eqn:Fa.
    + apply (saved _ _ (mkStore (mkTables recs us) fols) r x); auto.
      right. split; [exact Hst|]. cbn [tables users]. rewrite Fa. reflexivity.
    + apply (saved _ _ (mkStore (mkTables recs us) fols) r x); auto.
      right. split; [exact Hst|]. cbn [tables users]. rewrite Fa. reflexivity.
  - unfold followRecommend. cbn [tables follows recommends users].
    destruct (findByPk Recommend.id id0 recs) as [r|] eqn:F; [|apply unchanged].
    destruct (is_active r); cbn [negb]; [|apply unchanged].
    destruct (user_id r =? userId); [apply unchanged|].
    destruct (existingFollow userId id0 fols) eqn:E; [apply unchanged|].
    destruct hasStock; cbn [negb snd]; [|apply unchanged].
    eapply (followed _ _ (mkStore (mkTables recs us) fols));
      [reflexivity|exact F|exact E].
  - unfold unfollowRecommend. cbn [tables follows recommends users].
    destruct (activeFollow userId id0 fols) as [f|] eqn:E; [|apply unchanged].
    cbn [snd].
    exact (unfollowed _ _ (mkStore (mkTables recs us) fols) id0 userId f E).
Qed.

Lemma increment_keys k d rows :
  List.map id (increment k d rows) = List.map id rows.
Proof.
  unfold increment. rewrite List.map_map. apply List.map_ext.
  intros r. destruct (id r =? k); reflexivity.
Qed.

Lemma countRows_increment (P : t -> bool) k d rows :
  (forall r, P (add_follow_count d r) = P r) ->
  countRows P (increment k d rows) = countRows P rows.
Proof.
  intros H. unfold increment. apply countRows_map.
  intros r _. destruct (id r =? k); [apply H|reflexivity].
Qed.

Lemma In_increment k d r' rows :
  In r' (increment k d rows) ->
  exists r, In r rows /\ id r' = id r
            /\ follow_count r'
               = follow_count r + (if id r =? k then d else 0).
Proof.
  unfold increment. rewrite List.in_map_iff. intros (r & Hr & Hin).
  exists r. split; [exact Hin|]. subst r'.
  destruct (id r =? k); cbn; split; (reflexivity || lia).
Qed.

Lemma consistent_appended st i userId stockCode currentPrice predictChange
    reason holdPeriod confidence now endDate :
  consistent fromZero st ->
  ~ In i (List.map id (recommends (tables st))) ->
  existingRecommend sameText userId stockCode (recommends (tables st))
  = None ->
  consistent fromZero
    (mkStore
       (mkTables
          (recommends (tables st)
           ++ [RecommendController.createRecommend i userId stockCode
                 currentPrice predictChange reason holdPeriod confidence
                 now endDate])
          (users (tables st)))
       (follows st)).
Proof.
  intros (Ha & Hb & Hc & Hd & He & Hf & Hg) Hfresh Hex.
  unfold consistent. cbn [tables follows recommends users].
  set (r0 := RecommendController.createRecommend i userId stockCode
               currentPrice predictChange reason holdPeriod confidence
               now endDate).
  split.
  { rewrite List.map_app. cbn [List.map].
    apply NoDup_app. split; [exact Ha|]. split.
    + intros x Hx Hx0. apply list_elem_of_In in Hx.
      apply list_elem_of_In in Hx0. destruct Hx0 as [<-|[]].
      exact (Hfresh Hx).
    + apply NoDup_singleton. }
  split; [exact Hb|].
  split.
  { intros u c. rewrite countRows_app, countRows_cons.
    change (countRows (activeOn u c) []) with 0.
    destruct (activeOn u c r0) eqn:E; cbn [Z.b2z]; [|specialize (Hc u c); lia].
    unfold activeOn in E. cbn in E.
    apply andb_prop in E. destruct E as [E _].
    apply andb_prop in E. destruct E as [Eu Ec].
    apply Z.eqb_eq in Eu. apply String.eqb_eq in Ec. subst u c.
    assert (countRows (activeOn userId stockCode) (recommends (tables st))
            <= 0).
    { rewrite <- (countRows_find_None _ _ Hex). apply countRows_le.
      intros r _. unfold activeOn. intros H.
      apply andb_prop in H. destruct H as [H H3].
      apply andb_prop in H. destruct H as [H1 H2].
      apply String.eqb_eq in H2. rewrite H1, H3, H2, sameText_refl.
      reflexivity. }
    pose proof (countRows_nonneg (activeOn userId stockCode)
                  (recommends (tables st))). lia. }
  split.
  { intros r Hin. apply List.in_app_iff in Hin. destruct Hin as [Hin|[<-|[]]].
    + apply Hd. exact Hin.
    + cbn [r0 RecommendController.createRecommend follow_count id].
      symmetry. apply countRows_zero. intros f Hf'.
      unfold activeFollowOf, Follow.follows_recommend.
      destruct (Follow.recommend_id f) as [k|] eqn:Ek; [|reflexivity].
      destruct (Z.eqb_spec k i) as [->|]; [|reflexivity].
      exfalso. apply Hfresh. exact (He f i Hf' Ek). }
  split.
  { intros f k Hin Hk. rewrite List.map_app. apply List.in_app_iff. left.
    exact (He f k Hin Hk). }
  split; [exact Hf|].
  intros HU u H. rewrite !countRows_app, !countRows_cons.
  replace (settledAs success (User.id u) r0) with false
    by (unfold settledAs; cbn; rewrite andb_false_r; reflexivity).
  replace (settledAs failed (User.id u) r0) with false
    by (unfold settledAs; cbn; rewrite andb_false_r; reflexivity).
  change (countRows (settledAs success (User.id u)) []) with 0.
  change (countRows (settledAs failed (User.id u)) []) with 0.
  cbn [Z.b2z]. rewrite !Z.add_0_r. apply Hg; assumption.
Qed.

Lemma settledAs_active s u r :
  is_active r = true -> s <> active -> settledAs s u r = false.
Proof.
  unfold is_active, settledAs. destruct (status r), s; cbn;
    intros H1 H2; try discriminate H1; try congruence;
    apply andb_false_r.
Qed.

Lemma consistent_saved st r x users' :
  consistent fromZero st ->
  In r (recommends (tables st)) -> is_active r = true ->
  id x = id r -> user_id x = user_id r -> stock_code x = stock_code r ->
  follow_count x = follow_count r ->
  ((status x = status r \/ status x = cancelled)
   /\ users' = users (tables st)
   \/ (status x = success \/ status x = failed)
      /\ users' = match findByPk User.id (user_id x) (users (tables st)) with
                  | Some a =>
                      save User.id (User.updateStats (is_success x) a)
                        (users (tables st))
                  | None => users (tables st)
                  end) ->
  consistent fromZero
    (mkStore (mkTables (save id x (recommends (tables st))) users')
       (follows st)).
Proof.
  intros (Ha & Hb & Hc & Hd & He & Hf & Hg) Hin Hact Hid Hu Hs Hfc Hcase.
  assert (Hcount : forall P, countRows P (save id x (recommends (tables st)))
            = countRows P (recommends (tables st))
              + Z.b2z (P x) - Z.b2z (P r)).
  { intros P. apply countRows_save; assumption. }
  unfold consistent. cbn [tables follows recommends users].
  split; [rewrite save_keys; exact Ha|].
  split; [exact Hb|].
  split.
  { intros u c. rewrite Hcount. specialize (Hc u c).
    assert (Z.b2z (activeOn u c x) <= Z.b2z (activeOn u c r)); [|lia].
    unfold activeOn. rewrite Hu, Hs, Hact.
    destruct (user_id r =? u), (String.eqb (stock_code r) c), (is_active x);
      cbn; lia. }
  split.
  { intros r' Hr'. apply In_save in Hr'. destruct Hr' as [[-> _]|[Hr' _]].
    - rewrite Hfc, Hid. apply Hd. exact Hin.
    - apply Hd. exact Hr'. }
  split; [rewrite save_keys; exact He|].
  split; [exact Hf|].
  assert (Hr0 : forall s u, s <> active -> settledAs s u r = false)
    by (intros; apply settledAs_active; assumption).
  intros HU. specialize (Hg HU).
  destruct Hcase as [[Hst ->]|[Hst ->]].
  - intros u Hu'. rewrite !Hcount, !Hr0 by discriminate.
    assert (Hx0 : forall s, s = success \/ s = failed ->
                  settledAs s (User.id u) x = false).
    { intros s Hs'. unfold settledAs.
      destruct Hst as [-> | ->].
      - unfold is_active in Hact. destruct (status r); try discriminate Hact.
        destruct Hs' as [-> | ->]; apply andb_false_r.
      - destruct Hs' as [-> | ->]; apply andb_false_r. }
    rewrite !Hx0 by auto. cbn [Z.b2z]. rewrite !Z.add_0_r, !Z.sub_0_r.
    apply Hg. exact Hu'.
  - assert (Hkeep : forall u, In u (users (tables st)) ->
              User.id u <> user_id x ->
              User.success_recommends u
              = countRows (settledAs success (User.id u))
                  (save id x (recommends (tables st)))
              /\ User.failed_recommends u
                 = countRows (settledAs failed (User.id u))
                     (save id x (recommends (tables st)))
              /\ User.total_recommends u
                 = User.success_recommends u + User.failed_recommends u).
    { intros u Hu' Hne. rewrite !Hcount, !Hr0 by discriminate.
      unfold settledAs.
      replace (user_id x =? User.id u) with false
        by (symmetry; apply Z.eqb_neq; congruence).
      cbn [andb Z.b2z]. rewrite !Z.add_0_r, !Z.sub_0_r. apply Hg. exact Hu'. }
    destruct (findByPk User.id (user_id x) (users (tables st))) as [a|] eqn:Fa.
    + apply (findByPk_In User.id) in Fa. destruct Fa as [Hina Hida].
      destruct (updateStats_counters (is_success x) a)
        as (Ui & Us & Uf & Ut).
      intros u Hu'. apply In_save in Hu'. destruct Hu' as [[-> _]|[Hu' Hne]].
      * rewrite Ui, Us, Uf, Ut, !Hcount, !Hr0 by discriminate.
        destruct (Hg a Hina) as (-> & -> & ->).
        unfold settledAs. rewrite Hida, Z.eqb_refl. cbn [andb].
        unfold is_success.
        destruct Hst as [-> | ->]; cbn [Status_eqb negb Z.b2z]; lia.
      * apply Hkeep; [exact Hu'|]. rewrite Ui in Hne. congruence.
    + intros u Hu'. apply Hkeep; [exact Hu'|].
      intros E. apply (findByPk_None User.id) in Fa. apply Fa.
      rewrite <- E. apply List.in_map. exact Hu'.
Qed.

Lemma consistent_increment st k d fols' :
  consistent fromZero st ->
  NoDup (List.map Follow.id fols') ->
  (forall r, In r (recommends (tables st)) ->
     countRows (activeFollowOf (id r)) fols'
     = countRows (activeFollowOf (id r)) (follows st)
       + (if id r =? k then d else 0)) ->
  (forall f j, In f fols' -> Follow.recommend_id f = Some j ->
     In j (List.map id (recommends (tables st)))) ->
  (forall u j, countRows (followBy u j) fols' <= 1) ->
  consistent fromZero
    (mkStore
       (mkTables (increment k d (recommends (tables st)))
          (users (tables st)))
       fols').
Proof.
  intros (Ha & Hb & Hc & Hd & He & Hf & Hg) Hb' Hd' He' Hf'.
  unfold consistent. cbn [tables follows recommends users].
  split; [rewrite increment_keys; exact Ha|].
  split; [exact Hb'|].
  split; [intros u c; rewrite countRows_increment by reflexivity; apply Hc|].
  split.
  { intros r' Hr'. apply In_increment in Hr'.
    destruct Hr' as (r & Hin & Hid & Hfc).
    rewrite Hfc, Hid, Hd', (Hd r Hin) by exact Hin. reflexivity. }
  split; [rewrite increment_keys; exact He'|].
  split; [exact Hf'|].
  intros HU u Hu. rewrite !countRows_increment by reflexivity.
  apply Hg; assumption.
Qed.

Lemma consistent_followed st followId k userId r :
  consistent fromZero st ->
  ~ In followId (List.map Follow.id (follows st)) ->
  findByPk id k (recommends (tables st)) = Some r ->
  existingFollow userId k (follows st) = None ->
  consistent fromZero
    (mkStore
       (mkTables (increment k 1 (recommends (tables st)))
          (users (tables st)))
       (follows st
        ++ [Follow.mk followId userId (Some k) None Follow.recommend
              Follow.active])).
Proof.
  intros Hinv Hfresh Hfind Hex.
  pose proof Hinv as (Ha & Hb & Hc & Hd & He & Hf & Hg).
  apply consistent_increment; [exact Hinv| | | |].
  - rewrite List.map_app. cbn [List.map Follow.id].
    apply NoDup_app. split; [exact Hb|]. split; [|apply NoDup_singleton].
    intros x Hx Hx0. apply list_elem_of_In in Hx.
    apply list_elem_of_In in Hx0. destruct Hx0 as [<-|[]]. exact (Hfresh Hx).
  - intros r' _. rewrite countRows_app, countRows_cons.
    change (countRows (activeFollowOf (id r')) []) with 0.
    unfold activeFollowOf at 2. cbn. rewrite !andb_true_r, (Z.eqb_sym k).
    destruct (id r' =? k); cbn; lia.
  - intros f j Hin Hj. apply List.in_app_iff in Hin.
    destruct Hin as [Hin|[<-|[]]]; [exact (He f j Hin Hj)|].
    cbn in Hj. inversion Hj; subst j.
    apply (findByPk_In id) in Hfind. destruct Hfind as [Hin <-].
    apply List.in_map. exact Hin.
  - intros u j. rewrite countRows_app, countRows_cons.
    change (countRows (followBy u j) []) with 0.
    destruct (followBy u j (Follow.mk followId userId (Some k) None
                              Follow.recommend Follow.active)) eqn:E;
      cbn [Z.b2z]; [|specialize (Hf u j); lia].
    unfold followBy in E. cbn in E. rewrite andb_true_r in E.
    apply andb_prop in E. destruct E as [Eu Ek].
    apply Z.eqb_eq in Eu. apply Z.eqb_eq in Ek. subst u j.
    unfold existingFollow in Hex.
    pose proof (countRows_find_None _ _ Hex) as H0.
    change (countRows (followBy userId k) (follows st) = 0) in H0. lia.
Qed.

Lemma consistent_unfollowed st k userId f :
  consistent fromZero st ->
  activeFollow userId k (follows st) = Some f ->
  consistent fromZero
    (mkStore
       (mkTables
          (match findByPk id k (recommends (tables st)) with
           | Some _ => increment k (-1) (recommends (tables st))
           | None => recommends (tables st)
           end)
          (users (tables st)))
       (save Follow.id (Follow.set_status Follow.cancelled f) (follows st))).
Proof.
  intros Hinv Hfind.
  pose proof Hinv as (Ha & Hb & Hc & Hd & He & Hf & Hg).
  unfold activeFollow in Hfind. apply List.find_some in Hfind.
  destruct Hfind as [Hin Hp].
  apply andb_prop in Hp. destruct Hp as [Hp Hact].
  apply andb_prop in Hp. destruct Hp as [Hp Hrec].
  apply andb_prop in Hp. destruct Hp as [Hu Hk].
  set (f' := Follow.set_status Follow.cancelled f).
  assert (Hcount : forall P, countRows P (save Follow.id f' (follows st))
            = countRows P (follows st) + Z.b2z (P f') - Z.b2z (P f)).
  { intros P. apply countRows_save; [exact Hb|exact Hin|reflexivity]. }
  assert (Hb' : NoDup (List.map Follow.id (save Follow.id f' (follows st))))
    by (rewrite save_keys; exact Hb).
  assert (Hd' : forall j,
            countRows (activeFollowOf j) (save Follow.id f' (follows st))
            = countRows (activeFollowOf j) (follows st)
              + (if j =? k then -1 else 0)).
  { intros j. rewrite Hcount. unfold activeFollowOf at 2 3.
    cbn [f' Follow.set_status Follow.is_active Follow.status].
    rewrite andb_false_r, Hrec, Hact, !andb_true_r.
    unfold Follow.follows_recommend in *.
    cbn [Follow.recommend_id].
    destruct (Follow.recommend_id f) as [j'|]; [|discriminate Hk].
    apply Z.eqb_eq in Hk. subst j'. rewrite (Z.eqb_sym k j).
    destruct (j =? k); cbn; lia. }
  assert (He' : forall g j, In g (save Follow.id f' (follows st)) ->
            Follow.recommend_id g = Some j ->
            In j (List.map id (recommends (tables st)))).
  { intros g j Hg' Hj. apply In_save in Hg'.
    destruct Hg' as [[-> _]|[Hg' _]]; [|exact (He g j Hg' Hj)].
    exact (He f j Hin Hj). }
  assert (Hf' : forall u j,
            countRows (followBy u j) (save Follow.id f' (follows st)) <= 1).
  { intros u j. rewrite Hcount.
    replace (followBy u j f') with (followBy u j f) by reflexivity.
    specialize (Hf u j). lia. }
  destruct (findByPk id k (recommends (tables st))) as [r|] eqn:Fr.
  - apply consistent_increment; auto.
  - unfold consistent. cbn [tables follows recommends users].
    split; [exact Ha|]. split; [exact Hb'|]. split; [exact Hc|].
    split; [|split; [exact He'|split; [exact Hf'|exact Hg]]].
    intros r Hr. rewrite Hd', (Hd r Hr).
    apply (findByPk_None id) in Fr.
    destruct (Z.eqb_spec (id r) k) as [E|E]; [|lia].
    exfalso. apply Fr. rewrite <- E. apply List.in_map. exact Hr.
Qed.

Lemma handle_consistent q st :
  consistent fromZero st -> freshKeys q st ->
  consistent fromZero (handle sameText q st).
Proof.
  intros Hinv [Hfr Hff]. destruct (handle_change q st).
  - exact Hinv.
  - apply consistent_appended; auto.
    apply Hfr. subst q. cbn. left. reflexivity.
  - apply (consistent_saved st r x); assumption.
  - apply (consistent_followed st followId k userId r); auto.
    apply Hff. subst q. cbn. left. reflexivity.
  - apply (consistent_unfollowed st k userId f); assumption.
Qed.

Lemma handle_keys q st :
  (forall k, In k (List.map id (recommends (tables (handle sameText q st)))) ->
     In k (List.map id (recommends (tables st))) \/ In k (createdIds [q]))
  /\ (forall k, In k (List.map Follow.id (follows (handle sameText q st))) ->
       In k (List.map Follow.id (follows st)) \/ In k (followIds [q])).
Proof.
  destruct (handle_change q st); cbn [tables follows recommends users].
  - split; auto.
  - split; [|auto]. intros k. rewrite List.map_app, List.in_app_iff.
    intros [Hk|Hk]; [left; exact Hk|right]. subst q. exact Hk.
  - rewrite save_keys. split; auto.
  - rewrite increment_keys. split; [auto|].
    intros j. rewrite List.map_app, List.in_app_iff.
    intros [Hj|Hj]; [left; exact Hj|right]. subst q. exact Hj.
  - rewrite save_keys. split; [|auto].
    destruct (findByPk id k (recommends (tables st)));
      [rewrite increment_keys|]; auto.
Qed.

Lemma createdIds_cons q qs :
  createdIds (q :: qs) = createdIds [q] ++ createdIds qs.
Proof.
  unfold createdIds. cbn [List.flat_map]. rewrite app_nil_r. reflexivity.
Qed.

Lemma followIds_cons q qs :
  followIds (q :: qs) = followIds [q] ++ followIds qs.
Proof.
  unfold followIds. cbn [List.flat_map]. rewrite app_nil_r. reflexivity.
Qed.

Lemma handleAll_consistent qs : forall st,
  consistent fromZero st ->
  NoDup (createdIds qs) -> NoDup (followIds qs) ->
  (forall k, In k (createdIds qs) ->
     ~ In k (List.map id (recommends (tables st)))) ->
  (forall k, In k (followIds qs) ->
     ~ In k (List.map Follow.id (follows st))) ->
  consistent fromZero (handleAll sameText qs st).
Proof.
  induction qs as [|q qs IH]; intros st Hinv Hc Hf Hcf Hff; [exact Hinv|].
  cbn [handleAll List.fold_left].
  fold (handleAll sameText qs (handle sameText q st)).
  rewrite createdIds_cons in Hc, Hcf. rewrite followIds_cons in Hf, Hff.
  apply NoDup_app in Hc. destruct Hc as (_ & Hc1 & Hc2).
  apply NoDup_app in Hf. destruct Hf as (_ & Hf1 & Hf2).
  destruct (handle_keys q st) as [Kc Kf].
  apply IH; [|exact Hc2|exact Hf2| |].
  - apply handle_consistent; [exact Hinv|]. split.
    + intros k Hk. apply Hcf. apply List.in_app_iff. left. exact Hk.
    + intros k Hk. apply Hff. apply List.in_app_iff. left. exact Hk.
  - intros k Hk Hin. destruct (Kc k Hin) as [H|H].
    + apply (Hcf k); [apply List.in_app_iff; right; exact Hk|exact H].
    + apply (Hc1 k); apply list_elem_of_In; assumption.
  - intros k Hk Hin. destruct (Kf k Hin) as [H|H].
    + apply (Hff k); [apply List.in_app_iff; right; exact Hk|exact H].
    + apply (Hf1 k); apply list_elem_of_In; assumption.
Qed.

Lemma handleAll_from_empty qs us :
  NoDup (createdIds qs) -> NoDup (followIds qs) ->
  (fromZero -> Forall noSettled us) ->
  consistent fromZero (handleAll sameText qs (emptyStore us)).
Proof.
  intros Hc Hf Hu. unfold emptyStore. apply handleAll_consistent; auto.
  unfold consistent. cbn [tables follows recommends users List.map].
  split; [apply NoDup_nil_2|]. split; [apply NoDup_nil_2|].
  split; [intros; unfold countRows; cbn; lia|]. split; [intros r []|].
  split; [intros f k []|]. split; [intros; unfold countRows; cbn; lia|].
  intros HU u H. specialize (Hu HU).
  rewrite Forall_forall in Hu. apply list_elem_of_In in H.
  destruct (Hu u H) as (Ht & Hs & Hfl). unfold countRows. cbn. lia.
Qed.

End Handlers.

Section HandlerTheorems.

Import Recommend RecommendHandlers.

(** X8: however the handlers are called on tables that start without
    predictions, with keys the database does not hand out twice, the keys
    of the stored predictions are distinct and a user never has two active
    predictions on the same stock: [createRecommend] refuses the second
    one until the first is settled or deleted. *)
Theorem one_active_prediction_per_user_and_stock
    (sameText : string -> string -> bool) (qs : list request)
    (us : list User.t) :
  (forall s, sameText s s = true) ->
  NoDup (createdIds qs) -> NoDup (followIds qs) ->
  let recs := recommends (tables (handleAll sameText qs (emptyStore us))) in
  NoDup (List.map id recs)
  /\ forall i j r1 r2,
       recs !! i = Some r1 -> recs !! j = Some r2 ->
       is_active r1 = true -> is_active r2 = true ->
       user_id r1 = user_id r2 -> stock_code r1 = stock_code r2 ->
       i = j.
Proof.
  intros Hrefl Hc Hf recs.
  destruct (handleAll_from_empty sameText Hrefl False qs us Hc Hf)
    as (Ha & _ & Hone & _); [intros []|].
  split; [exact Ha|].
  intros i j r1 r2 Hi Hj A1 A2 Hu Hs.
  apply (countRows_unique (activeOn (user_id r1) (stock_code r1)) recs
           (Hone _ _) i j r1 r2 Hi Hj).
  - unfold activeOn. rewrite Z.eqb_refl, String.eqb_refl, A1. reflexivity.
  - unfold activeOn. rewrite Hu, Hs, Z.eqb_refl, String.eqb_refl, A2.
    reflexivity.
Qed.

Lemma one_active_prediction_per_user_and_stock_witness :
  let recs := recommends (tables (handleAll String.eqb example_requests
                                    (emptyStore three_users))) in
  NoDup (List.map id recs)
  /\ forall i j r1 r2,
       recs !! i = Some r1 -> recs !! j = Some r2 ->
       is_active r1 = true -> is_active r2 = true ->
       user_id r1 = user_id r2 -> stock_code r1 = stock_code r2 ->
       i = j.
Proof.
  apply (one_active_prediction_per_user_and_stock String.eqb
           example_requests three_users).
  - intros s. apply String.eqb_refl.
  - apply (bool_decide_unpack _). vm_compute. reflexivity.
  - apply (bool_decide_unpack _). vm_compute. reflexivity.
Defined.

(** X9: for users who start with no settled prediction, however the
    handlers are called, [success_recommends] of a user is the number of
    that user's predictions stored with status "success",
    [failed_recommends] the number stored with status "failed", and
    [total_recommends] their sum: deleting, updating and following change
    no counter, and a settlement changes the author's counters once. *)
Theorem user_counters_count_settled_predictions
    (sameText : string -> string -> bool) (qs : list request)
    (us : list User.t) :
  (forall s, sameText s s = true) ->
  NoDup (createdIds qs) -> NoDup (followIds qs) ->
  Forall noSettled us ->
  let st := handleAll sameText qs (emptyStore us) in
  forall u, In u (users (tables st)) ->
    User.success_recommends u
    = countRows (settledAs success (User.id u)) (recommends (tables st))
    /\ User.failed_recommends u
       = countRows (settledAs failed (User.id u)) (recommends (tables st))
    /\ User.total_recommends u
       = User.success_recommends u + User.failed_recommends u.
Proof.
  intros Hrefl Hc Hf Hu st.
  destruct (handleAll_from_empty sameText Hrefl True qs us Hc Hf)
    as (_ & _ & _ & _ & _ & _ & Hg); [intros _; exact Hu|].
  exact (Hg I).
Qed.

Lemma user_counters_count_settled_predictions_witness :
  Forall noSettled three_users
  /\ let st := handleAll String.eqb example_requests (emptyStore three_users) in
  forall u, In u (users (tables st)) ->
    User.success_recommends u
    = countRows (settledAs success (User.id u)) (recommends (tables st))
    /\ User.failed_recommends u
       = countRows (settledAs failed (User.id u)) (recommends (tables st))
    /\ User.total_recommends u
       = User.success_recommends u + User.failed_recommends u.
Proof.
  assert (H : Forall noSettled three_users)
    by (unfold three_users, noSettled; repeat constructor).
  split; [exact H|].
  apply (user_counters_count_settled_predictions String.eqb example_requests
           three_users).
  - intros s. apply String.eqb_refl.
  - apply (bool_decide_unpack _). vm_compute. reflexivity.
  - apply (bool_decide_unpack _). vm_compute. reflexivity.
  - exact H.
Defined.

(** X10: however the handlers are called, [follow_count] of a stored
    prediction is the number of active follows of it in the [follows]
    table; in particular it is never negative. *)
Theorem follow_count_counts_active_follows
    (sameText : string -> string -> bool) (qs : list request)
    (us : list User.t) :
  (forall s, sameText s s = true) ->
  NoDup (createdIds qs) -> NoDup (followIds qs) ->
  let st := handleAll sameText qs (emptyStore us) in
  forall r, In r (recommends (tables st)) ->
    follow_count r = countRows (activeFollowOf (id r)) (follows st).
Proof.
  intros Hrefl Hc Hf st.
  destruct (handleAll_from_empty sameText Hrefl False qs us Hc Hf)
    as (_ & _ & _ & Hd & _); [intros []|].
  exact Hd.
Qed.

Lemma follow_count_counts_active_follows_witness :
  NoDup (followIds example_requests)
  /\ let st := handleAll String.eqb example_requests (emptyStore three_users) in
  forall r, In r (recommends (tables st)) ->
    follow_count r = countRows (activeFollowOf (id r)) (follows st).
Proof.
  assert (H : NoDup (followIds example_requests))
    by (apply (bool_decide_unpack _); vm_compute; reflexivity).
  split; [exact H|].
  apply (follow_count_counts_active_follows String.eqb example_requests
           three_users).
  - intros s. apply String.eqb_refl.
  - apply (bool_decide_unpack _). vm_compute. reflexivity.
  - exact H.
Defined.

(** X11: however the handlers are called, the [follows] table holds at
    most one follow of a prediction per user, and a user who has a follow
    of a prediction, cancelled or not, cannot follow it again:
    [followRecommend] throws and writes nothing. *)
Theorem one_follow_per_user_and_prediction
    (sameText : string -> string -> bool) (qs : list request)
    (us : list User.t) :
  (forall s, sameText s s = true) ->
  NoDup (createdIds qs) -> NoDup (followIds qs) ->
  let st := handleAll sameText qs (emptyStore us) in
  (forall i j f1 f2 k,
     follows st !! i = Some f1 -> follows st !! j = Some f2 ->
     Follow.is_recommend f1 = true -> Follow.is_recommend f2 = true ->
     Follow.user_id f1 = Follow.user_id f2 ->
     Follow.recommend_id f1 = Some k -> Follow.recommend_id f2 = Some k ->
     i = j)
  /\ (forall f k followId hasStock,
        In f (follows st) -> Follow.is_recommend f = true ->
        Follow.recommend_id f = Some k ->
        JS.is_throw
          (fst (followRecommend followId k (Follow.user_id f) hasStock st))
        = true
        /\ snd (followRecommend followId k (Follow.user_id f) hasStock st)
           = st).
Proof.
  intros Hrefl Hc Hf st.
  destruct (handleAll_from_empty sameText Hrefl False qs us Hc Hf)
    as (_ & _ & _ & _ & _ & Hone & _); [intros []|].
  fold st in Hone. split.
  - intros i j f1 f2 k Hi Hj R1 R2 Hu K1 K2.
    apply (countRows_unique (followBy (Follow.user_id f1) k) (follows st)
             (Hone _ _) i j f1 f2 Hi Hj).
    + unfold followBy, Follow.follows_recommend.
      rewrite K1, !Z.eqb_refl, R1. reflexivity.
    + unfold followBy, Follow.follows_recommend.
      rewrite K2, Hu, !Z.eqb_refl, R2. reflexivity.
  - intros f k followId hasStock Hin Hr Hk. unfold followRecommend.
    destruct (findByPk id k (recommends (tables st))); [|split; reflexivity].
    destruct (is_active t0); cbn [negb]; [|split; reflexivity].
    destruct (user_id t0 =? Follow.user_id f); [split; reflexivity|].
    destruct (existingFollow (Follow.user_id f) k (follows st)) eqn:E;
      [split; reflexivity|].
    exfalso. unfold existingFollow in E.
    pose proof (List.find_none _ _ E f Hin) as Hn. cbn in Hn.
    unfold Follow.follows_recommend in Hn.
    rewrite Hk, !Z.eqb_refl, Hr in Hn. discriminate Hn.
Qed.

Lemma one_follow_per_user_and_prediction_witness :
  let st := handleAll String.eqb example_requests (emptyStore three_users) in
  (forall i j f1 f2 k,
     follows st !! i = Some f1 -> follows st !! j = Some f2 ->
     Follow.is_recommend f1 = true -> Follow.is_recommend f2 = true ->
     Follow.user_id f1 = Follow.user_id f2 ->
     Follow.recommend_id f1 = Some k -> Follow.recommend_id f2 = Some k ->
     i = j)
  /\ (forall f k followId hasStock,
        In f (follows st) -> Follow.is_recommend f = true ->
        Follow.recommend_id f = Some k ->
        JS.is_throw
          (fst (followRecommend followId k (Follow.user_id f) hasStock st))
        = true
        /\ snd (followRecommend followId k (Follow.user_id f) hasStock st)
           = st).
Proof.
  apply (one_follow_per_user_and_prediction String.eqb example_requests
           three_users).
  - intros s. apply String.eqb_refl.
  - apply (bool_decide_unpack _). vm_compute. reflexivity.
  - apply (bool_decide_unpack _). vm_compute. reflexivity.
Defined.

End HandlerTheorems.

(** ** models/Ranking.js: the current period and its window *)

Section CurrentPeriod.

Import Ranking.

Local Open Scope string_scope.

Variable newDate newDateEnd : Z -> Z -> Z -> Z.

Lemma toString_numeral (y : Z) :
  (0 <= y)%Z ->
  exists d, d <> Nil /\ JSString.toString y = NilEmpty.string_of_uint d
            /\ horner d 0 = y.
Proof.
  intros H. destruct y as [|p|p]; [| |lia].
  - exists (D0 Nil). split; [discriminate|]. split; reflexivity.
  - exists (Pos.to_uint p). split; [apply Unsigned.to_uint_nonnil|].
    split; [apply toString_pos|apply horner_to_uint].
Qed.

Lemma split_month (dy dm : uint) :
  JSString.split "-"
    (NilEmpty.string_of_uint dy ++ "-" ++ NilEmpty.string_of_uint dm)
  = [NilEmpty.string_of_uint dy; NilEmpty.string_of_uint dm].
Proof.
  unfold JSString.split.
  rewrite (split_numeral_app "" dy), append_nil_l.
  rewrite append_cons, append_nil_l, split_month_separator.
  rewrite (split_numeral "" dm), append_nil_l. reflexivity.
Qed.

Lemma split_week (dy dw : uint) :
  JSString.split "-W"
    (NilEmpty.string_of_uint dy ++ "-W" ++ NilEmpty.string_of_uint dw)
  = [NilEmpty.string_of_uint dy; NilEmpty.string_of_uint dw].
Proof.
  unfold JSString.split.
  rewrite (split_numeral_app "W" dy), append_nil_l.
  rewrite !append_cons, append_nil_l, split_week_separator.
  rewrite (split_numeral "W" dw), append_nil_l. reflexivity.
Qed.

Lemma getPeriodRange_weekly_numerals (dy dw : uint) :
  dy <> Nil -> dw <> Nil ->
  getPeriodRange newDate newDateEnd weekly
    (NilEmpty.string_of_uint dy ++ "-W" ++ NilEmpty.string_of_uint dw)
  = (Some (Instant (newDate (horner dy 0) 0 1
                    + (horner dw 0 - 1) * 604800000)),
     Some (Instant (newDate (horner dy 0) 0 1
                    + (horner dw 0 - 1) * 604800000 + 604799000))).
Proof.
  intros Hy Hw. unfold getPeriodRange. rewrite split_week.
  cbn [List.nth_error JSString.parseIntOpt].
  rewrite !parseInt_numeral by assumption.
  cbn [option_map makeDate]. f_equal; do 2 f_equal; lia.
Qed.

Lemma getPeriodRange_weekly (year week : Z) :
  (0 <= year)%Z -> (1 <= week)%Z ->
  getPeriodRange newDate newDateEnd weekly
    (JSString.toString year ++ "-W"
     ++ JSString.padStart2 (JSString.toString week))
  = (Some (Instant (newDate year 0 1 + (week - 1) * 604800000)),
     Some (Instant (newDate year 0 1 + (week - 1) * 604800000
                    + 604799000))).
Proof.
  intros Hy Hw.
  destruct (toString_numeral year Hy) as (dy & Ny & -> & Vy).
  destruct (padStart2_toString week Hw) as (dw & Nw & -> & Vw).
  rewrite getPeriodRange_weekly_numerals by assumption.
  rewrite Vy, Vw. reflexivity.
Qed.

Lemma ceilDiv_7 (n : Z) :
  JSString.ceilDiv (n + 1) 7 = (n / 7 + 1)%Z.
Proof.
  unfold JSString.ceilDiv.
  pose proof (Z.div_mod n 7 ltac:(lia)).
  pose proof (Z.mod_pos_bound n 7 ltac:(lia)).
  pose proof (Z.div_mod (- (n + 1)) 7 ltac:(lia)).
  pose proof (Z.mod_pos_bound (- (n + 1)) 7 ltac:(lia)).
  lia.
Qed.

End CurrentPeriod.

(** X12: the monthly window of the current period is the calendar month
    of the clock: for a year that is not negative, [getPeriodRange] of the
    text [getCurrentPeriod] makes runs from the first day of the clock's
    month to day 0 of the next month, at 23:59:59.999. *)
Theorem monthly_window_of_current_period
    (newDate newDateEnd : Z -> Z -> Z -> Z) (now : Ranking.Clock) :
  0 <= Ranking.fullYear now -> 0 <= Ranking.monthIndex now ->
  Ranking.getPeriodRange newDate newDateEnd Ranking.monthly
    (Ranking.getCurrentPeriod now Ranking.monthly)
  = (Some (Ranking.Instant
             (newDate (Ranking.fullYear now) (Ranking.monthIndex now) 1)),
     Some (Ranking.Instant
             (newDateEnd (Ranking.fullYear now)
                (Ranking.monthIndex now + 1) 0))).
Proof.
  intros Hy Hm. unfold Ranking.getCurrentPeriod.
  destruct (toString_numeral _ Hy) as (dy & Ny & -> & Vy).
  destruct (padStart2_toString (Ranking.monthIndex now + 1))
    as (dm & Nm & -> & Vm); [lia|].
  unfold Ranking.getPeriodRange. rewrite split_month.
  cbn [List.nth_error JSString.parseIntOpt].
  rewrite !parseInt_numeral by assumption.
  rewrite Vy, Vm. do 4 f_equal. lia.
Qed.

Lemma monthly_window_of_current_period_witness :
  Ranking.getPeriodRange localDate localDateEnd Ranking.monthly
    (Ranking.getCurrentPeriod example_clock Ranking.monthly)
  = (Some (Ranking.Instant (localDate 2024 1 1)),
     Some (Ranking.Instant (localDateEnd 2024 (1 + 1) 0))).
Proof.
  apply (monthly_window_of_current_period localDate localDateEnd
           example_clock); vm_compute; congruence.
Defined.

(** X13: the window of week [week] of a year starts [week - 1] times
    seven days after the first of January and ends 6 days 23:59:59 later,
    one second before the next window starts.  At the whole seconds that
    a DATETIME column keeps, nothing is left out: a prediction of the user
    created at a whole second is selected by the window of the week
    exactly when it was created in the seven days that start with the
    window. *)
Theorem weekly_windows_cover_whole_seconds
    (newDate newDateEnd : Z -> Z -> Z -> Z) (year week : Z) :
  0 <= year -> 1 <= week ->
  newDate year 0 1 mod 1000 = 0 ->
  let range :=
    Ranking.getPeriodRange newDate newDateEnd Ranking.weekly
      (JSString.toString year ++ "-W"
       ++ JSString.padStart2 (JSString.toString week))%string in
  let start := newDate year 0 1 + (week - 1) * 604800000 in
  range = (Some (Ranking.Instant start),
           Some (Ranking.Instant (start + 604799000)))
  /\ forall r : Recommend.t,
       Recommend.created_at r mod 1000 = 0 ->
       (Ranking.recommendWhere (Recommend.user_id r) (fst range) (snd range)
          r = true
        <-> start <= Recommend.created_at r < start + 604800000).
Proof.
  intros Hy Hw Hs range start.
  assert (R : range = (Some (Ranking.Instant start),
                       Some (Ranking.Instant (start + 604799000))))
    by (apply getPeriodRange_weekly; assumption).
  split; [exact R|]. intros r Hr. rewrite R. cbn [fst snd].
  unfold Ranking.recommendWhere, Ranking.between.
  rewrite Z.eqb_refl. cbn [andb].
  rewrite andb_true_iff, !Z.leb_le. subst start.
  pose proof (Z_div_mod_eq_full (Recommend.created_at r) 1000).
  pose proof (Z_div_mod_eq_full (newDate year 0 1) 1000).
  lia.
Qed.

Lemma weekly_windows_cover_whole_seconds_witness :
  localDate 2024 0 1 mod 1000 = 0
  /\ Recommend.created_at last_second_prediction mod 1000 = 0
  /\ Recommend.created_at last_second_prediction
     = localDate 2024 0 1 + (5 - 1) * 604800000 + 604799000
  /\ Ranking.recommendWhere (Recommend.user_id last_second_prediction)
       (fst (Ranking.getPeriodRange localDate localDateEnd Ranking.weekly
               "2024-W05"))
       (snd (Ranking.getPeriodRange localDate localDateEnd Ranking.weekly
               "2024-W05"))
       last_second_prediction
     = true.
Proof.
  assert (H0 : localDate 2024 0 1 mod 1000 = 0) by reflexivity.
  assert (H1 : Recommend.created_at last_second_prediction mod 1000 = 0)
    by reflexivity.
  split; [exact H0|]. split; [exact H1|]. split; [reflexivity|].
  destruct (weekly_windows_cover_whole_seconds localDate localDateEnd 2024 5
              ltac:(lia) ltac:(lia) H0) as [_ H].
  apply (H last_second_prediction H1). vm_compute. split; congruence.
Defined.

(** X14: the week number of [getCurrentPeriod] counts from the Sunday on
    or before the first of January, the window of [getPeriodRange] from
    the first of January itself.  On a day whose number since the first of
    January, plus the weekday of the first of January, leaves a remainder
    below that weekday when divided by 7, the window of the current week
    has not started yet: a prediction created that day is not selected for
    the current week. *)
Theorem current_week_window_can_miss_now
    (newDate newDateEnd : Z -> Z -> Z -> Z) (now : Ranking.Clock)
    (r : Recommend.t) :
  0 <= Ranking.fullYear now -> 0 <= Ranking.daysSinceStartOfYear now ->
  0 <= Ranking.startOfYearDay now ->
  newDate (Ranking.fullYear now) 0 1
  + Ranking.daysSinceStartOfYear now * 86400000
  <= Recommend.created_at r
  < newDate (Ranking.fullYear now) 0 1
    + (Ranking.daysSinceStartOfYear now + 1) * 86400000 ->
  (Ranking.daysSinceStartOfYear now + Ranking.startOfYearDay now) mod 7
  < Ranking.startOfYearDay now ->
  Ranking.recommendWhere (Recommend.user_id r)
    (fst (Ranking.getPeriodRange newDate newDateEnd Ranking.weekly
            (Ranking.getCurrentPeriod now Ranking.weekly)))
    (snd (Ranking.getPeriodRange newDate newDateEnd Ranking.weekly
            (Ranking.getCurrentPeriod now Ranking.weekly)))
    r
  = false.
Proof.
  intros Hy Hd Hg Ht Hmod. unfold Ranking.getCurrentPeriod.
  rewrite ceilDiv_7.
  pose proof (Z.div_mod (Ranking.daysSinceStartOfYear now
                         + Ranking.startOfYearDay now) 7 ltac:(lia)) as Hdm.
  pose proof (Z.mod_pos_bound (Ranking.daysSinceStartOfYear now
                               + Ranking.startOfYearDay now) 7 ltac:(lia))
    as Hb.
  assert (Hq : 0 <= (Ranking.daysSinceStartOfYear now
                     + Ranking.startOfYearDay now) / 7)
    by (apply Z.div_pos; lia).
  rewrite getPeriodRange_weekly by lia. cbn [fst snd].
  unfold Ranking.recommendWhere, Ranking.between.
  rewrite Z.eqb_refl. cbn [andb].
  match goal with |- (?a <=? ?b) && _ = false =>
    destruct (Z.leb_spec a b); [exfalso; lia|reflexivity] end.
Qed.

Lemma current_week_window_can_miss_now_witness :
  Ranking.getCurrentPeriod sunday_clock Ranking.weekly = "2024-W02"%string
  /\ Ranking.recommendWhere (Recommend.user_id sunday_prediction)
       (fst (Ranking.getPeriodRange localDate localDateEnd Ranking.weekly
               (Ranking.getCurrentPeriod sunday_clock Ranking.weekly)))
       (snd (Ranking.getPeriodRange localDate localDateEnd Ranking.weekly
               (Ranking.getCurrentPeriod sunday_clock Ranking.weekly)))
       sunday_prediction
     = false.
Proof.
  split; [reflexivity|].
  apply (current_week_window_can_miss_now localDate localDateEnd
           sunday_clock sunday_prediction);
    try split; vm_compute; congruence.
Defined.

(** X15: the previous period of the current one.  For a year that is not
    negative, the previous period of the current month is the text
    [getCurrentPeriod] makes for the previous calendar month, December of
    the year before for January.  The previous period of the current week
    is the week before in the same year, and for week 1 always week 52 of
    the year before. *)
Theorem previous_of_current_period (now : Ranking.Clock) :
  0 <= Ranking.fullYear now -> 0 <= Ranking.monthIndex now ->
  0 <= Ranking.daysSinceStartOfYear now ->
  0 <= Ranking.startOfYearDay now ->
  Ranking.getPreviousPeriod Ranking.monthly
    (Ranking.getCurrentPeriod now Ranking.monthly)
  = Ranking.getCurrentPeriod
      (Ranking.mkClock
         (if Ranking.monthIndex now =? 0 then Ranking.fullYear now - 1
          else Ranking.fullYear now)
         (if Ranking.monthIndex now =? 0 then 11
          else Ranking.monthIndex now - 1)
         (Ranking.daysSinceStartOfYear now) (Ranking.startOfYearDay now))
      Ranking.monthly
  /\ Ranking.getPreviousPeriod Ranking.weekly
       (Ranking.getCurrentPeriod now Ranking.weekly)
     = (let week :=
          (Ranking.daysSinceStartOfYear now + Ranking.startOfYearDay now) / 7
          + 1 in
        if week =? 1
        then (JSString.toString (Ranking.fullYear now - 1) ++ "-W52")%string
        else (JSString.toString (Ranking.fullYear now) ++ "-W"
              ++ JSString.padStart2 (JSString.toString (week - 1)))%string).
Proof.
  intros Hy Hm Hd Hg. split.
  - unfold Ranking.getCurrentPeriod at 1.
    destruct (toString_numeral _ Hy) as (dy & Ny & Ey & Vy).
    destruct (padStart2_toString (Ranking.monthIndex now + 1))
      as (dm & Nm & Em & Vm); [lia|].
    rewrite Ey, Em. unfold Ranking.getPreviousPeriod. rewrite split_month.
    cbn [List.nth List.nth_error JSString.parseIntOpt].
    rewrite !parseInt_numeral by assumption. rewrite Vy, Vm.
    cbn [option_map JSString.numberToString].
    unfold Ranking.getCurrentPeriod.
    cbn [Ranking.fullYear Ranking.monthIndex].
    destruct (Z.eqb_spec (Ranking.monthIndex now) 0) as [E|E].
    + rewrite E. reflexivity.
    + replace (1 <? Ranking.monthIndex now + 1) with true
        by (symmetry; apply Z.ltb_lt; lia).
      rewrite <- Ey.
      replace (Ranking.monthIndex now + 1 - 1)
        with (Ranking.monthIndex now - 1 + 1) by lia.
      reflexivity.
  - unfold Ranking.getCurrentPeriod. rewrite ceilDiv_7. cbv zeta.
    set (week := (Ranking.daysSinceStartOfYear now
                  + Ranking.startOfYearDay now) / 7 + 1).
    assert (Hw : 1 <= week).
    { subst week.
      assert (0 <= (Ranking.daysSinceStartOfYear now
                    + Ranking.startOfYearDay now) / 7)
        by (apply Z.div_pos; lia). lia. }
    destruct (toString_numeral _ Hy) as (dy & Ny & Ey & Vy).
    destruct (padStart2_toString week Hw) as (dw & Nw & Ew & Vw).
    rewrite Ey, Ew. unfold Ranking.getPreviousPeriod. rewrite split_week.
    cbn [List.nth List.nth_error JSString.parseIntOpt].
    rewrite !parseInt_numeral by assumption. rewrite Vy, Vw.
    cbn [option_map JSString.numberToString].
    destruct (Z.eqb_spec week 1) as [E|E].
    + rewrite E. reflexivity.
    + replace (1 <? week) with true by (symmetry; apply Z.ltb_lt; lia).
      reflexivity.
Qed.

Lemma previous_of_current_period_witness :
  Ranking.getPreviousPeriod Ranking.monthly
    (Ranking.getCurrentPeriod sunday_clock Ranking.monthly)
  = "2023-12"%string
  /\ Ranking.getPreviousPeriod Ranking.weekly
       (Ranking.getCurrentPeriod sunday_clock Ranking.weekly)
     = "2024-W01"%string.
Proof.
  apply (previous_of_current_period sunday_clock); vm_compute; congruence.
Defined.

(** ** controllers/recommendController.js: a settled prediction *)

Section Final.

Import Recommend RecommendController.

Lemma settleRecommend_Ok now k e db r :
  fst (settleRecommend now k e db) = JS.Ok r ->
  findByPk id k (recommends (snd (settleRecommend now k e db))) = Some r
  /\ is_active r = false.
Proof.
  intros H.
  destruct (findByPk id k (recommends db)) as [r0|] eqn:F.
  - pose proof (settleRecommend_row now k e r0 db F) as Hrow.
    unfold settleRecommend in H. rewrite F in H.
    cbn [apply] in Hrow.
    destruct (is_active r0); cbn [negb] in *; [|discriminate H].
    unfold settle in H.
    destruct (settleFields now e r0) as [x|err] eqn:S; [|discriminate H].
    cbn [fst] in H. inversion H; subst x. split; [exact Hrow|].
    apply (settleFields_columns _ _ _ _ S).
  - unfold settleRecommend in H. rewrite F in H. discriminate H.
Qed.

End Final.

(** X16: a settlement happens once.  After [settleRecommend] has settled
    a prediction, the prediction is no longer active, and a second
    [settleRecommend] throws the 400 error and leaves both tables as they
    are, so the author's counters are not updated twice; [deleteRecommend]
    and [updateRecommend] throw and change nothing either, and
    [checkExpired] returns the prediction unchanged. *)
Theorem settled_prediction_is_final now k e db r :
  fst (RecommendController.settleRecommend now k e db) = JS.Ok r ->
  let db' := snd (RecommendController.settleRecommend now k e db) in
  Recommend.is_active r = false
  /\ (forall now' e',
        RecommendController.settleRecommend now' k e' db'
        = (JS.Throw (JS.ApiError "只能结算活跃状态的推荐" 400), db'))
  /\ (forall userId,
        JS.is_throw (fst (RecommendController.deleteRecommend k userId db'))
        = true
        /\ snd (RecommendController.deleteRecommend k userId db') = db')
  /\ (forall userId reason confidence,
        JS.is_throw
          (fst (RecommendHandlers.updateRecommend k userId reason confidence
                  db')) = true
        /\ snd (RecommendHandlers.updateRecommend k userId reason confidence
                  db') = db')
  /\ (forall now', Recommend.checkExpired now' r db' = (JS.Ok r, db')).
Proof.
  intros H db'. destruct (settleRecommend_Ok _ _ _ _ _ H) as [F A].
  fold db' in F. split; [exact A|]. repeat split.
  - intros now' e'. unfold RecommendController.settleRecommend.
    rewrite F, A. reflexivity.
  - unfold RecommendController.deleteRecommend. rewrite F, A.
    destruct (Recommend.user_id r =? userId); reflexivity.
  - unfold RecommendController.deleteRecommend. rewrite F, A.
    destruct (Recommend.user_id r =? userId); reflexivity.
  - unfold RecommendHandlers.updateRecommend. rewrite F, A.
    destruct (Recommend.user_id r =? userId); reflexivity.
  - unfold RecommendHandlers.updateRecommend. rewrite F, A.
    destruct (Recommend.user_id r =? userId); reflexivity.
  - intros now'. unfold Recommend.checkExpired. rewrite A. reflexivity.
Qed.

Lemma settled_prediction_is_final_witness :
  let db' := snd (RecommendController.settleRecommend 1 1 (JS.Number 110)
                    one_prediction) in
  Recommend.is_active example_settled = false
  /\ (forall now' e',
        RecommendController.settleRecommend now' 1 e' db'
        = (JS.Throw (JS.ApiError "只能结算活跃状态的推荐" 400), db'))
  /\ (forall userId,
        JS.is_throw (fst (RecommendController.deleteRecommend 1 userId db'))
        = true
        /\ snd (RecommendController.deleteRecommend 1 userId db') = db')
  /\ (forall userId reason confidence,
        JS.is_throw
          (fst (RecommendHandlers.updateRecommend 1 userId reason confidence
                  db')) = true
        /\ snd (RecommendHandlers.updateRecommend 1 userId reason confidence
                  db') = db')
  /\ (forall now',
        Recommend.checkExpired now' example_settled db'
        = (JS.Ok example_settled, db')).
Proof.
  apply (settled_prediction_is_final 1 1 (JS.Number 110) one_prediction
           example_settled).
  vm_compute. reflexivity.
Defined.

(** ** models/Ranking.js: the rows of [calculateRankings] *)

Section CalculatedRows.

Import Ranking.

Variable newDate newDateEnd : Z -> Z -> Z -> Z.
Variable streakColumn : Recommend.t -> Z.

Lemma calculateRankings_row now type period users recommends rankings r :
  In r (fst (calculateRankings newDate newDateEnd streakColumn now type
               period users recommends rankings)) ->
  exists user m i,
    In user users /\ User.is_active user = true
    /\ r = assignAt type m i
             (userRow streakColumn type (orCurrentPeriod now type period)
                (fst (getPeriodRange newDate newDateEnd type
                        (orCurrentPeriod now type period)))
                (snd (getPeriodRange newDate newDateEnd type
                        (orCurrentPeriod now type period)))
                recommends user).
Proof.
  intros Hin. apply list_elem_of_In in Hin.
  apply list_elem_of_lookup in Hin. destruct Hin as [k Hk].
  destruct (calculateRankings_lookup newDate newDateEnd streakColumn
              now type period users recommends rankings k r Hk)
    as (r0 & H0 & ->).
  assert (Hin0 : r0 ∈ unrankedRows newDate newDateEnd streakColumn now type
                       period users recommends).
  { rewrite <- (sortBy_Permutation sortsBefore).
    apply list_elem_of_lookup. exists k. exact H0. }
  unfold unrankedRows in Hin0. cbv zeta in Hin0.
  apply list_elem_of_In in Hin0. apply List.in_map_iff in Hin0.
  destruct Hin0 as (user & <- & Hu). apply List.filter_In in Hu.
  destruct Hu as [Hu Ha]. eauto 10.
Qed.

Lemma leadingSuccesses_le (l : list Recommend.t) :
  leadingSuccesses l <= Z.of_nat (List.length l).
Proof.
  induction l as [|r l IH]; cbn [leadingSuccesses List.length]; [lia|].
  destruct (Recommend.is_success r); lia.
Qed.

Lemma firstRun_bounds (l : list Recommend.t) :
  (if List.existsb Recommend.is_success l then 1 else 0) <= firstRun l
  /\ firstRun l <= Z.of_nat (List.length l).
Proof.
  unfold firstRun. induction l as [|r l IH]; [cbn; lia|].
  cbn [List.existsb skipFailures List.length].
  destruct (Recommend.is_success r) eqn:S; cbn [orb].
  - cbn [leadingSuccesses]. rewrite S.
    pose proof (leadingSuccesses_nonneg l).
    pose proof (leadingSuccesses_le l). lia.
  - lia.
Qed.

End CalculatedRows.

Lemma NoDup_map_filter {A B} (f : A -> B) (p : A -> bool) (l : list A) :
  NoDup (List.map f l) -> NoDup (List.map f (List.filter p l)).
Proof.
  induction l as [|a l IH]; [intros; exact (NoDup_nil_2)|].
  cbn [List.map List.filter]. intros H. apply NoDup_cons in H.
  destruct H as [Hn H]. destruct (p a); [|apply IH; exact H].
  cbn [List.map]. apply NoDup_cons. split; [|apply IH; exact H].
  intros Hin. apply Hn. apply list_elem_of_In in Hin.
  apply List.in_map_iff in Hin. destruct Hin as (x & Hx & Hin).
  apply List.filter_In in Hin. apply list_elem_of_In.
  apply List.in_map_iff. exists x. split; [exact Hx|apply Hin].
Qed.

(** X17: the streaks of every row [calculateRankings] returns, for every
    input.  [current_streak] is 1 when the user's 20 most recent settled
    predictions of the period hold a success and 0 otherwise;
    [max_streak] is the length of the first run of successes among them,
    read newest first; so [current_streak] is at most [max_streak], which
    is at most 20. *)
Theorem calculated_streaks (newDate newDateEnd : Z -> Z -> Z -> Z)
    (streakColumn : Recommend.t -> Z) now type period users recommends
    rankings r :
  In r (fst (Ranking.calculateRankings newDate newDateEnd streakColumn now
               type period users recommends rankings)) ->
  let range := Ranking.getPeriodRange newDate newDateEnd type
                 (Ranking.orCurrentPeriod now type period) in
  let recent := Ranking.recentRecommends (Ranking.user_id r) (fst range)
                  (snd range) recommends in
  Ranking.current_streak r
  = (if List.existsb Recommend.is_success recent then 1 else 0)
  /\ Ranking.max_streak r = firstRun recent
  /\ Ranking.current_streak r <= Ranking.max_streak r <= 20.
Proof.
  intros Hin range recent.
  destruct (calculateRankings_row _ _ _ _ _ _ _ _ _ _ Hin)
    as (user & m & i & _ & _ & Hr).
  fold range in Hr.
  pose proof (userRow_fields streakColumn type
                (Ranking.orCurrentPeriod now type period)
                (fst range) (snd range) recommends user) as HF.
  cbv zeta in HF. destruct HF as (Hid & _ & _ & _ & _ & _ & Hs).
  assert (Hu : Ranking.user_id r = User.id user)
    by (rewrite Hr; exact Hid).
  assert (Hrecent : recent = Ranking.recentRecommends (User.id user)
                               (fst range) (snd range) recommends)
    by (unfold recent; rewrite Hu; reflexivity).
  rewrite <- Hrecent, streaks_spec in Hs.
  assert (Hc : Ranking.current_streak r
               = (if List.existsb Recommend.is_success recent then 1 else 0))
    by (rewrite Hr; inversion Hs; reflexivity).
  assert (Hm : Ranking.max_streak r = firstRun recent)
    by (rewrite Hr; inversion Hs; reflexivity).
  destruct (firstRun_bounds recent) as [Hlo Hhi].
  assert (Hlen : (List.length recent <= 20)%nat).
  { unfold recent, Ranking.recentRecommends. apply List.firstn_le_length. }
  rewrite Hc, Hm. repeat split; lia.
Qed.

Lemma calculated_streaks_witness :
  let range := Ranking.getPeriodRange localDate localDateEnd Ranking.weekly
                 "2024-W05" in
  let recent := Ranking.recentRecommends 1 (fst range) (snd range)
                  (Recommend.recommends two_wins_after_loss) in
  Ranking.current_streak streak_row
  = (if List.existsb Recommend.is_success recent then 1 else 0)
  /\ Ranking.max_streak streak_row = firstRun recent
  /\ Ranking.current_streak streak_row <= Ranking.max_streak streak_row <= 20.
Proof.
  apply (calculated_streaks localDate localDateEnd (fun _ => 0) example_clock
           Ranking.weekly (Some "2024-W05"%string)
           (Recommend.users two_wins_after_loss)
           (Recommend.recommends two_wins_after_loss) [] streak_row).
  left. vm_compute. reflexivity.
Defined.

(** X18: the statistics of every row [calculateRankings] returns, for
    every input.  [total_recommends] counts the user's predictions
    created in the window whatever their status, [success_recommends]
    those with status "success"; [win_rate] is between 0 and 1; and
    [period_score] is the points of the successes minus 5 for every other
    prediction in the window, settled or not. *)
Theorem calculated_statistics (newDate newDateEnd : Z -> Z -> Z -> Z)
    (streakColumn : Recommend.t -> Z) now type period users recommends
    rankings r :
  In r (fst (Ranking.calculateRankings newDate newDateEnd streakColumn now
               type period users recommends rankings)) ->
  let range := Ranking.getPeriodRange newDate newDateEnd type
                 (Ranking.orCurrentPeriod now type period) in
  let rows := List.filter
                (Ranking.recommendWhere (Ranking.user_id r) (fst range)
                   (snd range)) recommends in
  Ranking.total_recommends r = Z.of_nat (List.length rows)
  /\ Ranking.success_recommends r
     = Z.of_nat (List.length (List.filter Recommend.is_success rows))
  /\ 0 <= Ranking.success_recommends r <= Ranking.total_recommends r
  /\ (0 <= Ranking.win_rate r <= 1)%Q
  /\ Ranking.period_score r
     = List.fold_right Z.add 0
         (List.map (Ranking.scoreCase streakColumn)
            (List.filter Recommend.is_success rows))
       - 5 * (Ranking.total_recommends r - Ranking.success_recommends r).
Proof.
  intros Hin range rows.
  destruct (calculateRankings_row _ _ _ _ _ _ _ _ _ _ Hin)
    as (user & m & i & _ & _ & Hr).
  fold range in Hr.
  assert (Hu : Ranking.user_id r = User.id user)
    by (rewrite Hr; unfold Ranking.userRow;
        destruct (Ranking.streaks _); reflexivity).
  subst rows. rewrite Hu.
  remember (List.filter
              (Ranking.recommendWhere (User.id user) (fst range) (snd range))
              recommends) as rows eqn:E.
  assert (Hf : Ranking.total_recommends r = Z.of_nat (List.length rows)
               /\ Ranking.success_recommends r
                  = Z.of_nat (List.length
                                (List.filter Recommend.is_success rows))
               /\ Ranking.win_rate r
                  = (if 0 <? Z.of_nat (List.length rows)
                     then (inject_Z (Z.of_nat (List.length
                             (List.filter Recommend.is_success rows)))
                           / inject_Z (Z.of_nat (List.length rows)))%Q
                     else 0%Q)
               /\ Ranking.period_score r
                  = Ranking.intOrZero (Ranking.sumScore streakColumn rows)).
  { rewrite Hr. unfold Ranking.userRow. rewrite <- E.
    destruct (Ranking.streaks _). repeat split; reflexivity. }
  destruct Hf as (Ht & Hs & Hw & Hp). rewrite Ht, Hs, Hw, Hp. clear E.
  pose proof (List.filter_length Recommend.is_success rows) as Hlen.
  split; [reflexivity|]. split; [reflexivity|]. split; [lia|]. split.
  - destruct (Z.ltb_spec 0 (Z.of_nat (List.length rows))) as [Hpos|Hpos].
    + assert (Hq : (0 < inject_Z (Z.of_nat (List.length rows)))%Q)
        by (rewrite <- (Zlt_Qlt 0); exact Hpos).
      split.
      * apply Qle_shift_div_l; [exact Hq|].
        rewrite Qmult_0_l. rewrite <- (Zle_Qle 0). lia.
      * apply Qle_shift_div_r; [exact Hq|].
        rewrite Qmult_1_l. rewrite <- Zle_Qle. lia.
    + split; [apply Qle_refl|discriminate].
  - destruct rows as [|x rows'].
    + reflexivity.
    + unfold Ranking.sumScore. cbn [Ranking.intOrZero].
      rewrite scoreCase_sum. lia.
Qed.

Lemma calculated_statistics_witness :
  let range := Ranking.getPeriodRange localDate localDateEnd Ranking.weekly
                 "2024-W05" in
  let rows := List.filter
                (Ranking.recommendWhere 1 (fst range) (snd range))
                (Recommend.recommends two_wins_after_loss) in
  Ranking.total_recommends streak_row = Z.of_nat (List.length rows)
  /\ Ranking.success_recommends streak_row
     = Z.of_nat (List.length (List.filter Recommend.is_success rows))
  /\ 0 <= Ranking.success_recommends streak_row
       <= Ranking.total_recommends streak_row
  /\ (0 <= Ranking.win_rate streak_row <= 1)%Q
  /\ Ranking.period_score streak_row
     = List.fold_right Z.add 0
         (List.map (Ranking.scoreCase (fun _ => 0))
            (List.filter Recommend.is_success rows))
       - 5 * (Ranking.total_recommends streak_row
              - Ranking.success_recommends streak_row).
Proof.
  apply (calculated_statistics localDate localDateEnd (fun _ => 0)
           example_clock Ranking.weekly (Some "2024-W05"%string)
           (Recommend.users two_wins_after_loss)
           (Recommend.recommends two_wins_after_loss) [] streak_row).
  left. vm_compute. reflexivity.
Defined.

(** X19: [calculateRankings] replaces one snapshot and touches no other.
    After the call the rows stored for the type and period computed are
    exactly the rows returned, the rows of every other type or period are
    the ones stored before, and the returned rows hold the active users
    once each: their user ids are a rearrangement of the ids of the
    active users, without repetition when the users' ids are distinct. *)
Theorem calculateRankings_replaces_snapshot
    (newDate newDateEnd : Z -> Z -> Z -> Z)
    (streakColumn : Recommend.t -> Z) now type period users recommends
    rankings :
  let currentPeriod := Ranking.orCurrentPeriod now type period in
  let result := Ranking.calculateRankings newDate newDateEnd streakColumn
                  now type period users recommends rankings in
  List.filter (Ranking.samePeriod type currentPeriod) (snd result)
  = fst result
  /\ (forall type' period',
        type' <> type \/ period' <> currentPeriod ->
        List.filter (Ranking.samePeriod type' period') (snd result)
        = List.filter (Ranking.samePeriod type' period') rankings)
  /\ List.map Ranking.user_id (fst result)
     ≡ₚ List.map User.id (List.filter User.is_active users)
  /\ (NoDup (List.map User.id users) ->
      NoDup (List.map Ranking.user_id (fst result))).
Proof.
  intros currentPeriod result.
  assert (Hperm : List.map Ranking.user_id (fst result)
                  ≡ₚ List.map User.id (List.filter User.is_active users)).
  { unfold result. rewrite calculateRankings_fst, assignRanks_user_ids.
    rewrite <- (unrankedRows_user_ids newDate newDateEnd streakColumn now
                  type period users recommends).
    apply Permutation_map. apply sortBy_Permutation. }
  split; [apply calculateRankings_this_period|]. split; [|split].
  - intros type' period' Hne. unfold result. unfold currentPeriod in Hne.
    rewrite calculateRankings_snd, List.filter_app.
    rewrite (filter_none _ (fst _)).
    + rewrite app_nil_r. apply filter_filter_disjoint.
      intros x Hx. apply samePeriod_spec in Hx. destruct Hx as [Ht Hp].
      destruct (Ranking.samePeriod type (Ranking.orCurrentPeriod now type
                                           period) x) eqn:E; [|reflexivity].
      apply samePeriod_spec in E. destruct E as [Ht' Hp'].
      exfalso. destruct Hne as [Hne|Hne]; apply Hne; congruence.
    + intros x Hx. apply calculateRankings_samePeriod in Hx.
      apply samePeriod_spec in Hx. destruct Hx as [Ht Hp].
      destruct (Ranking.samePeriod type' period' x) eqn:E; [|reflexivity].
      apply samePeriod_spec in E. destruct E as [Ht' Hp'].
      exfalso. destruct Hne as [Hne|Hne]; apply Hne; congruence.
  - exact Hperm.
  - intros Hnd. rewrite Hperm. apply NoDup_map_filter. exact Hnd.
Qed.

(** ** controllers/rankingController.js: pages *)

Section Pages.

Context {A : Type}.

Lemma chunks_cover (n : nat) (k : nat) : forall l : list A,
  (List.length l <= k * n)%nat ->
  List.concat
    (List.map (fun i => List.firstn n (List.skipn (i * n) l)) (List.seq 0 k))
  = l.
Proof.
  induction k as [|k IH]; intros l Hl.
  - destruct l; [reflexivity|cbn in Hl; lia].
  - cbn [List.seq List.map List.concat]. rewrite <- List.seq_shift.
    rewrite List.map_map.
    rewrite (List.map_ext _
               (fun i => List.firstn n (List.skipn (i * n) (List.skipn n l)))).
    + rewrite IH.
      * cbn [Nat.mul List.skipn]. apply List.firstn_skipn.
      * rewrite List.length_skipn. lia.
    + intros i. rewrite List.skipn_skipn. f_equal. f_equal. lia.
Qed.

End Pages.

Lemma ceilDiv_bounds (n d : Z) :
  1 <= d -> (JSString.ceilDiv n d - 1) * d < n <= JSString.ceilDiv n d * d.
Proof.
  intros Hd. unfold JSString.ceilDiv.
  pose proof (Z.div_mod (- n) d ltac:(lia)).
  pose proof (Z.mod_pos_bound (- n) d ltac:(lia)).
  nia.
Qed.

Lemma getRankingList_all now type period rankings users :
  let matching :=
    List.filter (fun r => Ranking.samePeriod type
                            (Ranking.periodOrCurrent now type period) r
                          && Ranking.is_active r
                          && Ranking.userIsActive users (Ranking.user_id r))
      rankings in
  let ordered :=
    Ranking.sortBy (fun a b => Ranking.rank a <? Ranking.rank b) matching in
  snd (Ranking.getRankingList now type period (List.length rankings) 0
         rankings users) = ordered
  /\ forall limit offset,
       Ranking.getRankingList now type period limit offset rankings users
       = (Z.of_nat (List.length ordered),
          List.firstn limit (List.skipn offset ordered)).
Proof.
  intros matching ordered. split.
  - unfold Ranking.getRankingList. cbn [snd List.skipn].
    fold matching. fold ordered. apply List.firstn_all2.
    unfold ordered. rewrite sortBy_length. unfold matching.
    apply List.filter_length_le.
  - intros limit offset. unfold Ranking.getRankingList.
    fold matching. fold ordered. f_equal.
    unfold ordered. rewrite sortBy_length. reflexivity.
Qed.

(** X20: the pages of a leaderboard, for a [limit] of at least 1.  The
    [total] and [pages] reported do not depend on the page asked for,
    [pages] is the least number of pages of [limit] rows that hold
    [total] rows, the pages 1 to [pages] put one after the other are
    exactly the selected rows in rank order, each with its
    [rank_change], and a page after the last one is empty. *)
Theorem ranking_pages_cover now type period limit rankings users :
  1 <= limit ->
  let page p :=
    RankingController.rankingPage now type period p limit rankings users in
  let all :=
    snd (Ranking.getRankingList now type period (List.length rankings) 0
           rankings users) in
  let total := Z.of_nat (List.length all) in
  let pages := JSString.ceilDiv total limit in
  (forall p, snd (fst (page p)) = total /\ snd (page p) = pages)
  /\ (pages - 1) * limit < total <= pages * limit
  /\ List.concat
       (List.map (fun i => fst (fst (page (Z.of_nat i + 1))))
          (List.seq 0 (Z.to_nat pages)))
     = List.map (fun r => (r, RankingController.rank_change r)) all
  /\ (forall p, pages < p -> fst (fst (page p)) = []).
Proof.
  intros Hl page all total pages.
  destruct (getRankingList_all now type period rankings users) as [Hall Hpage].
  cbv zeta in Hall, Hpage. fold all in Hall. rewrite <- Hall in Hpage.
  assert (Hp : forall p,
            page p
            = (List.map (fun r => (r, RankingController.rank_change r))
                 (List.firstn (Z.to_nat limit)
                    (List.skipn (Z.to_nat ((p - 1) * limit)) all)),
               total, pages)).
  { intros p. unfold page, RankingController.rankingPage.
    rewrite Hpage. reflexivity. }
  pose proof (ceilDiv_bounds total limit Hl) as Hb. fold pages in Hb.
  split; [intros p; rewrite Hp; split; reflexivity|].
  split; [exact Hb|]. split.
  - rewrite (List.map_ext _
               (fun i => List.map
                           (fun r => (r, RankingController.rank_change r))
                           (List.firstn (Z.to_nat limit)
                              (List.skipn (i * Z.to_nat limit) all)))).
    + rewrite <- (List.map_map
                    (fun i => List.firstn (Z.to_nat limit)
                                (List.skipn (i * Z.to_nat limit) all))
                    (List.map
                       (fun r => (r, RankingController.rank_change r)))).
      rewrite <- List.concat_map. f_equal. apply chunks_cover.
      unfold total in Hb. nia.
    + intros i. rewrite Hp. cbn [fst]. do 3 f_equal. nia.
  - intros p Hgt. rewrite Hp. cbn [fst].
    rewrite List.skipn_all2; [rewrite List.firstn_nil; reflexivity|].
    unfold total in Hb. nia.
Qed.

Lemma ranking_pages_cover_witness :
  let page p :=
    RankingController.rankingPage example_clock Ranking.weekly
      (Some "2024-W05"%string) p 2 three_user_snapshot three_users in
  let all :=
    snd (Ranking.getRankingList example_clock Ranking.weekly
           (Some "2024-W05"%string) (List.length three_user_snapshot) 0
           three_user_snapshot three_users) in
  let total := Z.of_nat (List.length all) in
  let pages := JSString.ceilDiv total 2 in
  (forall p, snd (fst (page p)) = total /\ snd (page p) = pages)
  /\ (pages - 1) * 2 < total <= pages * 2
  /\ List.concat
       (List.map (fun i => fst (fst (page (Z.of_nat i + 1))))
          (List.seq 0 (Z.to_nat pages)))
     = List.map (fun r => (r, RankingController.rank_change r)) all
  /\ (forall p, pages < p -> fst (fst (page p)) = []).
Proof.
  apply (ranking_pages_cover example_clock Ranking.weekly
           (Some "2024-W05"%string) 2 three_user_snapshot three_users).
  lia.
Defined.

(** ** models/Recommend.js: returns, expiry and [toJSON] *)

Section Returns.

Import Recommend.

Lemma Qdiv_pos (w e : Q) : (0 < e)%Q -> ((0 < w / e)%Q <-> (0 < w)%Q).
Proof.
  intros He. assert (Hi : (0 < / e)%Q) by (apply Qinv_lt_0_compat; exact He).
  unfold Qdiv. split; intros H.
  - rewrite <- (Qmult_0_l (/ e)) in H.
    exact (proj1 (Qmult_lt_r _ _ _ Hi) H).
  - rewrite <- (Qmult_0_l (/ e)). exact (proj2 (Qmult_lt_r _ _ _ Hi) H).
Qed.

(** The return has the sign of the price movement. *)
Lemma returnOf_sign (entry : Q) (price : JS.value) :
  (0 < entry)%Q ->
  ((0 < returnOf entry price)%Q
   <-> (JS.toNumber (JS.Text entry) < JS.toNumber price)%Q).
Proof.
  intros He. unfold returnOf, JS.mul, JS.div, JS.sub.
  set (e := JS.toNumber (JS.Text entry)). set (p := JS.toNumber price).
  assert (Pe : (0 < e)%Q) by (apply double_pos; exact He).
  rewrite double_pos.
  assert (S : forall z, (0 < z * 100)%Q <-> (0 < z)%Q) by (intros z; lra).
  rewrite S, double_pos, (Qdiv_pos _ e Pe), double_pos. lra.
Qed.

Lemma direction_same (a b : Q) :
  direction a = direction b <-> ((0 < a)%Q <-> (0 < b)%Q).
Proof.
  unfold direction.
  destruct (JS.gt a 0) eqn:Ea, (JS.gt b 0) eqn:Eb.
  - apply gt_spec in Ea. apply gt_spec in Eb. tauto.
  - apply gt_spec in Ea.
    split; [discriminate|]. intros H. apply H in Ea.
    apply gt_spec in Ea. congruence.
  - apply gt_spec in Eb.
    split; [discriminate|]. intros H. apply H in Eb.
    apply gt_spec in Eb. congruence.
  - split; [|reflexivity]. intros _.
    split; intros H; apply gt_spec in H; congruence.
Qed.

End Returns.

(** X21: settlement in terms of prices.  For a positive entry price, the
    actual return stored by [settle] is positive exactly when the final
    price is above the entry price, both read as numbers, and the
    prediction is a success exactly when it predicted a rise and the
    price rose, or predicted no rise and the price did not rise, with an
    accuracy score of at least 50. *)
Theorem success_means_price_moved_as_predicted now exitPrice this r' :
  (0 < Recommend.entry_price this)%Q ->
  Recommend.settleFields now exitPrice this = JS.Ok r' ->
  let finalPrice :=
    JS.or exitPrice (JS.column (Recommend.current_price this)) in
  let rose :=
    (JS.toNumber (JS.Text (Recommend.entry_price this))
     < JS.toNumber finalPrice)%Q in
  exists actual,
    Recommend.actual_return r' = Some actual
    /\ ((0 < actual)%Q <-> rose)
    /\ (Recommend.status r' = Recommend.success
        <-> (((0 < Recommend.predict_change this)%Q <-> rose)
             /\ (50 <= Recommend.accuracyScore
                         (Recommend.predict_change this) actual)%Q)).
Proof.
  intros He H finalPrice rose.
  destruct (settleFields_Ok _ _ _ _ H) as (fp & price & Hfp & _ & ->).
  fold finalPrice in Hfp. subst fp.
  pose proof (returnOf_sign (Recommend.entry_price this) finalPrice He)
    as Hs. fold rose in Hs.
  exists (Recommend.returnOf (Recommend.entry_price this) finalPrice).
  cbn [Recommend.actual_return Recommend.status].
  split; [reflexivity|]. split; [exact Hs|].
  rewrite outcome_success, direction_same, Hs. reflexivity.
Qed.

Lemma success_means_price_moved_as_predicted_witness :
  (0 < Recommend.entry_price example_prediction)%Q
  /\ Recommend.settleFields 1 (JS.Number 110) example_prediction
     = JS.Ok example_settled
  /\ exists actual,
       Recommend.actual_return example_settled = Some actual
       /\ ((0 < actual)%Q <-> (JS.double 100 < JS.double 110)%Q)
       /\ (Recommend.status example_settled = Recommend.success
           <-> (((0 < Recommend.predict_change example_prediction)%Q
                 <-> (JS.double 100 < JS.double 110)%Q)
                /\ (50 <= Recommend.accuracyScore
                            (Recommend.predict_change example_prediction)
                            actual)%Q)).
Proof.
  assert (H0 : (0 < Recommend.entry_price example_prediction)%Q)
    by reflexivity.
  assert (H1 : Recommend.settleFields 1 (JS.Number 110) example_prediction
               = JS.Ok example_settled) by (vm_compute; reflexivity).
  split; [exact H0|]. split; [exact H1|].
  exact (success_means_price_moved_as_predicted 1 (JS.Number 110)
           example_prediction example_settled H0 H1).
Defined.

(** X22: [checkExpired] settles or does nothing.  On a prediction that
    is active and past its end date it does exactly what [settle] does
    without an exit price, throwing when there is no price; otherwise it
    returns the prediction and the tables as they are.  The branch that
    would store the status "expired" never runs, because a prediction
    that [settle] returns is not active. *)
Theorem checkExpired_settles_or_nothing now this db :
  Recommend.checkExpired now this db
  = (if Recommend.is_active this && (Recommend.end_date this <? now)
     then Recommend.settle now JS.Null this db
     else (JS.Ok this, db)).
Proof.
  unfold Recommend.checkExpired.
  destruct (Recommend.is_active this && (Recommend.end_date this <? now));
    [|reflexivity].
  unfold Recommend.settle.
  destruct (Recommend.settleFields now JS.Null this) as [x|e] eqn:S;
    [|reflexivity].
  destruct (settleFields_columns _ _ _ _ S) as [_ Hx]. rewrite Hx.
  reflexivity.
Qed.

Section Progress.

Local Open Scope Q_scope.

(** The difference of two instants, as the subtraction of two dates
    computes it. *)
Lemma sub_inject_Z (a b : Z) :
  JS.sub (inject_Z a) (inject_Z b) = JS.double (inject_Z (a - b)).
Proof.
  unfold JS.sub, Z.sub, Qminus. now rewrite inject_Z_plus, inject_Z_opp.
Qed.

Lemma double_nonneg (x : Q) : 0 <= x -> 0 <= JS.double x.
Proof. intros H. apply (double_mono 0 x H). Qed.

Lemma Qdiv_le_compat (a b d : Q) : 0 < d -> a <= b -> a / d <= b / d.
Proof.
  intros Hd H. unfold Qdiv. apply Qmult_le_compat_r; [exact H|].
  apply Qlt_le_weak, Qinv_lt_0_compat, Hd.
Qed.

(** The share of the hold period that has passed, as [toJSON] computes
    it before it caps it at 100: it grows with the clock, it is not
    negative from the start date on, it is at least 100 from the end date
    on and, for a hold period below [2^53] ms, below 100 before. *)
Lemma share_spec (now start end_ : Z) :
  (start < end_)%Z ->
  let share n :=
    JS.mul (JS.div (JS.sub (inject_Z n) (inject_Z start))
              (JS.sub (inject_Z end_) (inject_Z start))) 100 in
  (forall now', (now <= now')%Z -> share now <= share now')
  /\ ((start <= now)%Z -> 0 <= share now)
  /\ ((end_ <= now)%Z -> 100 <= share now)
  /\ ((end_ - start < 2 ^ 53)%Z -> (now < end_)%Z -> share now < 100).
Proof.
  intros Hd share. subst share. cbv beta. rewrite !sub_inject_Z.
  unfold JS.mul, JS.div.
  set (d := JS.double (inject_Z (end_ - start))).
  assert (Pd : 0 < d).
  { apply double_pos. change 0 with (inject_Z 0). rewrite <- Zlt_Qlt. lia. }
  assert (M : forall n n', (n <= n')%Z ->
            JS.double (JS.double (JS.double (inject_Z (n - start)) / d) * 100)
            <= JS.double
                 (JS.double (JS.double (inject_Z (n' - start)) / d) * 100)).
  { intros n n' H. apply double_mono.
    apply Qmult_le_compat_r; [|discriminate].
    apply double_mono, Qdiv_le_compat; [exact Pd|].
    apply double_mono. rewrite <- Zle_Qle. lia. }
  split; [intros now' Hn; rewrite sub_inject_Z; apply M; exact Hn|].
  split; [|split].
  - intros H. apply double_nonneg.
    apply Qmult_le_0_compat; [|discriminate]. apply double_nonneg.
    apply Qle_shift_div_l; [exact Pd|]. rewrite Qmult_0_l.
    apply double_nonneg. change 0 with (inject_Z 0). rewrite <- Zle_Qle. lia.
  - intros H.
    assert (O : 1 <= JS.double (inject_Z (now - start)) / d).
    { apply Qle_shift_div_l; [exact Pd|]. rewrite Qmult_1_l. unfold d.
      apply double_mono. rewrite <- Zle_Qle. lia. }
    apply double_mono in O. change (JS.double 1) with 1 in O.
    change 100 with (JS.double 100) at 1. apply double_mono. lra.
  - intros B H.
    assert (Ed : d == inject_Z (end_ - start))
      by (apply double_inject_Z; lia).
    assert (A : JS.double (inject_Z (now - start))
                <= inject_Z (end_ - start - 1)).
    { rewrite <- (double_inject_Z (end_ - start - 1)) by lia.
      apply double_mono. rewrite <- Zle_Qle. lia. }
    set (c := (9007199254740991 # 9007199254740992)).
    assert (Q1 : JS.double (inject_Z (now - start)) / d <= c).
    { apply Qle_shift_div_r; [exact Pd|]. rewrite Ed.
      eapply Qle_trans; [exact A|]. unfold c.
      rewrite (Qmake_Qdiv 9007199254740991 9007199254740992).
      unfold Qdiv. rewrite <- Qmult_assoc, (Qmult_comm (/ _)), Qmult_assoc.
      apply Qle_shift_div_l; [reflexivity|].
      rewrite <- !inject_Z_mult, <- Zle_Qle. lia. }
    apply double_mono in Q1.
    assert (Q2 : JS.double (JS.double (inject_Z (now - start)) / d) * 100
                 <= JS.double c * 100) by lra.
    apply double_mono in Q2.
    eapply Qle_lt_trans; [exact Q2|]. vm_compute. reflexivity.
Qed.

End Progress.

(** X23: the progress and the remaining time [toJSON] reports for an
    active prediction whose end date is after its start date, by less
    than [2^53] ms.  The progress is at most 100 and, from the start date
    on, at least 0; it never decreases as the clock advances; it is 100
    exactly when the remaining time is 0, which is exactly when the end
    date has been reached. *)
Theorem toJSON_progress now this :
  Recommend.start_date this < Recommend.end_date this ->
  Recommend.end_date this - Recommend.start_date this < 2 ^ 53 ->
  (RecommendJSON.progress now this <= 100)%Q
  /\ (Recommend.start_date this <= now ->
      (0 <= RecommendJSON.progress now this)%Q)
  /\ (forall now', now <= now' ->
      (RecommendJSON.progress now this
       <= RecommendJSON.progress now' this)%Q)
  /\ ((RecommendJSON.progress now this == 100)%Q
      <-> Recommend.end_date this <= now)
  /\ (RecommendJSON.remaining_time now this = 0
      <-> Recommend.end_date this <= now).
Proof.
  intros Hd Hb. unfold RecommendJSON.progress, RecommendJSON.remaining_time.
  cbv zeta.
  destruct (share_spec now (Recommend.start_date this)
              (Recommend.end_date this) Hd) as (Hmono & H0 & H100 & Hlt).
  cbv beta in *.
  set (x := JS.mul _ 100) in *. clearbody x.
  assert (Hcap : forall y, ((if Qle_bool 100 y then 100 else y) <= 100)%Q).
  { intros y. destruct (Qle_bool 100 y) eqn:E; [lra|].
    apply Qlt_le_weak, Qnot_le_lt. intros L. apply Qle_bool_iff in L.
    congruence. }
  split; [apply Hcap|]. split; [|split; [|split]].
  - intros Hs. specialize (H0 Hs). destruct (Qle_bool 100 x); lra.
  - intros now' Hn. specialize (Hmono now' Hn).
    set (x' := JS.mul _ 100) in *. clearbody x'.
    destruct (Qle_bool 100 x) eqn:E.
    + apply Qle_bool_iff in E.
      assert (E' : Qle_bool 100 x' = true) by (apply Qle_bool_iff; lra).
      rewrite E'. lra.
    + destruct (Qle_bool 100 x') eqn:E'; [|exact Hmono].
      apply Qlt_le_weak, Qnot_le_lt. intros L. apply Qle_bool_iff in L.
      congruence.
  - destruct (Z_le_gt_dec (Recommend.end_date this) now) as [L|G].
    + assert (E : Qle_bool 100 x = true) by (apply Qle_bool_iff; auto).
      rewrite E. split; [intros _; exact L|reflexivity].
    + assert (S : (x < 100)%Q) by (apply Hlt; [exact Hb|lia]).
      destruct (Qle_bool 100 x) eqn:E.
      * apply Qle_bool_iff in E. lra.
      * split; [intros C; lra|lia].
  - lia.
Qed.

Lemma toJSON_progress_witness :
  Recommend.start_date example_prediction
    < Recommend.end_date example_prediction
  /\ (RecommendJSON.progress 302400000 example_prediction == 50)%Q
  /\ (RecommendJSON.progress 302400000 example_prediction <= 100)%Q
  /\ (Recommend.start_date example_prediction <= 302400000 ->
      (0 <= RecommendJSON.progress 302400000 example_prediction)%Q)
  /\ (forall now', 302400000 <= now' ->
      (RecommendJSON.progress 302400000 example_prediction
       <= RecommendJSON.progress now' example_prediction)%Q)
  /\ ((RecommendJSON.progress 302400000 example_prediction == 100)%Q
      <-> Recommend.end_date example_prediction <= 302400000)
  /\ (RecommendJSON.remaining_time 302400000 example_prediction = 0
      <-> Recommend.end_date example_prediction <= 302400000).
Proof.
  split; [reflexivity|]. split; [vm_compute; reflexivity|].
  apply (toJSON_progress 302400000 example_prediction);
    vm_compute; reflexivity.
Defined.

(** X24: [optionalAuth] attaches a user to the request exactly when
    [authenticate] would let the request through, and it is the same
    [req.user]; where [authenticate] passes an error on, [optionalAuth]
    attaches nothing. *)
Theorem optionalAuth_agrees_with_authenticate verify authorization users :
  AuthMiddleware.optionalAuth verify authorization users
  = match AuthMiddleware.authenticate verify authorization users with
    | inr user => Some user
    | inl _ => None
    end.
Proof.
  unfold AuthMiddleware.optionalAuth, AuthMiddleware.authenticate.
  destruct (AuthMiddleware.bearerToken authorization) as [token|];
    [|reflexivity].
  destruct (String.eqb token ""); [reflexivity|].
  destruct (verify token) as [[k|] o|err].
  - destruct (Recommend.findByPk User.id k users) as [user|]; [|reflexivity].
    destruct (User.is_active user); reflexivity.
  - reflexivity.
  - destruct (String.eqb (ErrorMiddleware.name err) "JsonWebTokenError");
      [reflexivity|].
    destruct (String.eqb (ErrorMiddleware.name err) "TokenExpiredError");
      reflexivity.
Qed.
